(** * Verification of the record deduplication and screening engine

    A shallow embedding of [backend/sysrev_tool.py]: the identity resolver
    ([norm_text], [make_record_id]), the duplicate detector ([deduplicate]),
    the rule and model classifiers ([keyword_match], [screen_simple],
    [screen_ml]) and the metrics evaluator ([compute_metrics]).

    Python values are modelled as follows.
    - [str]: Rocq [string]; a character is a code point below 256, with
      the whitespace and letter-case classes Python gives these code
      points (text with code points from 256 on is outside the model).
    - [float]: the rational [Q] it denotes; an arithmetic operation
      returns its exact result rounded, and the rounding is a parameter.
    - a pandas [DataFrame]: its rows in order, each with its index label;
      a row is an association list from column names to cells.
    - frames live in a store and are passed by reference, so that in-place
      column assignment is visible through every alias.
    - library code (hashlib, json, rapidfuzz, joblib, sklearn, the merge
      of pandas) is a parameter of the development; the modules [SHA1],
      [Json], [Fuzz] and [Float64] and [merge_inner] give executable
      models used to evaluate concrete runs. *)

From Stdlib Require Import ZArith QArith Lqa Bool Ascii String List Lia.
From stdpp Require Import base decidable option list sorting gmap strings pretty.

Local Open Scope string_scope.
Local Open Scope Z_scope.

(** ** Python string operations *)

Module PyStr.

(** [str.isspace] on one character, which is also what [str.strip],
    [str.split] and the pattern [\s] go by: tab, line feed, vertical tab,
    form feed, carriage return, the four separators 28-31, space, the
    next-line control U+0085 and the no-break space U+00A0. *)
Definition isspace (c : ascii) : bool :=
  let n := nat_of_ascii c in
  ((9 <=? n) && (n <=? 13) || (28 <=? n) && (n <=? 32)
   || (n =? 133) || (n =? 160))%nat.

(** [str.lower] on one character: the letters A-Z and the capital
    letters U+00C0-U+00DE of Latin-1, the multiplication sign U+00D7
    apart. *)
Definition lower_char (c : ascii) : ascii :=
  let n := nat_of_ascii c in
  if ((65 <=? n) && (n <=? 90)
      || (192 <=? n) && (n <=? 222) && negb (n =? 215))%nat
  then ascii_of_nat (n + 32) else c.

(** [s.lower()] *)
Fixpoint lower (s : string) : string :=
  match s with
  | EmptyString => EmptyString
  | String c s' => String (lower_char c) (lower s')
  end.

(** [s.lstrip()] *)
Fixpoint lstrip (s : string) : string :=
  match s with
  | EmptyString => EmptyString
  | String c s' => if isspace c then lstrip s' else s
  end.

(** [s.rstrip()] *)
Fixpoint rstrip (s : string) : string :=
  match s with
  | EmptyString => EmptyString
  | String c s' =>
      match rstrip s' with
      | EmptyString => if isspace c then EmptyString else String c EmptyString
      | r => String c r
      end
  end.

(** [s.strip()] *)
Definition strip (s : string) : string := rstrip (lstrip s).

(** [chr(n)], for the characters of the program's messages that are
    outside ASCII. *)
Definition chr (n : nat) : string := String (ascii_of_nat n) EmptyString.

(** Truth value of a string: non-empty. *)
Definition truthy (s : string) : bool :=
  match s with EmptyString => false | _ => true end.

(** [re.sub(r"\s+", " ", s)]: every maximal run of whitespace becomes one
    space.  [in_run] tells that the previous character was whitespace. *)
Fixpoint sub_ws_runs (in_run : bool) (s : string) : string :=
  match s with
  | EmptyString => EmptyString
  | String c s' =>
      if isspace c
      then if in_run then sub_ws_runs true s' else String " " (sub_ws_runs true s')
      else String c (sub_ws_runs false s')
  end.

(** [re.sub(r"[^a-z0-9 ]", "", s)] *)
Definition is_lower_alnum_space (c : ascii) : bool :=
  let n := nat_of_ascii c in
  ((97 <=? n) && (n <=? 122) || (48 <=? n) && (n <=? 57) || (n =? 32))%nat.

Fixpoint keep_lower_alnum_space (s : string) : string :=
  match s with
  | EmptyString => EmptyString
  | String c s' =>
      if is_lower_alnum_space c then String c (keep_lower_alnum_space s')
      else keep_lower_alnum_space s'
  end.

(** [s[:n]] *)
Fixpoint take (n : nat) (s : string) : string :=
  match n, s with
  | S n', String c s' => String c (take n' s')
  | _, _ => EmptyString
  end.

(** [s.split()]: the maximal runs of non-whitespace characters.  [cur] is
    the word being read, reversed. *)
Fixpoint rev_string (acc s : string) : string :=
  match s with
  | EmptyString => acc
  | String c s' => rev_string (String c acc) s'
  end.

Fixpoint split_go (cur : string) (s : string) : list string :=
  match s with
  | EmptyString =>
      match cur with EmptyString => [] | _ => [rev_string EmptyString cur] end
  | String c s' =>
      if isspace c
      then match cur with
           | EmptyString => split_go EmptyString s'
           | _ => rev_string EmptyString cur :: split_go EmptyString s'
           end
      else split_go (String c cur) s'
  end.

Definition split (s : string) : list string := split_go EmptyString s.

(** [sep.join(l)] *)
Fixpoint join (sep : string) (l : list string) : string :=
  match l with
  | [] => EmptyString
  | [x] => x
  | x :: l' => x ++ sep ++ join sep l'
  end.

(** [sub in s] *)
Fixpoint contains (sub s : string) : bool :=
  String.prefix sub s
  || match s with
     | EmptyString => false
     | String _ s' => contains sub s'
     end.

End PyStr.

(** ** Library model: [hashlib.sha1(b).hexdigest()] (FIPS 180-4)

    Words are 32-bit numbers in [N]; every addition is reduced modulo
    [2^32]. *)

Module SHA1.

Definition w32 (x : N) : N := N.land x 0xFFFFFFFF.

Definition add32 (x y : N) : N := w32 (x + y).

Definition rotl (n x : N) : N :=
  w32 (N.lor (N.shiftl x n) (N.shiftr x (32 - n))).

Definition not32 (x : N) : N := N.lxor x 0xFFFFFFFF.

(** [s.encode("utf-8")]: one byte for a code point below 128, two for
    the others. *)
Definition encode_char (c : ascii) : list N :=
  let n := N_of_ascii c in
  if (n <? 128)%N then [n]
  else [N.lor 0xC0 (N.shiftr n 6); N.lor 0x80 (N.land n 0x3F)].

Definition encode (s : string) : list N :=
  List.concat (List.map encode_char (list_ascii_of_string s)).

(** Big-endian bytes of [x], [k] of them. *)
Fixpoint be_bytes (k : nat) (x : N) : list N :=
  match k with
  | O => []
  | S k' => N.land (N.shiftr x (8 * N.of_nat k')) 0xFF :: be_bytes k' x
  end.

Definition pad (msg : list N) : list N :=
  let len := N.of_nat (List.length msg) in
  let zeros := N.to_nat ((119 - len mod 64) mod 64) in
  msg ++ [0x80%N] ++ List.repeat 0%N zeros ++ be_bytes 8 (8 * len).

Fixpoint be_word (bs : list N) (acc : N) : N :=
  match bs with
  | [] => acc
  | b :: bs' => be_word bs' (N.lor (N.shiftl acc 8) b)
  end.

(** Cuts [l] into chunks of [n] elements ([fuel] bounds the number of
    chunks). *)
Fixpoint chunks {A} (fuel n : nat) (l : list A) : list (list A) :=
  match fuel, l with
  | O, _ | _, [] => []
  | S fuel', _ => List.firstn n l :: chunks fuel' n (List.skipn n l)
  end.

Definition words_of_block (block : list N) : list N :=
  List.map (fun bs => be_word bs 0%N) (chunks 16 4 block).

(** Message schedule, most recent word first. *)
Fixpoint schedule (k : nat) (rev_w : list N) : list N :=
  match k with
  | O => rev_w
  | S k' =>
      let x := N.lxor (N.lxor (List.nth 2 rev_w 0%N) (List.nth 7 rev_w 0%N))
                      (N.lxor (List.nth 13 rev_w 0%N) (List.nth 15 rev_w 0%N)) in
      schedule k' (rotl 1 x :: rev_w)
  end.

Definition state : Type := N * N * N * N * N.

Definition round (t : nat) (w : N) (st : state) : state :=
  let '(a, b, c, d, e) := st in
  let '(f, k) :=
    if (t <? 20)%nat then
      (N.lor (N.land b c) (N.land (not32 b) d), 0x5A827999%N)
    else if (t <? 40)%nat then
      (N.lxor (N.lxor b c) d, 0x6ED9EBA1%N)
    else if (t <? 60)%nat then
      (N.lor (N.lor (N.land b c) (N.land b d)) (N.land c d), 0x8F1BBCDC%N)
    else
      (N.lxor (N.lxor b c) d, 0xCA62C1D6%N) in
  let temp := add32 (add32 (add32 (add32 (rotl 5 a) f) e) k) w in
  (temp, a, rotl 30 b, c, d).

Fixpoint rounds (t : nat) (ws : list N) (st : state) : state :=
  match ws with
  | [] => st
  | w :: ws' => rounds (S t) ws' (round t w st)
  end.

Definition compress (h : state) (block : list N) : state :=
  let ws := List.rev (schedule 64 (List.rev (words_of_block block))) in
  let '(h0, h1, h2, h3, h4) := h in
  let '(a, b, c, d, e) := rounds 0 ws h in
  (add32 h0 a, add32 h1 b, add32 h2 c, add32 h3 d, add32 h4 e).

Definition init : state :=
  (0x67452301, 0xEFCDAB89, 0x98BADCFE, 0x10325476, 0xC3D2E1F0)%N.

Definition digest (msg : list N) : state :=
  let padded := pad msg in
  List.fold_left compress (chunks (List.length padded) 64 padded) init.

Definition hex_digit (x : N) : ascii :=
  if (x <? 10)%N then ascii_of_N (48 + x) else ascii_of_N (87 + x).

Fixpoint hex_word (k : nat) (x : N) : string :=
  match k with
  | O => EmptyString
  | S k' => String (hex_digit (N.land (N.shiftr x (4 * N.of_nat k')) 0xF)) (hex_word k' x)
  end.

Definition hexdigest (s : string) : string :=
  let '(h0, h1, h2, h3, h4) := digest (encode s) in
  hex_word 8 h0 ++ hex_word 8 h1 ++ hex_word 8 h2 ++ hex_word 8 h3 ++ hex_word 8 h4.

End SHA1.

(** ** Cells, rows and dictionaries *)

(** A value held by a dictionary entry or a frame cell: a [str], [None]
    or NaN, an [int], a [bool], or a [float]. *)
Inductive cell : Type :=
  | Str (s : string)
  | Null
  | Int (z : Z)
  | Bool (b : bool)
  | Real (q : Q).

(** A record ([dict]) and a frame row: field or column names with their
    values, in order. *)
Definition row : Type := list (string * cell).

Fixpoint row_get (k : string) (r : row) : option cell :=
  match r with
  | [] => None
  | (k', v) :: r' => if String.eqb k k' then Some v else row_get k r'
  end.

(** [rec.get(k)] and [rec.get(k, d)] *)
Definition dict_get (k : string) (r : row) : cell := default Null (row_get k r).
Definition dict_get_default (k : string) (d : cell) (r : row) : cell :=
  default d (row_get k r).

(** [isinstance(v, str) and v.strip()] *)
Definition nonblank_str (v : cell) : bool :=
  match v with
  | Str s => PyStr.truthy (PyStr.strip s)
  | _ => false
  end.

(** A stable insertion sort: the model of every sort below. *)
Section InsertionSort.
Context {A : Type} (le : A -> A -> bool).

Fixpoint insert_sorted (x : A) (l : list A) : list A :=
  match l with
  | [] => [x]
  | y :: l' => if le x y then x :: l else y :: insert_sorted x l'
  end.

Fixpoint insertion_sort (l : list A) : list A :=
  match l with
  | [] => []
  | x :: l' => insert_sorted x (insertion_sort l')
  end.
End InsertionSort.

(** ** Library model: [json.dumps(rec, sort_keys=True)]

    Covers the values the search clients put in a record: strings,
    integers, booleans and [None].  A float is outside the model and is
    written as the quotient of its numerator and denominator. *)

Module Json.

Definition quote : string := String (ascii_of_nat 34) EmptyString.
Definition backslash : string := String (ascii_of_nat 92) EmptyString.

Definition escape_char (c : ascii) : string :=
  let n := nat_of_ascii c in
  if (n =? 34)%nat then backslash ++ quote
  else if (n =? 92)%nat then backslash ++ backslash
  else if (n =? 8)%nat then backslash ++ "b"
  else if (n =? 9)%nat then backslash ++ "t"
  else if (n =? 10)%nat then backslash ++ "n"
  else if (n =? 12)%nat then backslash ++ "f"
  else if (n =? 13)%nat then backslash ++ "r"
  else if ((32 <=? n) && (n <=? 126))%nat then String c EmptyString
  else backslash ++ "u" ++ SHA1.hex_word 4 (N.of_nat n).

Fixpoint escape (s : string) : string :=
  match s with
  | EmptyString => EmptyString
  | String c s' => escape_char c ++ escape s'
  end.

Definition dumps_str (s : string) : string := quote ++ escape s ++ quote.

Definition dumps_cell (v : cell) : string :=
  match v with
  | Str s => dumps_str s
  | Null => "null"
  | Int z => pretty z
  | Bool true => "true"
  | Bool false => "false"
  | Real q => pretty (Qnum q) ++ "/" ++ pretty (Z.pos (Qden q))
  end.

Definition dumps_item (kv : string * cell) : string :=
  dumps_str kv.1 ++ ": " ++ dumps_cell kv.2.

Definition dumps (r : row) : string :=
  "{" ++ PyStr.join ", "
           (List.map dumps_item
              (insertion_sort (fun a b : string * cell => String.leb a.1 b.1) r))
      ++ "}".

End Json.

(** ** Record Identity Resolver *)

(** [norm_text]: a non-string normalises to the empty string. *)
Definition norm_text (s : cell) : string :=
  match s with
  | Str s => PyStr.sub_ws_runs false (PyStr.lower (PyStr.strip s))
  | _ => EmptyString
  end.

Definition id_keys : list string := ["doi"; "pmid"; "eid"; "wos_uid"].

Section Resolver.
(** [hashlib.sha1(b).hexdigest()] and [json.dumps(rec, sort_keys=True)]. *)
Variable sha1_hexdigest : string -> string.
Variable json_dumps : row -> string.

(** The loop over the identifier fields, returning at the first hit. *)
Fixpoint first_external_id (keys : list string) (rec : row) : option string :=
  match keys with
  | [] => None
  | key :: keys' =>
      match dict_get key rec with
      | Str v =>
          if PyStr.truthy (PyStr.strip v)
          then Some (key ++ ":" ++ PyStr.strip v)
          else first_external_id keys' rec
      | _ => first_external_id keys' rec
      end
  end.

(** [make_record_id]; [now_iso] is what the clock reads when the
    fallback calls [now_iso()]. *)
Definition make_record_id (now_iso : string) (rec : row) : string :=
  match first_external_id id_keys rec with
  | Some id => id
  | None =>
      let t := norm_text (dict_get_default "title" (Str EmptyString) rec) in
      let title :=
        if PyStr.truthy t then t
        else now_iso ++ PyStr.take 64 (json_dumps rec) in
      "titlehash:" ++ PyStr.take 16 (sha1_hexdigest title)
  end.
End Resolver.

(** ** Library model: [rapidfuzz.fuzz.token_set_ratio]

    The similarity of two strings is [100 - 100 * d / (len1 + len2)] with
    [d] the insertion-deletion distance, that is
    [len1 + len2 - 2 * lcs]. *)

Module Fuzz.

(** One row of the longest-common-subsequence table: [prev_tail] is the
    previous row from the current column on, [diag] the previous row one
    column to the left, [left] the current row one column to the left. *)
Fixpoint lcs_row (x : ascii) (b : list ascii) (prev_tail : list nat)
    (diag left : nat) : list nat :=
  match b, prev_tail with
  | y :: b', up :: prev' =>
      let v := if Ascii.eqb x y then S diag else Nat.max up left in
      v :: lcs_row x b' prev' up v
  | _, _ => []
  end.

Fixpoint lcs_table (a b : list ascii) (prev : list nat) : list nat :=
  match a with
  | [] => prev
  | x :: a' => lcs_table a' b (O :: lcs_row x b (List.tl prev) O O)
  end.

Definition lcs (s1 s2 : string) : nat :=
  let a := list_ascii_of_string s1 in
  let b := list_ascii_of_string s2 in
  List.last (lcs_table a b (List.repeat O (S (List.length b)))) O.

Definition indel_distance (s1 s2 : string) : nat :=
  (String.length s1 + String.length s2 - 2 * lcs s1 s2)%nat.

Definition norm_distance (dist lensum : nat) : Q :=
  match lensum with
  | O => 100
  | _ => 100 - (100 * inject_Z (Z.of_nat dist)) / inject_Z (Z.of_nat lensum)
  end%Q.

Definition mem (x : string) (l : list string) : bool :=
  List.existsb (String.eqb x) l.

(** [sorted(set(l))] *)
Fixpoint dedup_tokens (l : list string) : list string :=
  match l with
  | [] => []
  | x :: l' => if mem x l' then dedup_tokens l' else x :: dedup_tokens l'
  end.

Definition token_set (s : string) : list string :=
  insertion_sort String.leb (dedup_tokens (PyStr.split s)).

Definition Qmax (a b : Q) : Q := if Qle_bool a b then b else a.

Definition token_set_ratio (s1 s2 : string) : Q :=
  if negb (PyStr.truthy s1) || negb (PyStr.truthy s2) then 0%Q else
  let tokens_a := token_set s1 in
  let tokens_b := token_set s2 in
  match tokens_a, tokens_b with
  | [], _ | _, [] => 0%Q
  | _, _ =>
      let intersect := List.filter (fun x => mem x tokens_b) tokens_a in
      let diff_ab := List.filter (fun x => negb (mem x tokens_b)) tokens_a in
      let diff_ba := List.filter (fun x => negb (mem x tokens_a)) tokens_b in
      match intersect, diff_ab, diff_ba with
      | _ :: _, [], _ | _ :: _, _, [] => 100%Q
      | _, _, _ =>
          let diff_ab_joined := PyStr.join " " diff_ab in
          let diff_ba_joined := PyStr.join " " diff_ba in
          let ab_len := String.length diff_ab_joined in
          let ba_len := String.length diff_ba_joined in
          let sect_len := String.length (PyStr.join " " intersect) in
          let sep := match sect_len with O => O | _ => 1%nat end in
          let sect_ab_len := (sect_len + sep + ab_len)%nat in
          let sect_ba_len := (sect_len + sep + ba_len)%nat in
          let result :=
            norm_distance (indel_distance diff_ab_joined diff_ba_joined)
                          (sect_ab_len + sect_ba_len) in
          match sect_len with
          | O => result
          | _ =>
              let sect_ab_ratio :=
                norm_distance (sep + ab_len) (sect_len + sect_ab_len) in
              let sect_ba_ratio :=
                norm_distance (sep + ba_len) (sect_len + sect_ba_len) in
              Qmax (Qmax result sect_ab_ratio) sect_ba_ratio
          end
      end
  end.

End Fuzz.

(** ** Frames, the store and the effect monad *)

(** A frame: its rows in order, each with its index label. *)
Definition DataFrame : Type := list (Z * row).

(** The classifier produced by training: the probability of the positive
    class for one text. *)
Record Pipeline : Type := { predict_proba_pos : string -> Q }.

(** What a path of the file system holds. *)
Inductive artifact : Type :=
  | Pickled (pipe : Pipeline)
  | Unreadable.

Inductive exn : Type :=
  | KeyError (k : string)
  | TypeError
  | ValueError
  | ZeroDivisionError
  | UnpicklingError
  | RuntimeError (msg : string).

(** The store of frame objects (a reference is a position in it) and the
    file system. *)
Record world : Type := World {
  frames : list DataFrame;
  files : gmap string artifact
}.

Definition ref : Type := nat.

Inductive result (A : Type) : Type :=
  | Ok (a : A)
  | Raise (e : exn).
Arguments Ok {A} a.
Arguments Raise {A} e.

Definition M (A : Type) : Type := world -> result (A * world).

#[global] Instance M_ret : MRet M := fun A a w => Ok (a, w).
#[global] Instance M_bind : MBind M := fun A B f m w =>
  match m w with
  | Ok (a, w') => f a w'
  | Raise e => Raise e
  end.

Definition raise {A} (e : exn) : M A := fun _ => Raise e.

(** Lifts a computation that only fails. *)
Definition lift {A} (r : result A) : M A := fun w =>
  match r with
  | Ok a => Ok (a, w)
  | Raise e => Raise e
  end.

Fixpoint map_result {A B} (f : A -> result B) (l : list A) : result (list B) :=
  match l with
  | [] => Ok []
  | x :: l' =>
      match f x with
      | Raise e => Raise e
      | Ok y =>
          match map_result f l' with
          | Raise e => Raise e
          | Ok ys => Ok (y :: ys)
          end
      end
  end.

(** ** The pandas operations the program uses *)

Module Pandas.

(** Dereferences a frame; a dangling reference does not occur. *)
Definition read (df : ref) : M DataFrame := fun w =>
  match frames w !! df with
  | Some d => Ok (d, w)
  | None => Raise (KeyError "dangling frame")
  end.

Definition write (df : ref) (d : DataFrame) : M unit := fun w =>
  Ok (tt, World (<[df := d]> (frames w)) (files w)).

Definition alloc (d : DataFrame) : M ref := fun w =>
  Ok (List.length (frames w), World (frames w ++ [d]) (files w)).

(** [r[k]] on a row. *)
Definition row_at (k : string) (r : row) : result cell :=
  match row_get k r with
  | Some v => Ok v
  | None => Raise (KeyError k)
  end.

(** Assignment of one cell: an existing column keeps its place, a new one
    goes last. *)
Fixpoint row_set (k : string) (v : cell) (r : row) : row :=
  match r with
  | [] => [(k, v)]
  | (k', v') :: r' =>
      if String.eqb k k' then (k, v) :: r' else (k', v') :: row_set k v r'
  end.

Definition row_drop (k : string) (r : row) : row :=
  List.filter (fun kv => negb (String.eqb k kv.1)) r.

(** [len(df)] *)
Definition len (df : ref) : M Z :=
  d ← read df; mret (Z.of_nat (List.length d)).

(** [df[k]]: the cells of a column; [KeyError] when a row lacks it. *)
Definition column (df : ref) (k : string) : M (list cell) :=
  d ← read df; lift (map_result (fun ir => row_at k ir.2) d).

(** [df[keys]]: the rows restricted to [keys], in that order. *)
Definition select (df : ref) (keys : list string) : M (list row) :=
  d ← read df;
  lift (map_result
          (fun ir : Z * row =>
             map_result (fun k => match row_at k ir.2 with
                                  | Ok v => Ok (k, v)
                                  | Raise e => Raise e
                                  end) keys) d).

(** [df.apply(f, axis=1)] *)
Definition apply_rows {A} (df : ref) (f : row -> result A) : M (list A) :=
  d ← read df; lift (map_result (fun ir => f ir.2) d).

Fixpoint set_cells (k : string) (vals : list cell) (d : DataFrame) : DataFrame :=
  match d, vals with
  | (i, r) :: d', v :: vals' => (i, row_set k v r) :: set_cells k vals' d'
  | _, _ => d
  end.

(** [df[k] = vals]: in place, seen through every alias of [df]. *)
Definition set_column (df : ref) (k : string) (vals : list cell) : M unit :=
  d ← read df; write df (set_cells k vals d).

(** [df[k] = v] with one value for all rows. *)
Definition set_column_const (df : ref) (k : string) (v : cell) : M unit :=
  d ← read df; write df (List.map (fun ir : Z * row => (ir.1, row_set k v ir.2)) d).

(** Equality of two cells as keys. *)
Definition cell_eqb (a b : cell) : bool :=
  match a, b with
  | Str x, Str y => String.eqb x y
  | Null, Null => true
  | Int x, Int y => Z.eqb x y
  | Bool x, Bool y => Bool.eqb x y
  | Real x, Real y => Qeq_bool x y
  | _, _ => false
  end.

(** Keeps the first row for each value of column [k]; [seen] holds the
    values met so far. *)
Fixpoint keep_first (k : string) (seen : list cell) (d : DataFrame) : DataFrame :=
  match d with
  | [] => []
  | (i, r) :: d' =>
      let v := dict_get k r in
      if List.existsb (cell_eqb v) seen then keep_first k seen d'
      else (i, r) :: keep_first k (v :: seen) d'
  end.

(** [df.drop_duplicates(subset=k, keep="first")]: a new frame. *)
Definition drop_duplicates (df : ref) (k : string) : M ref :=
  _ ← column df k; d ← read df; alloc (keep_first k [] d).

(** [df.drop(columns=k)]: a new frame. *)
Definition drop_columns (df : ref) (k : string) : M ref :=
  _ ← column df k; d ← read df;
  alloc (List.map (fun ir : Z * row => (ir.1, row_drop k ir.2)) d).

(** Order of the cells of a column of strings; NaN goes last. *)
Definition cell_compare (a b : cell) : comparison :=
  match a, b with
  | Str x, Str y => String.compare x y
  | Str _, _ => Lt
  | _, Str _ => Gt
  | _, _ => Eq
  end.

Definition rows_leb (k1 k2 : string) (a b : Z * row) : bool :=
  match cell_compare (dict_get k1 a.2) (dict_get k1 b.2) with
  | Lt => true
  | Gt => false
  | Eq =>
      match cell_compare (dict_get k2 a.2) (dict_get k2 b.2) with
      | Gt => false
      | _ => true
      end
  end.

Definition sortable (v : cell) : result unit :=
  match v with
  | Str _ | Null => Ok tt
  | _ => Raise TypeError
  end.

(** [df.sort_values([k1, k2])]: a new frame, sorted stably by the two
    columns; columns of strings only (other cells are reported as
    [TypeError]). *)
Definition sort_values (df : ref) (k1 k2 : string) : M ref :=
  c1 ← column df k1; c2 ← column df k2;
  _ ← lift (map_result sortable (c1 ++ c2));
  d ← read df; alloc (insertion_sort (rows_leb k1 k2) d).

(** [df.index.tolist()] *)
Definition index (df : ref) : M (list Z) :=
  d ← read df; mret (List.map fst d).

(** [df.drop(index=list(labels))]: a new frame. *)
Definition drop_index (df : ref) (labels : gset Z) : M ref :=
  d ← read df;
  alloc (List.filter (fun ir : Z * row => negb (bool_decide (ir.1 ∈ labels))) d).

(** [df.copy()] *)
Definition copy (df : ref) : M ref :=
  d ← read df; alloc d.

(** [s.fillna("")] on one cell. *)
Definition fillna (v : cell) : cell :=
  match v with
  | Null => Str EmptyString
  | _ => v
  end.

(** [series.astype(int)] on one cell; strings are not parsed. *)
Definition astype_int (v : cell) : result Z :=
  match v with
  | Int z => Ok z
  | Bool b => Ok (if b then 1 else 0)
  | Real q => Ok (Z.quot (Qnum q) (Z.pos (Qden q)))
  | _ => Raise ValueError
  end.

End Pandas.

(** ** Duplicate Detector *)

(** The string held by a cell of a column of strings. *)
Definition cell_str (v : cell) : string :=
  match v with
  | Str s => s
  | _ => EmptyString
  end.

(** [any([isinstance(r[k], str) and r[k].strip() for k in keys])] *)
Definition has_external_id (r : row) : bool :=
  List.existsb (fun k => nonblank_str (dict_get k r)) id_keys.

(** [next((r[k] for k in keys if isinstance(r[k], str) and r[k].strip()), "")] *)
Fixpoint first_nonblank (keys : list string) (r : row) : cell :=
  match keys with
  | [] => Str EmptyString
  | k :: keys' =>
      if nonblank_str (dict_get k r) then dict_get k r else first_nonblank keys' r
  end.

(** [re.sub(r"[^a-z0-9 ]", "", norm_text(s))] *)
Definition title_norm (s : cell) : string :=
  PyStr.keep_lower_alnum_space (norm_text s).

(** [buckets.setdefault(key, []).append(item)]; the buckets stay in the
    order of their first item. *)
Fixpoint bucket_add (key : string) (item : Z * string)
    (buckets : list (string * list (Z * string))) : list (string * list (Z * string)) :=
  match buckets with
  | [] => [(key, [item])]
  | (k, items) :: buckets' =>
      if String.eqb k key then (k, (items ++ [item])%list) :: buckets'
      else (k, items) :: bucket_add key item buckets'
  end.

Definition make_buckets (items : list (Z * string)) : list (string * list (Z * string)) :=
  List.fold_left (fun b iv => bucket_add (PyStr.take 20 iv.2) iv b) items [].

Section Dedup.
(** [fuzz.token_set_ratio] *)
Variable token_set_ratio : string -> string -> Q.
Variable fuzzy_threshold : Z.

(** [fuzz.token_set_ratio(v_i, v_j) >= fuzzy_threshold] *)
Definition similar (v_i v_j : string) : bool :=
  Qle_bool (inject_Z fuzzy_threshold) (token_set_ratio v_i v_j).

(** The loop over [j] in [range(i+1, len(items))]: [rest] is
    [items[i+1:]]. *)
Fixpoint mark_later (v_i : string) (rest : list (Z * string)) (to_drop : gset Z) : gset Z :=
  match rest with
  | [] => to_drop
  | (idx_j, v_j) :: rest' =>
      if bool_decide (idx_j ∈ to_drop) then mark_later v_i rest' to_drop
      else if similar v_i v_j then mark_later v_i rest' ({[idx_j]} ∪ to_drop)
      else mark_later v_i rest' to_drop
  end.

(** The loop over [i] in [range(len(items))]. *)
Fixpoint scan_bucket (items : list (Z * string)) (to_drop : gset Z) : gset Z :=
  match items with
  | [] => to_drop
  | (idx_i, v_i) :: rest =>
      if bool_decide (idx_i ∈ to_drop) then scan_bucket rest to_drop
      else scan_bucket rest (mark_later v_i rest to_drop)
  end.

(** The loop over [buckets.items()]. *)
Definition scan_buckets (buckets : list (string * list (Z * string))) : gset Z :=
  List.fold_left (fun to_drop b => scan_bucket b.2 to_drop) buckets ∅.

(** The exact-key pass, run when some row has an external identifier:
    the key column is assigned on the frame it is given. *)
Definition exact_key_pass (df : ref) : M ref :=
  idkey ← Pandas.apply_rows df (fun r => Ok (first_nonblank id_keys r));
  _ ← Pandas.set_column df "__idkey" idkey;
  d ← Pandas.drop_duplicates df "__idkey";
  Pandas.drop_columns d "__idkey".

(** The fuzzy-title pass: the normalised titles are assigned on the frame
    it is given; the sorted frame, the frame without the marked rows and
    the frame without the scratch column are new frames. *)
Definition fuzzy_title_pass (df : ref) : M ref :=
  titles ← Pandas.column df "title";
  _ ← Pandas.set_column df "__title_norm"
        (List.map (fun s => Str (title_norm s)) titles);
  df ← Pandas.sort_values df "__title_norm" "source";
  idx ← Pandas.index df;
  tn ← Pandas.column df "__title_norm";
  let buckets := make_buckets (List.combine idx (List.map cell_str tn)) in
  let to_drop := scan_buckets buckets in
  d ← Pandas.drop_index df to_drop;
  Pandas.drop_columns d "__title_norm".

Definition deduplicate (df : ref) : M (ref * Z) :=
  before ← Pandas.len df;
  sub ← Pandas.select df id_keys;
  let mask_nonempty := List.map has_external_id sub in
  df ← (if List.existsb id mask_nonempty then exact_key_pass df else mret df);
  dedup_df ← fuzzy_title_pass df;
  after ← Pandas.len dedup_df;
  mret (dedup_df, before - after).
End Dedup.

(** Runs a computation on the store holding just [d] (at reference 0) and
    returns its value. *)
Definition run_on {A} (d : DataFrame) (m : ref -> M A) : result (A * world) :=
  m O (World [d] ∅).

(** ** Relevance Classifier *)

Definition keyword_match (text : cell) (keywords : list string) (logic : string) : bool :=
  match keywords with
  | [] => false
  | _ =>
      let t := norm_text text in
      let hits := List.map (fun kw => PyStr.contains (PyStr.lower kw) t) keywords in
      if String.eqb logic "all" then List.forallb id hits else List.existsb id hits
  end.

(** Truth value of a cell of a boolean column. *)
Definition cell_bool (v : cell) : bool :=
  match v with
  | Bool b => b
  | _ => false
  end.

(** Element-wise [a | b] of two boolean series. *)
Fixpoint series_or (a b : list bool) : list bool :=
  match a, b with
  | x :: a', y :: b' => (x || y) :: series_or a' b'
  | _, _ => []
  end.

(** Element-wise [a & ~b] of two boolean columns. *)
Fixpoint series_and_not (a b : list cell) : list cell :=
  match a, b with
  | x :: a', y :: b' => Bool (cell_bool x && negb (cell_bool y)) :: series_and_not a' b'
  | _, _ => []
  end.

Definition is_nil {A} (l : list A) : bool :=
  match l with [] => true | _ => false end.

Definition screen_simple (df : ref) (include_kw exclude_kw : list string)
    (inc_logic exc_logic : string) : M ref :=
  title ← Pandas.column df "title";
  let inc_title :=
    List.map (fun t => keyword_match (Pandas.fillna t) include_kw inc_logic) title in
  abstract ← Pandas.column df "abstract";
  let inc_abs :=
    List.map (fun a => keyword_match (Pandas.fillna a) include_kw inc_logic) abstract in
  n ← Pandas.len df;
  let inc :=
    if is_nil include_kw then List.repeat true (Z.to_nat n)
    else series_or inc_title inc_abs in
  exc_title ←
    (if is_nil exclude_kw then mret (List.repeat false (Z.to_nat n))
     else title ← Pandas.column df "title";
          mret (List.map (fun t => keyword_match (Pandas.fillna t) exclude_kw exc_logic) title));
  exc_abs ←
    (if is_nil exclude_kw then mret (List.repeat false (Z.to_nat n))
     else abstract ← Pandas.column df "abstract";
          mret (List.map (fun a => keyword_match (Pandas.fillna a) exclude_kw exc_logic) abstract));
  let exc := series_or exc_title exc_abs in
  out ← Pandas.copy df;
  _ ← Pandas.set_column_const out "screen_mode" (Str "simple");
  _ ← Pandas.set_column out "screen_include_hit" (List.map Bool inc);
  _ ← Pandas.set_column out "screen_exclude_hit" (List.map Bool exc);
  _ ← Pandas.set_column out "screen_score"
        (List.map (fun b : bool => Real (if b then 1 else 0)) inc);
  include_hit ← Pandas.column out "screen_include_hit";
  exclude_hit ← Pandas.column out "screen_exclude_hit";
  _ ← Pandas.set_column out "screen_relevant" (series_and_not include_hit exclude_hit);
  mret out.

(** [os.path.exists(path)] *)
Definition path_exists (path : string) : M bool := fun w =>
  Ok (bool_decide (is_Some (files w !! path)), w).

(** [joblib.load(path)] *)
Definition joblib_load (path : string) : M Pipeline := fun w =>
  match files w !! path with
  | Some (Pickled pipe) => Ok (pipe, w)
  | _ => Raise UnpicklingError
  end.

(** [pipe.predict_proba(X)[:,1]]: the probability of the positive class
    for each text of the batch; the classifier rejects an empty batch
    with a [ValueError]. *)
Definition predict_proba (pipe : Pipeline) (X : list string) : result (list Q) :=
  match X with
  | [] => Raise ValueError
  | _ => Ok (List.map (predict_proba_pos pipe) X)
  end.

(** [title + " " + abstract] on one row and [astype(str)]. *)
Definition text_concat (ta : cell * cell) : result string :=
  match ta with
  | (Str t, Str a) => Ok (t ++ " " ++ a)
  | _ => Raise TypeError
  end.

Definition screen_ml (df : ref) (model_path : string) (threshold : Q) : M ref :=
  found ← path_exists model_path;
  if negb found
  then raise (RuntimeError ("Modelo n" ++ PyStr.chr 227 ++ "o encontrado: "
                             ++ model_path ++ ". Rode 'train-ml'."))
  else
    pipe ← joblib_load model_path;
    title ← Pandas.column df "title";
    abstract ← Pandas.column df "abstract";
    X ← lift (map_result text_concat
                (List.combine (List.map Pandas.fillna title)
                              (List.map Pandas.fillna abstract)));
    probs ← lift (predict_proba pipe X);
    out ← Pandas.copy df;
    _ ← Pandas.set_column_const out "screen_mode" (Str "ml");
    _ ← Pandas.set_column out "screen_score" (List.map Real probs);
    _ ← Pandas.set_column out "screen_relevant"
          (List.map (fun p => Bool (Qle_bool threshold p)) probs);
    relevant ← Pandas.column out "screen_relevant";
    _ ← Pandas.set_column out "screen_include_hit" relevant;
    _ ← Pandas.set_column_const out "screen_exclude_hit" (Bool false);
    mret out.

(** ** Library model: the rounding of float arithmetic

    A float is the rational it denotes, and an operation returns its
    exact result rounded to the nearest float with a significand of 53
    bits, a tie going to the even significand.  The exponent is not
    bounded: the model agrees with the doubles on results in the range of
    the normal doubles. *)

Module Float64.

(** [2^e * n / d] as a fraction of two integers, for [e] of either sign. *)
Definition scale2 (e : Z) (n d : Z) : Z * Z :=
  if 0 <=? e then (n * 2 ^ e, d) else (n, d * 2 ^ (- e)).

(** The integer nearest to [n / d], a tie going to the even one. *)
Definition round_half_even (n d : Z) : Z :=
  let q := n / d in
  let r := n mod d in
  match 2 * r ?= d with
  | Lt => q
  | Gt => q + 1
  | Eq => if Z.even q then q else q + 1
  end.

(** The float nearest to [n / d], for positive [n] and [d]. *)
Definition round_pos (n d : Z) : Q :=
  let k := Z.log2 n - Z.log2 d in
  let '(a, b) := scale2 (- k) n d in
  let e := (if a <? b then k - 1 else k) - 52 in
  let '(a', b') := scale2 (- e) n d in
  let m := round_half_even a' b' in
  if 0 <=? e then inject_Z (m * 2 ^ e)
  else Qred (Qmake m (Z.to_pos (2 ^ (- e)))).

Definition round (q : Q) : Q :=
  match Qnum q with
  | Z0 => 0%Q
  | Zpos n => round_pos (Zpos n) (Zpos (Qden q))
  | Zneg n => Qopp (round_pos (Zpos n) (Zpos (Qden q)))
  end.

End Float64.

(** ** Metrics Evaluator *)

Record metrics : Type := {
  m_tp : Z; m_fp : Z; m_fn : Z; m_tn : Z;
  m_precision : Q; m_recall : Q; m_f1 : Q;
  m_nnr : option Q
}.

Inductive report : Type :=
  | Note (note : string)
  | Metrics (m : metrics).

(** The message of the report of an empty join. *)
Definition no_overlap_note : string :=
  "Sem interse" ++ PyStr.chr 231 ++ PyStr.chr 227 ++ "o entre resultados e labels.".

(** [int(((y_true == a) & (y_pred == b)).sum())] *)
Definition count_pairs (a b : Z) (y_true y_pred : list Z) : Z :=
  Z.of_nat (List.length
    (List.filter (fun tp : Z * Z => (tp.1 =? a) && (tp.2 =? b))
       (List.combine y_true y_pred))).

Section Metrics.
(** [series.astype(int)] on one cell. *)
Variable astype_int : cell -> result Z.
(** [screen_df.merge(labels, on="record_id", how="inner")]: the joined
    rows, or the error pandas raises (a [KeyError] on a missing key
    column, a [ValueError] on key columns of strings and of numbers). *)
Variable merge : DataFrame -> list row -> result (list row).
(** The rounding of the float arithmetic: a float is the rational it
    denotes, and an operation returns its exact result rounded to the
    nearest float.  The values of the program stay in the range of the
    normal doubles (the counts are far below 2^1022), so no infinity and
    no NaN arises. *)
Variable rnd : Q -> Q.

(** [a / b], on two integers or two floats. *)
Definition truediv (a b : Q) : result Q :=
  if Qeq_bool b 0 then Raise ZeroDivisionError else Ok (rnd (a / b)%Q).

(** [a * b] and [a + b] on floats. *)
Definition fmul (a b : Q) : Q := rnd (a * b)%Q.
Definition fadd (a b : Q) : Q := rnd (a + b)%Q.

Definition compute_metrics (screen_df labels_df : ref) : M report :=
  labels ← Pandas.select labels_df ["record_id"; "label"];
  left ← Pandas.read screen_df;
  m ← lift (merge left labels);
  if is_nil m then mret (Note no_overlap_note) else
  y_true ← lift (map_result (fun r => match Pandas.row_at "label" r with
                                      | Ok v => astype_int v
                                      | Raise e => Raise e
                                      end) m);
  y_pred ← lift (map_result (fun r => match Pandas.row_at "screen_relevant" r with
                                      | Ok v => astype_int v
                                      | Raise e => Raise e
                                      end) m);
  let tp := count_pairs 1 1 y_true y_pred in
  let fp := count_pairs 0 1 y_true y_pred in
  let fn := count_pairs 1 0 y_true y_pred in
  let tn := count_pairs 0 0 y_true y_pred in
  precision ← lift (if 0 <? tp + fp
                    then truediv (inject_Z tp) (inject_Z (tp + fp)) else Ok 0%Q);
  recall ← lift (if 0 <? tp + fn
                 then truediv (inject_Z tp) (inject_Z (tp + fn)) else Ok 0%Q);
  f1 ← lift (if Qlt_le_dec 0 (fadd precision recall)
             then truediv (fmul (fmul 2 precision) recall) (fadd precision recall)
             else Ok 0%Q);
  nnr ← lift (if Qlt_le_dec 0 precision
              then match truediv 1 precision with
                   | Ok q => Ok (Some q)
                   | Raise e => Raise e
                   end
              else Ok None);
  mret (Metrics {| m_tp := tp; m_fp := fp; m_fn := fn; m_tn := tn;
                   m_precision := precision; m_recall := recall; m_f1 := f1;
                   m_nnr := nnr |}).
End Metrics.

(** ** Library model: [DataFrame.merge] on one key column

    Covers key columns of strings and key columns of numbers. *)

(** One row of [screen_df.merge(labels, on="record_id", how="inner")]: a
    column [label] already in the left row is renamed, as the label
    column then is. *)
Definition merge_row (l : row) (label : cell) : row :=
  match row_get "label" l with
  | None => (l ++ [("label", label)])%list
  | Some _ =>
      (List.map (fun kv : string * cell =>
                   if String.eqb kv.1 "label" then ("label_x", kv.2) else kv) l
         ++ [("label_y", label)])%list
  end.

Definition is_str (v : cell) : bool :=
  match v with Str _ => true | _ => false end.

Definition is_number (v : cell) : bool :=
  match v with Int _ | Real _ => true | _ => false end.

(** A key column of strings against a key column of numbers, neither
    empty: pandas refuses the merge. *)
Definition keys_mismatch (l r : list cell) : bool :=
  negb (is_nil l) && negb (is_nil r)
  && (List.forallb is_str l && List.forallb is_number r
      || List.forallb is_number l && List.forallb is_str r).

Definition merge_inner (left : DataFrame) (labels : list row) : result (list row) :=
  match map_result (fun ir : Z * row => Pandas.row_at "record_id" ir.2) left with
  | Raise e => Raise e
  | Ok keys =>
      if keys_mismatch keys (List.map (dict_get "record_id") labels)
      then Raise ValueError
      else
        Ok (List.concat
              (List.map (fun ir : Z * row =>
                 List.map (fun lab => merge_row ir.2 (dict_get "label" lab))
                   (List.filter (fun lab => Pandas.cell_eqb (dict_get "record_id" ir.2)
                                              (dict_get "record_id" lab)) labels))
                 left))
  end.

(** ** Closed forms of the programs, used in the proofs *)

(** Every row of the frame has column [k]. *)
Definition has_column (k : string) (d : DataFrame) : bool :=
  List.forallb (fun ir : Z * row => bool_decide (is_Some (row_get k ir.2))) d.

(** Column [k] holds strings or NaN only. *)
Definition string_column (k : string) (d : DataFrame) : bool :=
  List.forallb (fun ir : Z * row =>
                  match dict_get k ir.2 with Str _ | Null => true | _ => false end) d.

Definition include_hit_of (include_kw : list string) (inc_logic : string) (r : row) : bool :=
  if is_nil include_kw then true
  else keyword_match (Pandas.fillna (dict_get "title" r)) include_kw inc_logic
       || keyword_match (Pandas.fillna (dict_get "abstract" r)) include_kw inc_logic.

Definition exclude_hit_of (exclude_kw : list string) (exc_logic : string) (r : row) : bool :=
  if is_nil exclude_kw then false
  else keyword_match (Pandas.fillna (dict_get "title" r)) exclude_kw exc_logic
       || keyword_match (Pandas.fillna (dict_get "abstract" r)) exclude_kw exc_logic.

(** The row [screen_simple] writes for the input row [r]. *)
Definition screen_simple_row (include_kw exclude_kw : list string)
    (inc_logic exc_logic : string) (r : row) : row :=
  let ih := include_hit_of include_kw inc_logic r in
  let eh := exclude_hit_of exclude_kw exc_logic r in
  Pandas.row_set "screen_relevant" (Bool (ih && negb eh))
    (Pandas.row_set "screen_score" (Real (if ih then 1 else 0))
       (Pandas.row_set "screen_exclude_hit" (Bool eh)
          (Pandas.row_set "screen_include_hit" (Bool ih)
             (Pandas.row_set "screen_mode" (Str "simple") r)))).

(** The text [screen_ml] hands to the classifier for the row [r]. *)
Definition ml_text (r : row) : string :=
  cell_str (Pandas.fillna (dict_get "title" r)) ++ " "
  ++ cell_str (Pandas.fillna (dict_get "abstract" r)).

(** The row [screen_ml] writes for the input row [r]. *)
Definition screen_ml_row (pipe : Pipeline) (threshold : Q) (r : row) : row :=
  let p := predict_proba_pos pipe (ml_text r) in
  let rel := Qle_bool threshold p in
  Pandas.row_set "screen_exclude_hit" (Bool false)
    (Pandas.row_set "screen_include_hit" (Bool rel)
       (Pandas.row_set "screen_relevant" (Bool rel)
          (Pandas.row_set "screen_score" (Real p)
             (Pandas.row_set "screen_mode" (Str "ml") r)))).

Definition map_rows (f : row -> row) (d : DataFrame) : DataFrame :=
  List.map (fun ir : Z * row => (ir.1, f ir.2)) d.

(** The frame after [df["__idkey"] = ...]. *)
Definition with_idkey (d : DataFrame) : DataFrame :=
  List.map (fun ir : Z * row =>
              (ir.1, Pandas.row_set "__idkey" (first_nonblank id_keys ir.2) ir.2)) d.

(** The rows the exact-key pass leaves. *)
Definition exact_rows (d : DataFrame) : DataFrame :=
  if List.existsb (fun ir : Z * row => has_external_id ir.2) d
  then map_rows (Pandas.row_drop "__idkey") (Pandas.keep_first "__idkey" [] (with_idkey d))
  else d.

(** The frame after [df["__title_norm"] = ...]. *)
Definition with_title_norm (d : DataFrame) : DataFrame :=
  List.map (fun ir : Z * row =>
              (ir.1, Pandas.row_set "__title_norm"
                       (Str (title_norm (dict_get "title" ir.2))) ir.2)) d.

(** The sorted frame of the fuzzy-title pass. *)
Definition fuzzy_sorted (d : DataFrame) : DataFrame :=
  insertion_sort (Pandas.rows_leb "__title_norm" "source") (with_title_norm d).

(** The pairs of index label and normalised title that are bucketed. *)
Definition bucket_items (sd : DataFrame) : list (Z * string) :=
  List.map (fun ir : Z * row => (ir.1, cell_str (dict_get "__title_norm" ir.2))) sd.

(** The labels the fuzzy-title pass marks on the frame [d]. *)
Definition fuzzy_drop (token_set_ratio : string -> string -> Q) (fuzzy_threshold : Z)
    (d : DataFrame) : gset Z :=
  scan_buckets token_set_ratio fuzzy_threshold
    (make_buckets (bucket_items (fuzzy_sorted d))).

(** The rows the fuzzy-title pass returns for the frame [d]. *)
Definition fuzzy_rows (token_set_ratio : string -> string -> Q) (fuzzy_threshold : Z)
    (d : DataFrame) : DataFrame :=
  map_rows (Pandas.row_drop "__title_norm")
    (List.filter (fun ir : Z * row =>
                    negb (bool_decide (ir.1 ∈ fuzzy_drop token_set_ratio fuzzy_threshold d)))
       (fuzzy_sorted d)).

(** The rows [deduplicate] returns for the frame [d]. *)
Definition dedup_rows (token_set_ratio : string -> string -> Q) (fuzzy_threshold : Z)
    (d : DataFrame) : DataFrame :=
  fuzzy_rows token_set_ratio fuzzy_threshold (exact_rows d).

(** The frame the caller passed, as [deduplicate] leaves it. *)
Definition caller_after (d : DataFrame) : DataFrame :=
  if List.existsb (fun ir : Z * row => has_external_id ir.2) d
  then with_idkey d else with_title_norm d.

(** The frame has the columns [deduplicate] reads, and its sources are
    strings or missing. *)
Definition dedup_ready (d : DataFrame) : bool :=
  List.forallb (fun k => has_column k d) id_keys
  && has_column "title" d && has_column "source" d && string_column "source" d.

(** ** Definitions used in the statements and proofs *)

(** The error [screen_ml] raises when no file is at the model path. *)
Definition model_missing (model_path : string) : exn :=
  RuntimeError ("Modelo n" ++ PyStr.chr 227 ++ "o encontrado: "
                ++ model_path ++ ". Rode 'train-ml'.")%string.

(** [m] never raises the exception [bad]. *)
Definition avoids {A} (bad : exn) (m : M A) : Prop :=
  forall w, m w <> Raise bad.

(** The exceptions that no pandas operation of the model raises. *)
Definition not_from_pandas (bad : exn) : Prop :=
  (forall k, bad <> KeyError k) /\ bad <> TypeError.

(** The frame of Scenario C, alone in the store, with no file on disk. *)
Definition scenario_C_frame : DataFrame :=
  [(0, [("title", Str "A review of cancer treatments"); ("abstract", Null)])].

(** The store that holds the frame of Scenario C and no file. *)
Definition scenario_C_world : world := World [scenario_C_frame] ∅.

(** A trained model that gives every text the probability 3/4. *)
Definition constant_pipeline : Pipeline := {| predict_proba_pos := fun _ => 0.75%Q |}.

(** The same store with that model saved on disk. *)
Definition model_world : world :=
  World [scenario_C_frame] {[ "results/model_ml.joblib"%string := Pickled constant_pipeline ]}.

(** The report computed from the two columns of the joined rows, with
    the rounding [rnd] of the float operations. *)
Definition metrics_of (rnd : Q -> Q) (y_true y_pred : list Z) : metrics :=
  let tp := count_pairs 1 1 y_true y_pred in
  let fp := count_pairs 0 1 y_true y_pred in
  let fn := count_pairs 1 0 y_true y_pred in
  let tn := count_pairs 0 0 y_true y_pred in
  let precision := if 0 <? tp + fp then rnd (inject_Z tp / inject_Z (tp + fp))%Q else 0%Q in
  let recall := if 0 <? tp + fn then rnd (inject_Z tp / inject_Z (tp + fn))%Q else 0%Q in
  let f1 := if Qlt_le_dec 0 (fadd rnd precision recall)
            then rnd (fmul rnd (fmul rnd 2 precision) recall / fadd rnd precision recall)%Q
            else 0%Q in
  let nnr := if Qlt_le_dec 0 precision then Some (rnd (1 / precision)%Q) else None in
  {| m_tp := tp; m_fp := fp; m_fn := fn; m_tn := tn;
     m_precision := precision; m_recall := recall; m_f1 := f1; m_nnr := nnr |}.

(** The casts of the two columns of the joined rows. *)
Definition cast_column (astype_int : cell -> result Z) (k : string) (m : list row) :
    result (list Z) :=
  map_result (fun r => match Pandas.row_at k r with
                       | Ok v => astype_int v
                       | Raise e => Raise e
                       end) m.

(** The report of an empty join. *)
Definition no_overlap : report := Note no_overlap_note.

(** What the claim says of the statistics [r] of the joined columns: each
    quotient is the float quotient, that is the exact quotient rounded by
    [rnd], and each default is taken exactly when its guard fails. *)
Definition guarded_statistics (rnd : Q -> Q) (y_true y_pred : list Z) (r : metrics) : Prop :=
  m_tp r = count_pairs 1 1 y_true y_pred
  /\ m_fp r = count_pairs 0 1 y_true y_pred
  /\ m_fn r = count_pairs 1 0 y_true y_pred
  /\ m_tn r = count_pairs 0 0 y_true y_pred
  /\ (m_tp r + m_fp r = 0 -> m_precision r = 0%Q)
  /\ (0 < m_tp r + m_fp r ->
        m_precision r = rnd (inject_Z (m_tp r) / inject_Z (m_tp r + m_fp r))%Q)
  /\ (m_tp r + m_fn r = 0 -> m_recall r = 0%Q)
  /\ (0 < m_tp r + m_fn r ->
        m_recall r = rnd (inject_Z (m_tp r) / inject_Z (m_tp r + m_fn r))%Q)
  /\ (~ (0 < fadd rnd (m_precision r) (m_recall r))%Q -> m_f1 r = 0%Q)
  /\ ((0 < fadd rnd (m_precision r) (m_recall r))%Q ->
        m_f1 r = rnd (fmul rnd (fmul rnd 2 (m_precision r)) (m_recall r)
                      / fadd rnd (m_precision r) (m_recall r))%Q)
  /\ ((0 < m_precision r)%Q -> m_nnr r = Some (rnd (1 / m_precision r)%Q))
  /\ (~ (0 < m_precision r)%Q -> m_nnr r = None).

(** What round-to-nearest gives on the values of the evaluator: it keeps
    the order, it returns 0 and 1 unchanged, the double of a float up to
    1 is a float, and the quotient of a positive count by a count that
    is not smaller does not round to zero. *)
Record rounding_laws (rnd : Q -> Q) : Prop := {
  rnd_monotone : forall x y : Q, (x <= y)%Q -> (rnd x <= rnd y)%Q;
  rnd_zero : (rnd 0 == 0)%Q;
  rnd_one : (rnd 1 == 1)%Q;
  rnd_twice : forall x : Q,
    (0 <= rnd x)%Q -> (rnd x <= 1)%Q -> (rnd (2 * rnd x) == 2 * rnd x)%Q;
  rnd_quotient_positive : forall a b : Z,
    0 < a -> a <= b -> (0 < rnd (inject_Z a / inject_Z b))%Q
}.

(** The arithmetic on values that need no rounding. *)
Definition no_rounding (q : Q) : Q := q.

(** Scenario D: labels 1,1,0,0 against decisions 1,0,0,1. *)
Definition scenario_D_world : world :=
  World
    [ [(0, [("record_id", Str "a"); ("screen_relevant", Bool true)]);
       (1, [("record_id", Str "b"); ("screen_relevant", Bool false)]);
       (2, [("record_id", Str "c"); ("screen_relevant", Bool false)]);
       (3, [("record_id", Str "d"); ("screen_relevant", Bool true)])];
      [(0, [("record_id", Str "a"); ("label", Int 1)]);
       (1, [("record_id", Str "b"); ("label", Int 1)]);
       (2, [("record_id", Str "c"); ("label", Int 0)]);
       (3, [("record_id", Str "d"); ("label", Int 0)])] ] ∅.

(** One record decided relevant and labelled 0: no true positive. *)
Definition false_positive_world : world :=
  World
    [ [(0, [("record_id", Str "a"); ("screen_relevant", Bool true)])];
      [(0, [("record_id", Str "a"); ("label", Int 0)])] ] ∅.

(** The join of the two frames of Scenario D. *)
Definition scenario_D_joined : list row :=
  [ [("record_id", Str "a"); ("screen_relevant", Bool true); ("label", Int 1)];
    [("record_id", Str "b"); ("screen_relevant", Bool false); ("label", Int 1)];
    [("record_id", Str "c"); ("screen_relevant", Bool false); ("label", Int 0)];
    [("record_id", Str "d"); ("screen_relevant", Bool true); ("label", Int 0)] ].

(** Field [k] of [r] holds no usable identifier: it is absent, not a
    string, or blank. *)
Definition blank_id (k : string) (r : row) : Prop :=
  forall v, dict_get k r = Str v -> PyStr.strip v = EmptyString.

(** The words of a title, case folded: two titles with the same words
    differ only in whitespace and letter case. *)
Definition title_words (t : string) : list string := PyStr.split (PyStr.lower t).

(** Records for the resolver: the same DOI up to surrounding blanks, and
    the same title up to case and whitespace. *)
Definition doi_record_1 : row :=
  [("doi", Str " 10.1/x "); ("pmid", Str ""); ("title", Str "A")].

Definition doi_record_2 : row :=
  [("pmid", Str "999"); ("title", Str "Something else"); ("doi", Str "10.1/x")].

Definition title_record_1 : row :=
  [("doi", Str ""); ("title", Str " Deep  Learning ")].

Definition title_record_2 : row :=
  [("title", Str "deep learning"); ("eid", Str "  ")].

(** The order of two rows by normalised title, then source. *)
Definition sort_key_leb (a b : Z * row) : bool :=
  match String.compare (title_norm (dict_get "title" a.2))
                       (title_norm (dict_get "title" b.2)) with
  | Lt => true
  | Gt => false
  | Eq =>
      match Pandas.cell_compare (dict_get "source" a.2) (dict_get "source" b.2) with
      | Gt => false
      | _ => true
      end
  end.

(** The row with its normalised title assigned. *)
Definition set_title_norm (ir : Z * row) : Z * row :=
  (ir.1, Pandas.row_set "__title_norm" (Str (title_norm (dict_get "title" ir.2))) ir.2).

Definition bib_row (source title doi : string) : row :=
  [("source", Str source); ("title", Str title); ("doi", Str doi);
   ("pmid", Str EmptyString); ("eid", Str EmptyString); ("wos_uid", Str EmptyString)].

(** One record with a DOI and two records, with unrelated titles, that
    have no external identifier at all. *)
Definition one_doi_two_bare : DataFrame :=
  [(0, bib_row "pubmed" "Alpha study" "10.1/x");
   (1, bib_row "scopus" "Beta trial" EmptyString);
   (2, bib_row "wos" "Gamma review" EmptyString)].

(** Two records without external identifier. *)
Definition two_bare : DataFrame :=
  [(0, bib_row "scopus" "Beta trial" EmptyString);
   (1, bib_row "wos" "Gamma review" EmptyString)].

(** Dropping a scratch column. *)
Definition clean (k : string) (ir : Z * row) : Z * row := (ir.1, Pandas.row_drop k ir.2).

(** The row with its key assigned. *)
Definition set_idkey (ir : Z * row) : Z * row :=
  (ir.1, Pandas.row_set "__idkey" (first_nonblank id_keys ir.2) ir.2).

(** The key of a record in the exact-key pass, as a string. *)
Definition idkey_str (ir : Z * row) : string := cell_str (first_nonblank id_keys ir.2).

(** The bucketed pair of a row. *)
Definition item_of (ir : Z * row) : Z * string :=
  (ir.1, title_norm (dict_get "title" ir.2)).

(** [f] changes no column the detector reads. *)
Definition keeps_read_columns (f : Z * row -> Z * row) : Prop :=
  forall ir,
    (f ir).1 = ir.1
    /\ forall k, k <> "__idkey"%string -> k <> "__title_norm"%string ->
         row_get k (f ir).2 = row_get k ir.2.

(** The rows kept by the exact-key pass, by key; [seen] holds the keys met
    so far. *)
Fixpoint keep_first_by (seen : list string) (d : DataFrame) : DataFrame :=
  match d with
  | [] => []
  | ir :: d' =>
      if List.existsb (String.eqb (idkey_str ir)) seen then keep_first_by seen d'
      else ir :: keep_first_by (idkey_str ir :: seen) d'
  end.

(** The labels marked on the frame [d], from the sorted base rows. *)
Definition marked (token_set_ratio : string -> string -> Q) (fuzzy_threshold : Z)
    (d : DataFrame) : gset Z :=
  scan_buckets token_set_ratio fuzzy_threshold
    (make_buckets (List.map item_of (insertion_sort sort_key_leb d))).

(** The row is not marked. *)
Definition unmarked (token_set_ratio : string -> string -> Q) (fuzzy_threshold : Z)
    (d : DataFrame) (ir : Z * row) : bool :=
  negb (bool_decide (ir.1 ∈ marked token_set_ratio fuzzy_threshold d)).

(** No row of the frame has column [k]. *)
Definition lacks_column (k : string) (d : DataFrame) : bool :=
  List.forallb (fun ir : Z * row =>
                  match row_get k ir.2 with None => true | Some _ => false end) d.

Definition sorted_by_title_source (d : DataFrame) : Prop :=
  StronglySorted (fun a b => sort_key_leb a b = true) d.

(** The frame of two records in descending order of title. *)
Definition zebra_apple : DataFrame :=
  [(0, bib_row "pubmed" "Zebra fish" EmptyString);
   (1, bib_row "pubmed" "Apple trees" EmptyString)].

(** The item belongs to the bucket of key [k]. *)
Definition in_bucket (k : string) (iv : Z * string) : bool :=
  String.eqb (PyStr.take 20 iv.2) k.

(** [buckets.get(k, [])] *)
Fixpoint bucket_get (k : string) (buckets : list (string * list (Z * string))) :
    list (Z * string) :=
  match buckets with
  | [] => []
  | (k', items) :: buckets' =>
      if String.eqb k' k then items else bucket_get k buckets'
  end.

(** The loop over the buckets from a given set. *)
Definition scan_from (token_set_ratio : string -> string -> Q) (fuzzy_threshold : Z)
    (buckets : list (string * list (Z * string))) (to_drop : gset Z) : gset Z :=
  List.fold_left (fun to_drop b => scan_bucket token_set_ratio fuzzy_threshold b.2 to_drop)
    buckets to_drop.

(** Two items of one bucket are not both kept while similar. *)
Definition settled (token_set_ratio : string -> string -> Q) (fuzzy_threshold : Z)
    (S : gset Z) (x y : Z * string) : Prop :=
  x.1 ∈ S \/ y.1 ∈ S \/ similar token_set_ratio fuzzy_threshold x.2 y.2 = false.

(** Two items are not similar. *)
Definition dissimilar (token_set_ratio : string -> string -> Q) (fuzzy_threshold : Z)
    (x y : Z * string) : Prop :=
  similar token_set_ratio fuzzy_threshold x.2 y.2 = false.

(** Scenario B: the same title twice, up to case and a trailing space. *)
Definition scenario_B_frame : DataFrame :=
  [(0, bib_row "pubmed" "Deep learning for cancer detection" EmptyString);
   (1, bib_row "scopus" "deep learning for cancer detection " EmptyString)].

(** Similarity at the threshold is transitive on the given titles. *)
Definition similarity_transitive (token_set_ratio : string -> string -> Q)
    (fuzzy_threshold : Z) (titles : list string) : bool :=
  List.forallb (fun a =>
    List.forallb (fun b =>
      List.forallb (fun c =>
        implb (similar token_set_ratio fuzzy_threshold a b
               && similar token_set_ratio fuzzy_threshold b c)
              (similar token_set_ratio fuzzy_threshold a c)) titles) titles) titles.

(** The normalised titles of a frame. *)
Definition norm_titles (d : DataFrame) : list string :=
  List.map (fun ir : Z * row => title_norm (dict_get "title" ir.2)) d.

(** Marked labels spread along similarity at the threshold. *)
Definition closed_under (ratio : string -> string -> Q) (t : Z)
    (S : gset Z) (its : list (Z * string)) : Prop :=
  forall x y, x ∈ its -> y ∈ its -> x.1 ∈ S -> similar ratio t x.2 y.2 = true -> y.1 ∈ S.

(** Similarity at the threshold is transitive on the titles, as a
    proposition. *)
Definition transitive_on (ratio : string -> string -> Q) (t : Z)
    (titles : list string) : Prop :=
  forall a b c, a ∈ titles -> b ∈ titles -> c ∈ titles ->
    similar ratio t a b = true -> similar ratio t b c = true ->
    similar ratio t a c = true.

(** Four records whose normalised titles share their first 20 characters:
    a chain in which the second title is close to the first, and the third
    and fourth are close to the second only. *)
Definition chain_frame : DataFrame :=
  [(0, bib_row "pubmed" "aaaaaaaaaaaaaaaaaaaabbbb" EmptyString);
   (1, bib_row "pubmed" "aaaaaaaaaaaaaaaaaaaam" EmptyString);
   (2, bib_row "pubmed" "aaaaaaaaaaaaaaaaaaaamnnnn" EmptyString);
   (3, bib_row "pubmed" "aaaaaaaaaaaaaaaaaaaamzzzz" EmptyString)].

(** ** Definitions used in the further properties *)

(** The columns a classifier writes. *)
Definition screen_columns : list string :=
  ["screen_mode"; "screen_include_hit"; "screen_exclude_hit"; "screen_score";
   "screen_relevant"].

(** The bucket of a row in the fuzzy-title pass: the first 20 characters
    of its normalised title. *)
Definition bucket_key (ir : Z * row) : string :=
  PyStr.take 20 (title_norm (dict_get "title" ir.2)).

(** Two rows of the same bucket are below the similarity threshold, the
    first compared with the second. *)
Definition apart (token_set_ratio : string -> string -> Q) (fuzzy_threshold : Z)
    (a b : Z * row) : Prop :=
  bucket_key a = bucket_key b ->
  similar token_set_ratio fuzzy_threshold
    (title_norm (dict_get "title" a.2)) (title_norm (dict_get "title" b.2)) = false.

(** Two records whose titles differ by a leading article: the second
    title's words are among the first's. *)
Definition article_frame : DataFrame :=
  [(0, bib_row "pubmed" "The effect of aspirin on headache" EmptyString);
   (1, bib_row "scopus" "Effect of aspirin on headache" EmptyString)].

(** ** Standardising the search results ([df_standardize]) *)

Definition standard_columns : list string :=
  ["record_id"; "source"; "title"; "abstract"; "authors"; "journal"; "year";
   "language"; "pub_types"; "doi"; "pmid"; "eid"; "wos_uid"; "query"; "retrieved_at"].

(** A statement run under a condition. *)
Definition when (b : bool) (m : M unit) : M unit := if b then m else mret tt.

(** [c in df.columns]: the rows of a frame all have the same columns. *)
Definition in_columns (df : ref) (c : string) : M bool :=
  d ← Pandas.read df; mret (has_column c d).

(** The loop [for c in cols: if c not in df.columns: df[c] = ""]. *)
Fixpoint add_missing (df : ref) (cols : list string) : M unit :=
  match cols with
  | [] => mret tt
  | c :: cols' =>
      present ← in_columns df c;
      _ ← when (negb present) (Pandas.set_column_const df c (Str EmptyString));
      add_missing df cols'
  end.

Section Standardize.
(** [pd.to_numeric(series, errors="coerce").astype("Int64")] on one cell:
    the number the cell denotes, [Null] when it denotes none; the cast
    raises on a number that is no integer. *)
Variable to_Int64 : cell -> result cell.

Definition df_standardize (df : ref) : M ref :=
  _ ← add_missing df standard_columns;
  has_year ← in_columns df "year";
  _ ← when has_year
        (year ← Pandas.column df "year";
         converted ← lift (map_result to_Int64 year);
         Pandas.set_column df "year" converted);
  sub ← Pandas.select df standard_columns;
  idx ← Pandas.index df;
  Pandas.alloc (List.combine idx sub).
End Standardize.

(** The cell of column [c] in the row [ir] of the frame [d] once the
    missing columns are filled in. *)
Definition filled (c : string) (d : DataFrame) (ir : Z * row) : cell :=
  if has_column c d then dict_get c ir.2 else Str EmptyString.

(** The frame with the column [c] filled in when it is missing. *)
Definition fill_column (c : string) (d : DataFrame) : DataFrame :=
  if has_column c d then d
  else List.map (fun ir : Z * row => (ir.1, Pandas.row_set c (Str EmptyString) ir.2)) d.

(** The frame once the loop over the standard columns has run. *)
Definition fill_missing (cols : list string) (d : DataFrame) : DataFrame :=
  List.fold_left (fun d c => fill_column c d) cols d.

(** A frame of search results whose rows lack a year and a language. *)
Definition raw_results : DataFrame :=
  [(0, [("title", Str "Alpha study"); ("doi", Str "10.1/x"); ("note", Str "kept aside")]);
   (1, [("title", Str "Beta trial"); ("doi", Str EmptyString); ("note", Null)])].

(** A conversion of years written as integers; other cells denote no
    number. *)
Definition integer_year (v : cell) : result cell :=
  match v with
  | Int z => Ok (Int z)
  | _ => Ok Null
  end.

(** [df[cols]] with its index: the rows restricted to [cols], in that
    order. *)
Definition project_columns (cols : list string) (d : DataFrame) : DataFrame :=
  List.map (fun ir : Z * row => (ir.1, List.map (fun k => (k, dict_get k ir.2)) cols)) d.

(** * Proofs *)

Local Open Scope list_scope.

(** ** Running store programs *)

Lemma bind_ok {A B} (m : M A) (f : A -> M B) w a w1 :
  m w = Ok (a, w1) -> (m ≫= f) w = f a w1.
Proof. intros H. unfold mbind, M_bind. now rewrite H. Qed.

Lemma bind_raise {A B} (m : M A) (f : A -> M B) w e :
  m w = Raise e -> (m ≫= f) w = Raise e.
Proof. intros H. unfold mbind, M_bind. now rewrite H. Qed.

Lemma bind_inv {A B} (m : M A) (f : A -> M B) w b w2 :
  (m ≫= f) w = Ok (b, w2) -> exists a w1, m w = Ok (a, w1) /\ f a w1 = Ok (b, w2).
Proof.
  unfold mbind, M_bind. destruct (m w) as [[a w1]|e]; [|discriminate].
  intros H. now exists a, w1.
Qed.

Lemma map_result_ok {A B} (f : A -> result B) (g : A -> B) (l : list A) :
  Forall (fun x => f x = Ok (g x)) l -> map_result f l = Ok (List.map g l).
Proof.
  induction 1 as [|x l Hx _ IH]; simpl; [reflexivity|].
  now rewrite Hx, IH.
Qed.

Lemma row_at_dict_get k r :
  is_Some (row_get k r) -> Pandas.row_at k r = Ok (dict_get k r).
Proof. intros [v Hv]. unfold Pandas.row_at, dict_get. now rewrite Hv. Qed.

Lemma has_column_Forall k d :
  has_column k d = true -> Forall (fun ir : Z * row => is_Some (row_get k ir.2)) d.
Proof.
  unfold has_column. rewrite forallb_forall, List.Forall_forall.
  intros H x Hx. specialize (H x Hx). now apply bool_decide_eq_true in H.
Qed.

Section StoreLemmas.
Variables (w : world) (df : ref) (d : DataFrame).
Hypothesis Hdf : frames w !! df = Some d.

Lemma read_ok : Pandas.read df w = Ok (d, w).
Proof using Hdf. unfold Pandas.read. now rewrite Hdf. Qed.

Lemma len_ok : Pandas.len df w = Ok (Z.of_nat (List.length d), w).
Proof using Hdf. unfold Pandas.len. now rewrite (bind_ok _ _ _ _ _ read_ok). Qed.

Lemma column_ok k :
  has_column k d = true ->
  Pandas.column df k w = Ok (List.map (fun ir : Z * row => dict_get k ir.2) d, w).
Proof using Hdf.
  intros Hk. unfold Pandas.column. rewrite (bind_ok _ _ _ _ _ read_ok).
  unfold lift. rewrite (map_result_ok _ (fun ir : Z * row => dict_get k ir.2)); [reflexivity|].
  eapply Forall_impl; [apply has_column_Forall, Hk|].
  intros ir H. now apply row_at_dict_get.
Qed.

Lemma set_column_ok k vals :
  Pandas.set_column df k vals w
  = Ok (tt, World (<[df := Pandas.set_cells k vals d]> (frames w)) (files w)).
Proof using Hdf. unfold Pandas.set_column. now rewrite (bind_ok _ _ _ _ _ read_ok). Qed.

Lemma set_column_const_ok k v :
  Pandas.set_column_const df k v w
  = Ok (tt, World (<[df := map_rows (Pandas.row_set k v) d]> (frames w)) (files w)).
Proof using Hdf. unfold Pandas.set_column_const. now rewrite (bind_ok _ _ _ _ _ read_ok). Qed.

Lemma copy_ok :
  Pandas.copy df w = Ok (List.length (frames w), World (frames w ++ [d]) (files w)).
Proof using Hdf. unfold Pandas.copy. now rewrite (bind_ok _ _ _ _ _ read_ok). Qed.
End StoreLemmas.

(** ** Rows and columns *)

Lemma row_get_set_eq k v r : row_get k (Pandas.row_set k v r) = Some v.
Proof.
  induction r as [|[k' v'] r IH]; simpl.
  - now rewrite String.eqb_refl.
  - destruct (String.eqb k k') eqn:E; simpl.
    + now rewrite String.eqb_refl.
    + now rewrite E.
Qed.

Lemma row_get_set_ne k k' v r :
  k <> k' -> row_get k (Pandas.row_set k' v r) = row_get k r.
Proof.
  intros Hne. induction r as [|[k2 v2] r IH]; simpl.
  - apply String.eqb_neq in Hne. now rewrite Hne.
  - destruct (String.eqb k' k2) eqn:E; simpl.
    + apply String.eqb_eq in E. subst k2.
      apply String.eqb_neq in Hne. now rewrite Hne.
    + now rewrite IH.
Qed.

Lemma dict_get_set_eq k v r : dict_get k (Pandas.row_set k v r) = v.
Proof. unfold dict_get. now rewrite row_get_set_eq. Qed.

Lemma dict_get_set_ne k k' v r :
  k <> k' -> dict_get k (Pandas.row_set k' v r) = dict_get k r.
Proof. intros H. unfold dict_get. now rewrite row_get_set_ne. Qed.

Lemma row_get_drop_ne k k' r :
  k <> k' -> row_get k (Pandas.row_drop k' r) = row_get k r.
Proof.
  intros Hne. unfold Pandas.row_drop.
  induction r as [|[k2 v2] r IH]; simpl; [reflexivity|].
  destruct (String.eqb k' k2) eqn:E; simpl.
  - apply String.eqb_eq in E. subst k2.
    apply String.eqb_neq in Hne. now rewrite Hne.
  - now rewrite IH.
Qed.

Lemma row_get_drop_eq k r : row_get k (Pandas.row_drop k r) = None.
Proof.
  unfold Pandas.row_drop.
  induction r as [|[k2 v2] r IH]; simpl; [reflexivity|].
  destruct (String.eqb k k2) eqn:E; simpl; [assumption|].
  now rewrite E.
Qed.

Lemma dict_get_drop_ne k k' r :
  k <> k' -> dict_get k (Pandas.row_drop k' r) = dict_get k r.
Proof. intros H. unfold dict_get. now rewrite row_get_drop_ne. Qed.

(** Dropping a column that was appended restores the row. *)
Lemma row_drop_set_fresh k v r :
  row_get k r = None -> Pandas.row_drop k (Pandas.row_set k v r) = r.
Proof.
  unfold Pandas.row_drop.
  induction r as [|[k2 v2] r IH]; simpl.
  - now rewrite String.eqb_refl.
  - destruct (String.eqb k k2) eqn:E; [discriminate|].
    intros H. simpl. rewrite E. simpl. now rewrite IH.
Qed.

(** Assigning a column computed row by row. *)
Lemma set_cells_map {A} k (g : A -> cell) (h : A -> Z * row) (l : list A) :
  Pandas.set_cells k (List.map g l) (List.map h l)
  = List.map (fun x => ((h x).1, Pandas.row_set k (g x) (h x).2)) l.
Proof.
  induction l as [|x l IH]; simpl; [reflexivity|].
  destruct (h x) as [i r] eqn:E. simpl. now rewrite IH.
Qed.

Lemma set_cells_rows k (g : Z * row -> cell) (d : DataFrame) :
  Pandas.set_cells k (List.map g d) d
  = List.map (fun ir : Z * row => (ir.1, Pandas.row_set k (g ir) ir.2)) d.
Proof.
  rewrite <- (List.map_id d) at 2. now rewrite set_cells_map.
Qed.

Lemma has_column_map_rows k f d :
  (forall r, is_Some (row_get k r) -> is_Some (row_get k (f r))) ->
  has_column k d = true -> has_column k (map_rows f d) = true.
Proof.
  intros Hf. unfold has_column, map_rows. rewrite !forallb_forall.
  intros H x Hx. apply in_map_iff in Hx as [[i r] [<- Hin]].
  specialize (H _ Hin). apply bool_decide_eq_true in H.
  apply bool_decide_eq_true. simpl in *. now apply Hf.
Qed.

Lemma store_lookup_last (l : list DataFrame) d : (l ++ [d]) !! List.length l = Some d.
Proof. now apply list_lookup_middle. Qed.

Lemma store_insert_last (l : list DataFrame) d d' :
  <[List.length l := d']> (l ++ [d]) = l ++ [d'].
Proof.
  replace (List.length l) with (List.length l + 0)%nat at 1 by lia.
  now rewrite insert_app_r.
Qed.

Lemma series_or_map {A} (f g : A -> bool) (l : list A) :
  series_or (List.map f l) (List.map g l) = List.map (fun x => f x || g x) l.
Proof. induction l; simpl; congruence. Qed.

Lemma series_and_not_map {A} (f g : A -> cell) (l : list A) :
  series_and_not (List.map f l) (List.map g l)
  = List.map (fun x => Bool (cell_bool (f x) && negb (cell_bool (g x)))) l.
Proof. induction l; simpl; congruence. Qed.

Lemma repeat_map_const {A B} (b : B) (l : list A) :
  List.repeat b (List.length l) = List.map (fun _ => b) l.
Proof. induction l; simpl; congruence. Qed.

(** ** Closed form of [screen_simple] *)

Lemma has_column_map k (h : Z * row -> Z * row) (d : DataFrame) :
  (forall ir, is_Some (row_get k (h ir).2)) -> has_column k (List.map h d) = true.
Proof.
  intros H. unfold has_column. rewrite forallb_forall. intros x Hx.
  apply in_map_iff in Hx as [ir [<- Hin]]. now apply bool_decide_eq_true.
Qed.

(** Reads a column back through the assignments made to a row. *)
Ltac row_simpl :=
  repeat first
    [ rewrite row_get_set_eq
    | rewrite dict_get_set_eq
    | rewrite row_get_set_ne by (intro; discriminate)
    | rewrite dict_get_set_ne by (intro; discriminate)
    | rewrite row_get_drop_ne by (intro; discriminate)
    | rewrite dict_get_drop_ne by (intro; discriminate) ].

Ltac store_step lem :=
  erewrite bind_ok; [|apply lem; simpl; apply store_lookup_last];
  simpl frames; simpl files; rewrite ?store_insert_last.

Lemma screen_simple_closed w df d include_kw exclude_kw inc_logic exc_logic :
  frames w !! df = Some d ->
  has_column "title" d = true ->
  has_column "abstract" d = true ->
  screen_simple df include_kw exclude_kw inc_logic exc_logic w
  = Ok (List.length (frames w),
        World (frames w ++ [map_rows (screen_simple_row include_kw exclude_kw inc_logic exc_logic) d])
              (files w)).
Proof.
  intros Hdf Ht Ha. unfold screen_simple.
  rewrite (bind_ok _ _ _ _ _ (column_ok w df d Hdf _ Ht)).
  rewrite (bind_ok _ _ _ _ _ (column_ok w df d Hdf _ Ha)).
  rewrite (bind_ok _ _ _ _ _ (len_ok w df d Hdf)).
  rewrite Nat2Z.id.
  assert (Hexc : forall (k : string) (Hk : has_column k d = true),
             (if is_nil exclude_kw then mret (List.repeat false (List.length d))
              else t ← Pandas.column df k;
                   mret (List.map (fun t => keyword_match (Pandas.fillna t) exclude_kw exc_logic) t)) w
             = Ok (List.map (fun ir : Z * row =>
                               if is_nil exclude_kw then false
                               else keyword_match (Pandas.fillna (dict_get k ir.2)) exclude_kw exc_logic) d, w)).
  { intros k Hk. destruct exclude_kw as [|e es]; simpl.
    - now rewrite repeat_map_const.
    - rewrite (bind_ok _ _ _ _ _ (column_ok w df d Hdf _ Hk)).
      now rewrite List.map_map. }
  rewrite (bind_ok _ _ _ _ _ (Hexc _ Ht)).
  rewrite (bind_ok _ _ _ _ _ (Hexc _ Ha)).
  clear Hexc.
  assert (Hinc :
    (if is_nil include_kw then List.repeat true (List.length d)
     else series_or
            (List.map (fun t => keyword_match (Pandas.fillna t) include_kw inc_logic)
               (List.map (fun ir : Z * row => dict_get "title" ir.2) d))
            (List.map (fun a => keyword_match (Pandas.fillna a) include_kw inc_logic)
               (List.map (fun ir : Z * row => dict_get "abstract" ir.2) d)))
    = List.map (fun ir : Z * row => include_hit_of include_kw inc_logic ir.2) d).
  { unfold include_hit_of. destruct include_kw as [|e es]; simpl.
    - apply repeat_map_const.
    - now rewrite !List.map_map, series_or_map. }
  rewrite Hinc. clear Hinc.
  rewrite series_or_map.
  assert (Hexc : forall ir : Z * row,
     ((if is_nil exclude_kw then false
       else keyword_match (Pandas.fillna (dict_get "title" ir.2)) exclude_kw exc_logic)
      || (if is_nil exclude_kw then false
          else keyword_match (Pandas.fillna (dict_get "abstract" ir.2)) exclude_kw exc_logic))
     = exclude_hit_of exclude_kw exc_logic ir.2).
  { intros ir. unfold exclude_hit_of. now destruct exclude_kw. }
  rewrite (List.map_ext _ _ Hexc). clear Hexc.
  rewrite (bind_ok _ _ _ _ _ (copy_ok w df d Hdf)).
  store_step set_column_const_ok.
  unfold map_rows at 1. rewrite !List.map_map.
  store_step set_column_ok. rewrite set_cells_map. simpl fst. simpl snd.
  store_step set_column_ok. rewrite set_cells_map. simpl fst. simpl snd.
  store_step set_column_ok. rewrite set_cells_map. simpl fst. simpl snd.
  erewrite bind_ok; [|apply column_ok; [simpl; apply store_lookup_last|]].
  2:{ apply has_column_map. intros ir. simpl. row_simpl. now eexists. }
  erewrite bind_ok; [|apply column_ok; [simpl; apply store_lookup_last|]].
  2:{ apply has_column_map. intros ir. simpl. row_simpl. now eexists. }
  rewrite !List.map_map. rewrite series_and_not_map.
  store_step set_column_ok. rewrite set_cells_map. simpl fst. simpl snd.
  unfold mret, M_ret.
  match goal with
  | |- Ok (_, World (_ ++ [?a]) _) = Ok (_, World (_ ++ [?b]) _) =>
      replace a with b; [reflexivity|]
  end.
  unfold map_rows. apply List.map_ext. intros [i r]. simpl.
  unfold screen_simple_row. row_simpl. reflexivity.
Qed.

(** ** Closed form of [screen_ml] *)

Lemma screen_ml_missing w df model_path threshold :
  files w !! model_path = None ->
  screen_ml df model_path threshold w = Raise (model_missing model_path).
Proof.
  intros H. unfold screen_ml, mbind, M_bind, path_exists. rewrite H.
  rewrite bool_decide_eq_false_2; [reflexivity|].
  intros [x Hx]. discriminate.
Qed.

Lemma string_column_Forall k d :
  string_column k d = true ->
  Forall (fun ir : Z * row =>
            match dict_get k ir.2 with Str _ | Null => True | _ => False end) d.
Proof.
  unfold string_column. rewrite forallb_forall, List.Forall_forall.
  intros H x Hx. specialize (H x Hx). now destruct (dict_get k x.2).
Qed.

Lemma screen_ml_closed w df d pipe model_path threshold :
  files w !! model_path = Some (Pickled pipe) ->
  frames w !! df = Some d ->
  d <> [] ->
  has_column "title" d = true -> has_column "abstract" d = true ->
  string_column "title" d = true -> string_column "abstract" d = true ->
  screen_ml df model_path threshold w
  = Ok (List.length (frames w),
        World (frames w ++ [map_rows (screen_ml_row pipe threshold) d]) (files w)).
Proof.
  intros Hf Hdf Hne Ht Ha Hst Hsa. unfold screen_ml.
  erewrite bind_ok; [|unfold path_exists; rewrite Hf; reflexivity].
  rewrite bool_decide_eq_true_2 by (now eexists). cbn [negb].
  erewrite bind_ok; [|unfold joblib_load; rewrite Hf; reflexivity].
  rewrite (bind_ok _ _ _ _ _ (column_ok w df d Hdf _ Ht)).
  rewrite (bind_ok _ _ _ _ _ (column_ok w df d Hdf _ Ha)).
  rewrite !List.map_map.
  assert (HX : map_result text_concat
                 (List.combine
                    (List.map (fun ir : Z * row => Pandas.fillna (dict_get "title" ir.2)) d)
                    (List.map (fun ir : Z * row => Pandas.fillna (dict_get "abstract" ir.2)) d))
               = Ok (List.map (fun ir : Z * row => ml_text ir.2) d)).
  { apply string_column_Forall in Hst, Hsa. clear -Hst Hsa.
    induction d as [|ir d IH]; simpl; [reflexivity|].
    inversion Hst; inversion Hsa; subst. rewrite IH by assumption.
    unfold ml_text.
    destruct (dict_get "title" ir.2); try contradiction;
      destruct (dict_get "abstract" ir.2); try contradiction; reflexivity. }
  erewrite bind_ok; [|unfold lift; rewrite HX; reflexivity].
  erewrite bind_ok; [|unfold lift, predict_proba;
                       destruct d; [contradiction|reflexivity]].
  rewrite !List.map_map.
  rewrite (bind_ok _ _ _ _ _ (copy_ok w df d Hdf)).
  store_step set_column_const_ok.
  unfold map_rows at 1.
  store_step set_column_ok. rewrite set_cells_map. simpl fst. simpl snd.
  store_step set_column_ok. rewrite set_cells_map. simpl fst. simpl snd.
  erewrite bind_ok; [|apply column_ok; [simpl; apply store_lookup_last|]].
  2:{ apply has_column_map. intros ir. simpl. row_simpl. now eexists. }
  rewrite !List.map_map.
  store_step set_column_ok. rewrite set_cells_map. simpl fst. simpl snd.
  store_step set_column_const_ok.
  unfold mret, M_ret.
  match goal with
  | |- Ok (_, World (_ ++ [?a]) _) = Ok (_, World (_ ++ [?b]) _) =>
      replace a with b; [reflexivity|]
  end.
  unfold map_rows. rewrite List.map_map. apply List.map_ext. intros [i r]. simpl.
  unfold screen_ml_row. row_simpl. reflexivity.
Qed.

(** ** Which errors a store program can raise *)

Lemma avoids_bind {A B} bad (m : M A) (f : A -> M B) :
  avoids bad m -> (forall a, avoids bad (f a)) -> avoids bad (m ≫= f).
Proof.
  intros Hm Hf w. unfold mbind, M_bind.
  destruct (m w) as [[a w1]|e] eqn:E.
  - apply Hf.
  - intros H. injection H as ->. now apply (Hm w).
Qed.

Lemma avoids_ret {A} bad (a : A) : avoids bad (mret a).
Proof. intros w. discriminate. Qed.

Lemma avoids_lift {A} bad (r : result A) : r <> Raise bad -> avoids bad (lift r).
Proof.
  intros H w. unfold lift. destruct r as [a|e]; [discriminate|].
  intros E. injection E as ->. now apply H.
Qed.

Lemma map_result_raise {A B} (f : A -> result B) (l : list A) e :
  map_result f l = Raise e -> exists x, In x l /\ f x = Raise e.
Proof.
  induction l as [|x l IH]; simpl; [discriminate|].
  destruct (f x) as [y|e'] eqn:E.
  - destruct (map_result f l) as [ys|e'']; [discriminate|].
    intros H. injection H as ->. destruct (IH eq_refl) as [x' [Hin Hx']].
    exists x'. auto.
  - intros H. injection H as ->. exists x. auto.
Qed.

Lemma avoids_map_result {A B} bad (f : A -> result B) (l : list A) :
  (forall x, f x <> Raise bad) -> avoids bad (lift (map_result f l)).
Proof.
  intros Hf. apply avoids_lift. intros H.
  apply map_result_raise in H as [x [_ Hx]]. now apply (Hf x).
Qed.

Lemma row_at_avoids bad k r : not_from_pandas bad -> Pandas.row_at k r <> Raise bad.
Proof.
  intros [Hk _]. unfold Pandas.row_at. destruct (row_get k r); [discriminate|].
  intros H. injection H as <-. now apply (Hk k).
Qed.

Section Avoids.
Variable bad : exn.
Hypothesis Hbad : not_from_pandas bad.

Lemma avoids_read df : avoids bad (Pandas.read df).
Proof using Hbad.
  intros w. unfold Pandas.read. destruct (frames w !! df); [discriminate|].
  intros H. injection H as <-. now apply (proj1 Hbad "dangling frame"%string).
Qed.

Lemma avoids_column df k : avoids bad (Pandas.column df k).
Proof using Hbad.
  apply avoids_bind; [apply avoids_read|]. intros d.
  apply avoids_map_result. intros x. now apply row_at_avoids.
Qed.

Lemma avoids_select df keys : avoids bad (Pandas.select df keys).
Proof using Hbad.
  apply avoids_bind; [apply avoids_read|]. intros d.
  apply avoids_map_result. intros x H.
  apply map_result_raise in H as [k [_ Hk]].
  destruct (Pandas.row_at k x.2) eqn:E; [discriminate|].
  injection Hk as ->. now apply (row_at_avoids bad k x.2).
Qed.

Lemma avoids_len df : avoids bad (Pandas.len df).
Proof using Hbad.
  apply avoids_bind; [apply avoids_read|]. intros d. apply avoids_ret.
Qed.

Lemma avoids_write df d : avoids bad (Pandas.write df d).
Proof. intros w. discriminate. Qed.

Lemma avoids_alloc d : avoids bad (Pandas.alloc d).
Proof. intros w. discriminate. Qed.

Lemma avoids_set_column df k vals : avoids bad (Pandas.set_column df k vals).
Proof using Hbad.
  apply avoids_bind; [apply avoids_read|]. intros d. apply avoids_write.
Qed.

Lemma avoids_set_column_const df k v : avoids bad (Pandas.set_column_const df k v).
Proof using Hbad.
  apply avoids_bind; [apply avoids_read|]. intros d. apply avoids_write.
Qed.

Lemma avoids_copy df : avoids bad (Pandas.copy df).
Proof using Hbad.
  apply avoids_bind; [apply avoids_read|]. intros d. apply avoids_alloc.
Qed.
End Avoids.

Lemma avoids_joblib_load bad path :
  bad <> UnpicklingError -> avoids bad (joblib_load path).
Proof.
  intros Hbad w. unfold joblib_load.
  destruct (files w !! path) as [[pipe|]|]; try discriminate;
    intros H; injection H as <-; now apply Hbad.
Qed.

Lemma runtime_error_not_from_pandas msg : not_from_pandas (RuntimeError msg).
Proof. split; [intros k|]; discriminate. Qed.

Lemma screen_ml_present w df model_path threshold msg :
  is_Some (files w !! model_path) ->
  screen_ml df model_path threshold w <> Raise (RuntimeError msg).
Proof.
  intros Hf. unfold screen_ml.
  erewrite bind_ok; [|unfold path_exists; reflexivity].
  rewrite bool_decide_eq_true_2 by assumption. cbn [negb].
  pose proof (runtime_error_not_from_pandas msg) as Hbad.
  revert w Hf.
  assert (H : avoids (RuntimeError msg)
    (pipe ← joblib_load model_path;
     title ← Pandas.column df "title";
     abstract ← Pandas.column df "abstract";
     X ← lift (map_result text_concat
                 (List.combine (List.map Pandas.fillna title)
                               (List.map Pandas.fillna abstract)));
     probs ← lift (predict_proba pipe X);
     out ← Pandas.copy df;
     _ ← Pandas.set_column_const out "screen_mode" (Str "ml");
     _ ← Pandas.set_column out "screen_score" (List.map Real probs);
     _ ← Pandas.set_column out "screen_relevant"
           (List.map (fun p => Bool (Qle_bool threshold p)) probs);
     relevant ← Pandas.column out "screen_relevant";
     _ ← Pandas.set_column out "screen_include_hit" relevant;
     _ ← Pandas.set_column_const out "screen_exclude_hit" (Bool false);
     mret out)).
  { repeat first
      [ apply avoids_ret
      | apply avoids_joblib_load; discriminate
      | apply avoids_column; assumption
      | apply avoids_copy; assumption
      | apply avoids_set_column; assumption
      | apply avoids_set_column_const; assumption
      | apply avoids_bind; [|intros ?] ].
    - apply avoids_map_result. intros [t a'].
      unfold text_concat. destruct t; try discriminate; destruct a'; discriminate.
    - apply avoids_lift. unfold predict_proba.
      match goal with |- context [match ?X with [] => _ | _ => _ end] => destruct X end;
        discriminate. }
  intros w _. apply H.
Qed.

(** ** The classifier claims *)

(** C7: for every record classified by the rule variant, the include hit
    is true when the include list is empty, the exclude hit is false when
    the exclude list is empty, the score is 1.0 when the include hit is
    true and 0.0 otherwise, and relevant is include hit and not exclude
    hit.  The call returns a new frame with one such row per input row. *)
Theorem screen_simple_decision w df d include_kw exclude_kw inc_logic exc_logic :
  frames w !! df = Some d ->
  has_column "title" d = true ->
  has_column "abstract" d = true ->
  exists out w' d',
    screen_simple df include_kw exclude_kw inc_logic exc_logic w = Ok (out, w')
    /\ frames w' !! out = Some d'
    /\ Forall2 (fun (i o : Z * row) =>
         exists ih eh : bool,
           o.1 = i.1
           /\ ih = include_hit_of include_kw inc_logic i.2
           /\ eh = exclude_hit_of exclude_kw exc_logic i.2
           /\ row_get "screen_include_hit" o.2 = Some (Bool ih)
           /\ row_get "screen_exclude_hit" o.2 = Some (Bool eh)
           /\ row_get "screen_score" o.2 = Some (Real (if ih then 1 else 0))
           /\ row_get "screen_relevant" o.2 = Some (Bool (ih && negb eh))
           /\ (include_kw = [] -> ih = true)
           /\ (exclude_kw = [] -> eh = false)) d d'.
Proof.
  intros Hdf Ht Ha.
  eexists _, _, _. split; [apply (screen_simple_closed w df d); assumption|].
  split; [apply store_lookup_last|].
  unfold map_rows. clear. induction d as [|[i r] d IH]; constructor; [|exact IH].
  exists (include_hit_of include_kw inc_logic r), (exclude_hit_of exclude_kw exc_logic r).
  simpl. unfold screen_simple_row. row_simpl.
  repeat split; try reflexivity.
  - intros ->. reflexivity.
  - intros ->. reflexivity.
Qed.

(** Scenario C: include cancer, exclude review, on the title
    A review of cancer treatments. *)
Lemma screen_simple_decision_scenario_C :
  (exists out w' d',
      screen_simple 0%nat ["cancer"] ["review"] "any" "any" scenario_C_world = Ok (out, w')
      /\ frames w' !! out = Some d'
      /\ Forall2 (fun (i o : Z * row) =>
           exists ih eh : bool,
             o.1 = i.1
             /\ ih = include_hit_of ["cancer"] "any" i.2
             /\ eh = exclude_hit_of ["review"] "any" i.2
             /\ row_get "screen_include_hit" o.2 = Some (Bool ih)
             /\ row_get "screen_exclude_hit" o.2 = Some (Bool eh)
             /\ row_get "screen_score" o.2 = Some (Real (if ih then 1 else 0))
             /\ row_get "screen_relevant" o.2 = Some (Bool (ih && negb eh))
             /\ (["cancer"%string] = [] -> ih = true)
             /\ (["review"%string] = [] -> eh = false)) scenario_C_frame d')
  /\ screen_simple 0%nat ["cancer"] ["review"] "any" "any" scenario_C_world
     = Ok (1%nat,
           World [scenario_C_frame;
                  [(0, [("title", Str "A review of cancer treatments");
                        ("abstract", Null);
                        ("screen_mode", Str "simple");
                        ("screen_include_hit", Bool true);
                        ("screen_exclude_hit", Bool true);
                        ("screen_score", Real 1);
                        ("screen_relevant", Bool false)])]] ∅).
Proof.
  split.
  - apply (screen_simple_decision scenario_C_world 0%nat scenario_C_frame
             ["cancer"] ["review"] "any" "any"); reflexivity.
  - vm_compute. reflexivity.
Defined.

(** C4, as the code has it: on a frame with the two text columns the
    rule variant writes the mode simple on every row, whatever the
    keywords and with or without a model on disk; and on such a frame of
    at least one row whose text cells are strings or missing, the model
    variant with a loadable model writes the mode ml on every row. *)
Theorem screen_mode_written w df d :
  frames w !! df = Some d ->
  has_column "title" d = true ->
  has_column "abstract" d = true ->
  (forall include_kw exclude_kw inc_logic exc_logic,
    exists out w' d',
      screen_simple df include_kw exclude_kw inc_logic exc_logic w = Ok (out, w')
      /\ frames w' !! out = Some d'
      /\ List.length d' = List.length d
      /\ Forall (fun o : Z * row => row_get "screen_mode" o.2 = Some (Str "simple")) d')
  /\ (forall model_path pipe threshold,
      d <> [] ->
      string_column "title" d = true ->
      string_column "abstract" d = true ->
      files w !! model_path = Some (Pickled pipe) ->
      exists out w' d',
        screen_ml df model_path threshold w = Ok (out, w')
        /\ frames w' !! out = Some d'
        /\ List.length d' = List.length d
        /\ Forall (fun o : Z * row => row_get "screen_mode" o.2 = Some (Str "ml")) d').
Proof.
  intros Hdf Ht Ha. split.
  - intros include_kw exclude_kw inc_logic exc_logic.
    eexists _, _, _. split; [apply (screen_simple_closed w df d); assumption|].
    split; [apply store_lookup_last|]. unfold map_rows.
    split; [apply List.length_map|].
    apply Forall_map, Forall_forall. intros [i r] _. simpl.
    unfold screen_simple_row. row_simpl. reflexivity.
  - intros model_path pipe threshold Hne Hst Hsa Hf.
    eexists _, _, _. split; [apply (screen_ml_closed w df d pipe); assumption|].
    split; [apply store_lookup_last|]. unfold map_rows.
    split; [apply List.length_map|].
    apply Forall_map, Forall_forall. intros [i r] _. simpl.
    unfold screen_ml_row. row_simpl. reflexivity.
Qed.

Lemma screen_mode_written_example :
  (exists out w' d',
      screen_simple 0%nat ["cancer"] ["review"] "any" "any" model_world = Ok (out, w')
      /\ frames w' !! out = Some d'
      /\ List.length d' = List.length scenario_C_frame
      /\ Forall (fun o : Z * row => row_get "screen_mode" o.2 = Some (Str "simple")) d')
  /\ (exists out w' d',
      screen_ml 0%nat "results/model_ml.joblib" 0.5 model_world = Ok (out, w')
      /\ frames w' !! out = Some d'
      /\ List.length d' = List.length scenario_C_frame
      /\ Forall (fun o : Z * row => row_get "screen_mode" o.2 = Some (Str "ml")) d').
Proof.
  destruct (screen_mode_written model_world 0%nat scenario_C_frame)
    as [Hrule Hml]; try reflexivity.
  split.
  - apply Hrule.
  - apply (Hml "results/model_ml.joblib"%string constant_pipeline); try reflexivity.
    discriminate.
Defined.

(** C4 as stated fails: a record classified by the rule variant carries
    the mode simple, not rule, and one classified by the model variant
    carries ml, not model. *)
Lemma screen_mode_is_not_rule_or_model :
  (exists out w' o,
      screen_simple 0%nat ["cancer"] ["review"] "any" "any" model_world = Ok (out, w')
      /\ frames w' !! out = Some [o]
      /\ row_get "screen_mode" o.2 = Some (Str "simple")
      /\ row_get "screen_mode" o.2 <> Some (Str "rule"))
  /\ (exists out w' o,
      screen_ml 0%nat "results/model_ml.joblib" 0.5 model_world = Ok (out, w')
      /\ frames w' !! out = Some [o]
      /\ row_get "screen_mode" o.2 = Some (Str "ml")
      /\ row_get "screen_mode" o.2 <> Some (Str "model")).
Proof.
  split; eexists _, _, _.
  - split; [vm_compute; reflexivity|]. split; [reflexivity|].
    split; [reflexivity|]. discriminate.
  - split; [vm_compute; reflexivity|]. split; [reflexivity|].
    split; [reflexivity|]. discriminate.
Qed.

(** C9: without a model file the model variant raises the configuration
    error, whatever the frame; with a file at the path it never raises
    that error; and with a loadable model and a frame of at least one
    row with text columns it returns the classified frame. *)
Theorem screen_ml_requires_model w df model_path threshold :
  (files w !! model_path = None ->
     screen_ml df model_path threshold w = Raise (model_missing model_path))
  /\ (is_Some (files w !! model_path) ->
        forall msg, screen_ml df model_path threshold w <> Raise (RuntimeError msg))
  /\ (forall pipe d,
        files w !! model_path = Some (Pickled pipe) ->
        frames w !! df = Some d ->
        d <> [] ->
        has_column "title" d = true -> has_column "abstract" d = true ->
        string_column "title" d = true -> string_column "abstract" d = true ->
        exists out w',
          screen_ml df model_path threshold w = Ok (out, w')
          /\ frames w' !! out = Some (map_rows (screen_ml_row pipe threshold) d)).
Proof.
  split; [apply screen_ml_missing|].
  split; [intros H msg; now apply screen_ml_present|].
  intros pipe d Hf Hdf Hne Ht Ha Hst Hsa.
  eexists _, _. split; [apply (screen_ml_closed w df d pipe); assumption|]. apply store_lookup_last.
Qed.

Lemma screen_ml_requires_model_example :
  screen_ml 0%nat "results/model_ml.joblib" 0.5 scenario_C_world
  = Raise (model_missing "results/model_ml.joblib")
  /\ (forall msg,
        screen_ml 0%nat "results/model_ml.joblib" 0.5 model_world <> Raise (RuntimeError msg))
  /\ exists out w',
       screen_ml 0%nat "results/model_ml.joblib" 0.5 model_world = Ok (out, w')
       /\ frames w' !! out
          = Some (map_rows (screen_ml_row constant_pipeline 0.5) scenario_C_frame).
Proof.
  destruct (screen_ml_requires_model scenario_C_world 0%nat "results/model_ml.joblib" 0.5)
    as [Hmissing _].
  destruct (screen_ml_requires_model model_world 0%nat "results/model_ml.joblib" 0.5)
    as (_ & Hpresent & Hruns).
  split; [apply Hmissing; reflexivity|].
  split; [apply Hpresent; vm_compute; eexists; reflexivity|].
  apply (Hruns constant_pipeline scenario_C_frame); try reflexivity. discriminate.
Defined.

(** ** The metrics evaluator *)

Lemma inject_Z_pos_nonzero z : 0 < z -> ~ (inject_Z z == 0)%Q.
Proof. intros Hz H. unfold Qeq in H. simpl in H. lia. Qed.

Lemma Qpos_nonzero q : (0 < q)%Q -> ~ (q == 0)%Q.
Proof. intros Hq H. rewrite H in Hq. now apply Qlt_irrefl in Hq. Qed.

Lemma truediv_ok rnd a b : ~ (b == 0)%Q -> truediv rnd a b = Ok (rnd (a / b)%Q).
Proof.
  intros H. unfold truediv. destruct (Qeq_bool b 0) eqn:E; [|reflexivity].
  apply Qeq_bool_iff in E. contradiction.
Qed.

Lemma guarded_precision rnd tp d :
  (if 0 <? d then truediv rnd (inject_Z tp) (inject_Z d) else Ok 0%Q)
  = Ok (if 0 <? d then rnd (inject_Z tp / inject_Z d)%Q else 0%Q).
Proof.
  destruct (0 <? d) eqn:E; [|reflexivity].
  apply truediv_ok, inject_Z_pos_nonzero. now apply Z.ltb_lt.
Qed.

Lemma guarded_f1 rnd (p r : Q) :
  (if Qlt_le_dec 0 (fadd rnd p r)
   then truediv rnd (fmul rnd (fmul rnd 2 p) r) (fadd rnd p r) else Ok 0%Q)
  = Ok (if Qlt_le_dec 0 (fadd rnd p r)
        then rnd (fmul rnd (fmul rnd 2 p) r / fadd rnd p r)%Q else 0%Q).
Proof.
  destruct (Qlt_le_dec 0 (fadd rnd p r)); [|reflexivity].
  now apply truediv_ok, Qpos_nonzero.
Qed.

Lemma guarded_nnr rnd (p : Q) :
  (if Qlt_le_dec 0 p
   then match truediv rnd 1 p with Ok q => Ok (Some q) | Raise e => Raise e end
   else Ok None)
  = Ok (if Qlt_le_dec 0 p then Some (rnd (1 / p)%Q) else None).
Proof.
  destruct (Qlt_le_dec 0 p); [|reflexivity].
  now rewrite truediv_ok by (now apply Qpos_nonzero).
Qed.

Section MetricsProofs.
Variable astype_int : cell -> result Z.
Variable merge : DataFrame -> list row -> result (list row).
Variable rnd : Q -> Q.

(** The no-overlap branch. *)
Lemma compute_metrics_empty w screen_df labels_df labels left :
  Pandas.select labels_df ["record_id"; "label"] w = Ok (labels, w) ->
  frames w !! screen_df = Some left ->
  merge left labels = Ok [] ->
  compute_metrics astype_int merge rnd screen_df labels_df w = Ok (no_overlap, w).
Proof.
  intros Hsel Hleft Hm. unfold compute_metrics.
  rewrite (bind_ok _ _ _ _ _ Hsel).
  rewrite (bind_ok _ _ _ _ _ (read_ok w screen_df left Hleft)).
  erewrite bind_ok; [|unfold lift; rewrite Hm; reflexivity].
  reflexivity.
Qed.

(** The branch that computes the statistics. *)
Lemma compute_metrics_closed w screen_df labels_df labels left m y_true y_pred :
  Pandas.select labels_df ["record_id"; "label"] w = Ok (labels, w) ->
  frames w !! screen_df = Some left ->
  merge left labels = Ok m ->
  m <> [] ->
  cast_column astype_int "label" m = Ok y_true ->
  cast_column astype_int "screen_relevant" m = Ok y_pred ->
  compute_metrics astype_int merge rnd screen_df labels_df w
  = Ok (Metrics (metrics_of rnd y_true y_pred), w).
Proof.
  intros Hsel Hleft Hm Hne Ht Hp. unfold compute_metrics.
  rewrite (bind_ok _ _ _ _ _ Hsel).
  rewrite (bind_ok _ _ _ _ _ (read_ok w screen_df left Hleft)).
  erewrite bind_ok; [|unfold lift; rewrite Hm; reflexivity].
  destruct m as [|r0 m']; [contradiction|]. cbn [is_nil].
  unfold cast_column in Ht, Hp.
  erewrite bind_ok; [|unfold lift; rewrite Ht; reflexivity].
  erewrite bind_ok; [|unfold lift; rewrite Hp; reflexivity].
  erewrite bind_ok; [|unfold lift; rewrite guarded_precision; reflexivity].
  erewrite bind_ok; [|unfold lift; rewrite guarded_precision; reflexivity].
  erewrite bind_ok; [|unfold lift; rewrite guarded_f1; reflexivity].
  erewrite bind_ok; [|unfold lift; rewrite guarded_nnr; reflexivity].
  reflexivity.
Qed.

(** No division by zero, whatever the inputs and whatever the rounding. *)
Lemma compute_metrics_no_zero_division w screen_df labels_df :
  (forall v, astype_int v <> Raise ZeroDivisionError) ->
  (forall left labels, merge left labels <> Raise ZeroDivisionError) ->
  compute_metrics astype_int merge rnd screen_df labels_df w <> Raise ZeroDivisionError.
Proof.
  intros Hcast Hmerge.
  assert (Hbad : not_from_pandas ZeroDivisionError) by (split; [intros k|]; discriminate).
  revert w.
  change (avoids ZeroDivisionError (compute_metrics astype_int merge rnd screen_df labels_df)).
  unfold compute_metrics.
  apply avoids_bind; [now apply avoids_select|]. intros labels.
  apply avoids_bind; [now apply avoids_read|]. intros left.
  apply avoids_bind; [apply avoids_lift, Hmerge|].
  intros m. destruct (is_nil m); [apply avoids_ret|].
  assert (Hcol : forall k, avoids ZeroDivisionError
            (lift (map_result (fun r => match Pandas.row_at k r with
                                        | Ok v => astype_int v
                                        | Raise e => Raise e
                                        end) m))).
  { intros k. apply avoids_map_result. intros r.
    destruct (Pandas.row_at k r) eqn:E; [apply Hcast|].
    intros H. injection H as ->. now apply (row_at_avoids ZeroDivisionError k r). }
  apply avoids_bind; [apply Hcol|]. intros y_true.
  apply avoids_bind; [apply Hcol|]. intros y_pred.
  apply avoids_bind; [apply avoids_lift; now rewrite guarded_precision|]. intros p.
  apply avoids_bind; [apply avoids_lift; now rewrite guarded_precision|]. intros r.
  apply avoids_bind; [apply avoids_lift; now rewrite guarded_f1|]. intros f1.
  apply avoids_bind; [apply avoids_lift; now rewrite guarded_nnr|]. intros nnr.
  apply avoids_ret.
Qed.
End MetricsProofs.

(** The join of the library model raises no division error. *)
Lemma merge_inner_no_zero_division left labels :
  merge_inner left labels <> Raise ZeroDivisionError.
Proof.
  unfold merge_inner.
  destruct (map_result _ left) as [keys|e] eqn:E.
  - destruct (keys_mismatch _ _); discriminate.
  - intros H. injection H as ->.
    apply map_result_raise in E as [x [_ Hx]].
    now apply (row_at_avoids ZeroDivisionError "record_id" x.2).
Qed.

Lemma count_pairs_nonneg a b y_true y_pred : 0 <= count_pairs a b y_true y_pred.
Proof. unfold count_pairs. lia. Qed.

(** The statistics satisfy the guarded formulas. *)
Lemma metrics_of_formulas rnd y_true y_pred :
  guarded_statistics rnd y_true y_pred (metrics_of rnd y_true y_pred).
Proof.
  unfold guarded_statistics, metrics_of.
  cbn [m_tp m_fp m_fn m_tn m_precision m_recall m_f1 m_nnr].
  set (tp := count_pairs 1 1 y_true y_pred).
  set (fp := count_pairs 0 1 y_true y_pred).
  set (fn := count_pairs 1 0 y_true y_pred).
  set (p := if 0 <? tp + fp then _ else _).
  set (r := if 0 <? tp + fn then _ else _).
  repeat split.
  - intros H. subst p. now rewrite H.
  - intros H. subst p. now rewrite (proj2 (Z.ltb_lt _ _) H).
  - intros H. subst r. now rewrite H.
  - intros H. subst r. now rewrite (proj2 (Z.ltb_lt _ _) H).
  - intros H. destruct (Qlt_le_dec 0 (fadd rnd p r)) as [Hlt|Hle];
      [contradiction|reflexivity].
  - intros H. destruct (Qlt_le_dec 0 (fadd rnd p r)) as [Hlt|Hle]; [reflexivity|].
    exfalso. apply (Qlt_irrefl 0). eapply Qlt_le_trans; eassumption.
  - intros H. destruct (Qlt_le_dec 0 p) as [Hlt|Hle]; [reflexivity|].
    exfalso. apply (Qlt_irrefl 0). eapply Qlt_le_trans; eassumption.
  - intros H. destruct (Qlt_le_dec 0 p) as [Hlt|Hle]; [contradiction|reflexivity].
Qed.

(** C8: the evaluator never raises on a division, whatever the join and
    the cast do short of that and whatever the rounding of the floats;
    an empty join gives the no-overlap report; otherwise it reports the
    four counts, precision tp/(tp+fp) or 0.0, recall tp/(tp+fn) or 0.0,
    f1 2*precision*recall/(precision+recall) or 0.0, and nnr
    1/precision or nothing, each operation rounded as the floats round
    it and each default taken exactly when its guard fails. *)
Theorem compute_metrics_guarded astype_int merge rnd w screen_df labels_df :
  (forall v, astype_int v <> Raise ZeroDivisionError) ->
  (forall left labels, merge left labels <> Raise ZeroDivisionError) ->
  compute_metrics astype_int merge rnd screen_df labels_df w <> Raise ZeroDivisionError
  /\ forall labels left m,
       Pandas.select labels_df ["record_id"; "label"] w = Ok (labels, w) ->
       frames w !! screen_df = Some left ->
       merge left labels = Ok m ->
       (m = [] ->
        compute_metrics astype_int merge rnd screen_df labels_df w = Ok (no_overlap, w))
       /\ (m <> [] ->
           forall y_true y_pred,
             cast_column astype_int "label" m = Ok y_true ->
             cast_column astype_int "screen_relevant" m = Ok y_pred ->
             exists r,
               compute_metrics astype_int merge rnd screen_df labels_df w
               = Ok (Metrics r, w)
               /\ guarded_statistics rnd y_true y_pred r).
Proof.
  intros Hcast Hmerge. split; [now apply compute_metrics_no_zero_division|].
  intros labels left m Hsel Hleft Hm. split.
  - intros ->.
    now apply (compute_metrics_empty astype_int merge rnd w screen_df labels_df labels left).
  - intros Hne y_true y_pred Ht Hp. exists (metrics_of rnd y_true y_pred).
    split; [now apply (compute_metrics_closed astype_int merge rnd w screen_df labels_df
                         labels left m)|].
    apply metrics_of_formulas.
Qed.

Lemma compute_metrics_guarded_scenario_D :
  compute_metrics Pandas.astype_int merge_inner Float64.round 0%nat 1%nat scenario_D_world
  <> Raise ZeroDivisionError
  /\ (exists r,
        compute_metrics Pandas.astype_int merge_inner Float64.round 0%nat 1%nat
          scenario_D_world
        = Ok (Metrics r, scenario_D_world)
        /\ guarded_statistics Float64.round [1; 1; 0; 0] [1; 0; 0; 1] r)
  /\ compute_metrics Pandas.astype_int merge_inner Float64.round 0%nat 1%nat
       scenario_D_world
     = Ok (Metrics {| m_tp := 1; m_fp := 1; m_fn := 1; m_tn := 1;
                      m_precision := 1 # 2; m_recall := 1 # 2;
                      m_f1 := 1 # 2; m_nnr := Some 2%Q |},
           scenario_D_world).
Proof.
  assert (Hcast : forall v, Pandas.astype_int v <> Raise ZeroDivisionError)
    by (intros []; discriminate).
  destruct (compute_metrics_guarded Pandas.astype_int merge_inner Float64.round
              scenario_D_world 0%nat 1%nat Hcast merge_inner_no_zero_division)
    as [Hsafe Hreport].
  split; [exact Hsafe|]. split.
  - destruct (Hreport
                [ [("record_id", Str "a"); ("label", Int 1)];
                  [("record_id", Str "b"); ("label", Int 1)];
                  [("record_id", Str "c"); ("label", Int 0)];
                  [("record_id", Str "d"); ("label", Int 0)] ]
                [(0, [("record_id", Str "a"); ("screen_relevant", Bool true)]);
                 (1, [("record_id", Str "b"); ("screen_relevant", Bool false)]);
                 (2, [("record_id", Str "c"); ("screen_relevant", Bool false)]);
                 (3, [("record_id", Str "d"); ("screen_relevant", Bool true)])]
                scenario_D_joined) as [_ Hstats]; try reflexivity.
    apply Hstats; [discriminate|reflexivity|reflexivity].
  - vm_compute. reflexivity.
Defined.

(** ** Strings: case, stripping and words *)

Lemma isspace_lower_char c : PyStr.isspace (PyStr.lower_char c) = PyStr.isspace c.
Proof.
  destruct c as [[] [] [] [] [] [] [] []]; reflexivity.
Qed.

Lemma lower_lstrip s : PyStr.lower (PyStr.lstrip s) = PyStr.lstrip (PyStr.lower s).
Proof.
  induction s as [|c s IH]; simpl; [reflexivity|].
  rewrite isspace_lower_char. destruct (PyStr.isspace c); [exact IH|reflexivity].
Qed.

Lemma lower_rstrip s : PyStr.lower (PyStr.rstrip s) = PyStr.rstrip (PyStr.lower s).
Proof.
  induction s as [|c s IH]; simpl; [reflexivity|].
  rewrite <- IH, isspace_lower_char.
  destruct (PyStr.rstrip s); simpl; [|reflexivity].
  destruct (PyStr.isspace c); reflexivity.
Qed.

Lemma lower_strip s : PyStr.lower (PyStr.strip s) = PyStr.strip (PyStr.lower s).
Proof. unfold PyStr.strip. now rewrite lower_rstrip, lower_lstrip. Qed.

Lemma append_nil (b : string) : (EmptyString ++ b = b)%string.
Proof. reflexivity. Qed.

Lemma append_cons x (a b : string) : (String x a ++ b = String x (a ++ b))%string.
Proof. reflexivity. Qed.

Lemma append_assoc (a b c : string) : ((a ++ b) ++ c = a ++ (b ++ c))%string.
Proof.
  induction a as [|x a IH]; [reflexivity|]. rewrite !append_cons. now rewrite IH.
Qed.

Lemma append_empty_r (a : string) : (a ++ EmptyString = a)%string.
Proof.
  induction a as [|x a IH]; [reflexivity|]. rewrite append_cons. now rewrite IH.
Qed.

Lemma rev_string_acc acc s :
  PyStr.rev_string acc s = (PyStr.rev_string EmptyString s ++ acc)%string.
Proof.
  revert acc. induction s as [|c s IH]; intros acc; simpl; [reflexivity|].
  rewrite IH, (IH (String c EmptyString)).
  now rewrite append_assoc.
Qed.

(** [rstrip] leaves nothing exactly when [split] finds no word. *)
Lemma split_go_nil_iff s :
  PyStr.split_go EmptyString s = [] <-> PyStr.rstrip s = EmptyString.
Proof.
  assert (Hcur : forall s cur, cur <> EmptyString -> PyStr.split_go cur s <> []).
  { clear. induction s as [|c s IH]; intros cur Hcur; simpl.
    - destruct cur; [contradiction|discriminate].
    - destruct (PyStr.isspace c).
      + destruct cur; [contradiction|discriminate].
      + apply IH. discriminate. }
  induction s as [|c s IH]; simpl; [tauto|].
  destruct (PyStr.isspace c) eqn:E.
  - rewrite IH. destruct (PyStr.rstrip s); [tauto|]. split; discriminate.
  - split.
    + intros H. exfalso. revert H. apply Hcur. discriminate.
    + destruct (PyStr.rstrip s); discriminate.
Qed.

(** After a whitespace character, the rest collapses as if stripped on
    the left. *)
Lemma sub_ws_runs_after_space s :
  PyStr.sub_ws_runs true (PyStr.rstrip s)
  = PyStr.sub_ws_runs false (PyStr.rstrip (PyStr.lstrip s)).
Proof.
  induction s as [|c s IH]; simpl; [reflexivity|].
  destruct (PyStr.isspace c) eqn:E.
  - rewrite <- IH. destruct (PyStr.rstrip s); simpl; rewrite ?E; reflexivity.
  - simpl. destruct (PyStr.rstrip s); do 3 (simpl; rewrite ?E); reflexivity.
Qed.

Lemma join_cons sep x l :
  PyStr.join sep (x :: l)
  = match l with
    | [] => x
    | _ => (x ++ sep ++ PyStr.join sep l)%string
    end.
Proof. destruct l; reflexivity. Qed.

(** The words of a string, joined by one space, are the string stripped
    and with every whitespace run collapsed. *)
Lemma join_split_go s :
  (forall cur, cur <> EmptyString ->
     PyStr.join " " (PyStr.split_go cur s)
     = (PyStr.rev_string EmptyString cur
        ++ PyStr.sub_ws_runs false (PyStr.rstrip s))%string)
  /\ PyStr.join " " (PyStr.split_go EmptyString s)
     = PyStr.sub_ws_runs false (PyStr.strip s).
Proof.
  unfold PyStr.strip.
  induction s as [|c s [IHcur IHnil]].
  - split; [|reflexivity]. intros cur Hcur. simpl.
    destruct cur; [contradiction|]. simpl. now rewrite append_empty_r.
  - split.
    + intros cur Hcur. cbn [PyStr.split_go PyStr.rstrip].
      destruct (PyStr.isspace c) eqn:E.
      * destruct cur as [|c0 cur0]; [contradiction|].
        rewrite join_cons.
        destruct (PyStr.split_go EmptyString s) eqn:Es.
        -- apply split_go_nil_iff in Es. rewrite Es. simpl.
           now rewrite append_empty_r.
        -- rewrite IHnil.
           assert (Hr : PyStr.rstrip s <> EmptyString).
           { intros H. apply split_go_nil_iff in H. rewrite H in Es. discriminate. }
           destruct (PyStr.rstrip s) eqn:Er; [contradiction|].
           rewrite <- Er. cbn [PyStr.sub_ws_runs]. rewrite E.
           now rewrite sub_ws_runs_after_space.
      * rewrite IHcur by discriminate. simpl PyStr.rev_string.
        rewrite rev_string_acc.
        assert (Hs : match PyStr.rstrip s with
                     | EmptyString => String c EmptyString
                     | String a s0 => String c (String a s0)
                     end = String c (PyStr.rstrip s))
          by (destruct (PyStr.rstrip s); reflexivity).
        rewrite Hs. cbn [PyStr.sub_ws_runs]. rewrite E.
        now rewrite append_assoc.
    + cbn [PyStr.split_go PyStr.lstrip]. destruct (PyStr.isspace c) eqn:E.
      * exact IHnil.
      * rewrite IHcur by discriminate. cbn [PyStr.rstrip PyStr.rev_string].
        assert (Hs : match PyStr.rstrip s with
                     | EmptyString => String c EmptyString
                     | String a s0 => String c (String a s0)
                     end = String c (PyStr.rstrip s))
          by (destruct (PyStr.rstrip s); reflexivity).
        rewrite E, Hs. cbn [PyStr.sub_ws_runs]. rewrite E. reflexivity.
Qed.

Lemma join_split s :
  PyStr.join " " (PyStr.split s) = PyStr.sub_ws_runs false (PyStr.strip s).
Proof. apply join_split_go. Qed.

(** [norm_text] of a string is its lower-cased words joined by one
    space. *)
Lemma norm_text_words s :
  norm_text (Str s) = PyStr.join " " (PyStr.split (PyStr.lower s)).
Proof. unfold norm_text. now rewrite lower_strip, join_split. Qed.

Lemma split_nonempty_join s :
  PyStr.split s <> [] -> PyStr.truthy (PyStr.join " " (PyStr.split s)) = true.
Proof.
  intros H. rewrite join_split. unfold PyStr.split in H.
  assert (Hr : PyStr.rstrip s <> EmptyString)
    by (intros E; now apply split_go_nil_iff in E).
  clear H. unfold PyStr.strip.
  induction s as [|c s IH]; [contradiction|].
  simpl in *. destruct (PyStr.isspace c) eqn:E.
  - apply IH. destruct (PyStr.rstrip s); [|discriminate]. contradiction.
  - simpl. destruct (PyStr.rstrip s); do 3 (simpl; rewrite ?E); reflexivity.
Qed.

(** ** The identity resolver *)

Section ResolverProofs.
Variable sha1_hexdigest : string -> string.
Variable json_dumps : row -> string.

Lemma truthy_false s : PyStr.truthy s = false <-> s = EmptyString.
Proof. destruct s; simpl; split; congruence. Qed.

Lemma first_external_id_blank keys rec :
  Forall (fun k => blank_id k rec) keys -> first_external_id keys rec = None.
Proof.
  induction 1 as [|k keys Hk _ IH]; simpl; [reflexivity|].
  destruct (dict_get k rec) eqn:E; try exact IH.
  rewrite (Hk _ E). exact IH.
Qed.

Lemma first_external_id_hit pre key post rec v :
  Forall (fun k => blank_id k rec) pre ->
  dict_get key rec = Str v ->
  PyStr.strip v <> EmptyString ->
  first_external_id (pre ++ key :: post) rec = Some (key ++ ":" ++ PyStr.strip v)%string.
Proof.
  intros Hpre Hv Hne. induction Hpre as [|k pre Hk _ IH]; simpl.
  - rewrite Hv. destruct (PyStr.truthy (PyStr.strip v)) eqn:E; [reflexivity|].
    apply truthy_false in E. contradiction.
  - destruct (dict_get k rec) eqn:E; try exact IH.
    rewrite (Hk _ E). exact IH.
Qed.

Lemma make_record_id_external now_iso rec pre key post v :
  id_keys = pre ++ key :: post ->
  Forall (fun k => blank_id k rec) pre ->
  dict_get key rec = Str v ->
  PyStr.strip v <> EmptyString ->
  make_record_id sha1_hexdigest json_dumps now_iso rec
  = (key ++ ":" ++ PyStr.strip v)%string.
Proof.
  intros Hkeys Hpre Hv Hne. unfold make_record_id.
  now rewrite Hkeys, (first_external_id_hit pre key post rec v).
Qed.

Lemma make_record_id_title now_iso rec t :
  Forall (fun k => blank_id k rec) id_keys ->
  dict_get "title" rec = Str t ->
  title_words t <> [] ->
  make_record_id sha1_hexdigest json_dumps now_iso rec
  = ("titlehash:"
     ++ PyStr.take 16 (sha1_hexdigest (PyStr.join " " (title_words t))))%string.
Proof.
  intros Hblank Ht Hw. unfold make_record_id.
  rewrite first_external_id_blank by assumption.
  assert (Hd : dict_get_default "title" (Str EmptyString) rec = Str t).
  { unfold dict_get in Ht. unfold dict_get_default.
    destruct (row_get "title" rec); simpl in *; [assumption|discriminate]. }
  unfold title_words in *. rewrite Hd, norm_text_words.
  now rewrite (split_nonempty_join (PyStr.lower t) Hw).
Qed.

(** C6, as the code has it: two records whose first usable identifier
    field is the same field with the same trimmed value get the same ID,
    the field name, a colon and the trimmed value; two records without
    usable identifiers whose titles have the same case-folded words, at
    least one, get the same titlehash ID, built from the first 16 hex
    characters of SHA1 of the normalised title.  The clock is not
    consulted in either case. *)
Theorem make_record_id_deterministic now1 now2 r1 r2 :
  (forall pre key post v1 v2,
     id_keys = pre ++ key :: post ->
     Forall (fun k => blank_id k r1) pre ->
     Forall (fun k => blank_id k r2) pre ->
     dict_get key r1 = Str v1 ->
     dict_get key r2 = Str v2 ->
     PyStr.strip v1 = PyStr.strip v2 ->
     PyStr.strip v1 <> EmptyString ->
     make_record_id sha1_hexdigest json_dumps now1 r1
     = (key ++ ":" ++ PyStr.strip v1)%string
     /\ make_record_id sha1_hexdigest json_dumps now2 r2
        = make_record_id sha1_hexdigest json_dumps now1 r1)
  /\ (forall t1 t2,
        Forall (fun k => blank_id k r1) id_keys ->
        Forall (fun k => blank_id k r2) id_keys ->
        dict_get "title" r1 = Str t1 ->
        dict_get "title" r2 = Str t2 ->
        title_words t1 = title_words t2 ->
        title_words t1 <> [] ->
        norm_text (Str t1) = norm_text (Str t2)
        /\ make_record_id sha1_hexdigest json_dumps now1 r1
           = ("titlehash:" ++ PyStr.take 16 (sha1_hexdigest (norm_text (Str t1))))%string
        /\ make_record_id sha1_hexdigest json_dumps now2 r2
           = make_record_id sha1_hexdigest json_dumps now1 r1).
Proof.
  split.
  - intros pre key post v1 v2 Hkeys Hb1 Hb2 H1 H2 Heq Hne.
    rewrite (make_record_id_external now1 r1 pre key post v1) by assumption.
    rewrite (make_record_id_external now2 r2 pre key post v2);
      [now rewrite Heq|assumption..|now rewrite <- Heq].
  - intros t1 t2 Hb1 Hb2 H1 H2 Hw Hne.
    rewrite (make_record_id_title now1 r1 t1) by assumption.
    rewrite (make_record_id_title now2 r2 t2);
      [|assumption..|now rewrite <- Hw].
    rewrite !norm_text_words. fold (title_words t1) (title_words t2).
    now rewrite Hw.
Qed.
End ResolverProofs.

Lemma make_record_id_deterministic_examples :
  (make_record_id SHA1.hexdigest Json.dumps "2024-01-01T00:00:00Z" doi_record_1
   = "doi:10.1/x"%string
   /\ make_record_id SHA1.hexdigest Json.dumps "2025-06-30T12:00:00Z" doi_record_2
      = make_record_id SHA1.hexdigest Json.dumps "2024-01-01T00:00:00Z" doi_record_1)
  /\ (norm_text (Str " Deep  Learning ") = norm_text (Str "deep learning")
      /\ make_record_id SHA1.hexdigest Json.dumps "2024-01-01T00:00:00Z" title_record_1
         = ("titlehash:"
            ++ PyStr.take 16 (SHA1.hexdigest (norm_text (Str " Deep  Learning "))))%string
      /\ make_record_id SHA1.hexdigest Json.dumps "2025-06-30T12:00:00Z" title_record_2
         = make_record_id SHA1.hexdigest Json.dumps "2024-01-01T00:00:00Z" title_record_1).
Proof.
  split.
  - apply (proj1 (make_record_id_deterministic SHA1.hexdigest Json.dumps
                    "2024-01-01T00:00:00Z" "2025-06-30T12:00:00Z"
                    doi_record_1 doi_record_2)
             [] "doi"%string ["pmid"; "eid"; "wos_uid"]%string
             " 10.1/x "%string "10.1/x"%string);
      first [reflexivity | constructor | discriminate].
  - apply (proj2 (make_record_id_deterministic SHA1.hexdigest Json.dumps
                    "2024-01-01T00:00:00Z" "2025-06-30T12:00:00Z"
                    title_record_1 title_record_2)
             " Deep  Learning "%string "deep learning"%string);
      first [reflexivity | discriminate | idtac].
    + repeat constructor; intros v Hv; vm_compute in Hv; try discriminate;
        injection Hv as <-; reflexivity.
    + repeat constructor; intros v Hv; vm_compute in Hv; try discriminate;
        injection Hv as <-; reflexivity.
Defined.

(** C6 as stated fails on blank titles: two records without identifiers
    whose titles differ only in whitespace get different IDs at one and
    the same clock reading, and neither is built from the SHA1 of the
    normalised (empty) title. *)
Lemma blank_titles_get_distinct_ids :
  title_words EmptyString = title_words " "
  /\ make_record_id SHA1.hexdigest Json.dumps "2024-01-01T00:00:00Z"
       [("title", Str EmptyString)] = "titlehash:53553cb8964b58be"%string
  /\ make_record_id SHA1.hexdigest Json.dumps "2024-01-01T00:00:00Z"
       [("title", Str " ")] = "titlehash:6bbd70c9cf8ca7d5"%string
  /\ ("titlehash:" ++ PyStr.take 16 (SHA1.hexdigest (norm_text (Str " "))))%string
     = "titlehash:da39a3ee5e6b4b0d"%string.
Proof. repeat split; vm_compute; reflexivity. Qed.

(** ** Closed form of [deduplicate] *)

Section StoreLemmas2.
Variables (w : world) (df : ref) (d : DataFrame).
Hypothesis Hdf : frames w !! df = Some d.

Lemma select_ok keys :
  List.forallb (fun k => has_column k d) keys = true ->
  Pandas.select df keys w
  = Ok (List.map (fun ir : Z * row =>
                    List.map (fun k => (k, dict_get k ir.2)) keys) d, w).
Proof using Hdf.
  intros Hk. unfold Pandas.select. rewrite (bind_ok _ _ _ _ _ (read_ok w df d Hdf)).
  unfold lift.
  rewrite (map_result_ok _ (fun ir : Z * row =>
                              List.map (fun k => (k, dict_get k ir.2)) keys));
    [reflexivity|].
  apply List.Forall_forall. intros ir Hir. apply map_result_ok.
  apply List.Forall_forall. intros k Hkin.
  rewrite forallb_forall in Hk. specialize (Hk k Hkin).
  apply has_column_Forall in Hk. rewrite List.Forall_forall in Hk.
  now rewrite (row_at_dict_get k ir.2 (Hk ir Hir)).
Qed.

Lemma apply_rows_ok {A} (g : row -> A) :
  Pandas.apply_rows df (fun r => Ok (g r)) w
  = Ok (List.map (fun ir : Z * row => g ir.2) d, w).
Proof using Hdf.
  unfold Pandas.apply_rows. rewrite (bind_ok _ _ _ _ _ (read_ok w df d Hdf)).
  unfold lift. rewrite (map_result_ok _ (fun ir : Z * row => g ir.2)); [reflexivity|].
  now apply List.Forall_forall.
Qed.

Lemma drop_duplicates_ok k :
  has_column k d = true ->
  Pandas.drop_duplicates df k w
  = Ok (List.length (frames w),
        World (frames w ++ [Pandas.keep_first k [] d]) (files w)).
Proof using Hdf.
  intros Hk. unfold Pandas.drop_duplicates.
  rewrite (bind_ok _ _ _ _ _ (column_ok w df d Hdf k Hk)).
  now rewrite (bind_ok _ _ _ _ _ (read_ok w df d Hdf)).
Qed.

Lemma drop_columns_ok k :
  has_column k d = true ->
  Pandas.drop_columns df k w
  = Ok (List.length (frames w),
        World (frames w ++ [map_rows (Pandas.row_drop k) d]) (files w)).
Proof using Hdf.
  intros Hk. unfold Pandas.drop_columns.
  rewrite (bind_ok _ _ _ _ _ (column_ok w df d Hdf k Hk)).
  now rewrite (bind_ok _ _ _ _ _ (read_ok w df d Hdf)).
Qed.

Lemma sort_values_ok k1 k2 :
  has_column k1 d = true -> has_column k2 d = true ->
  string_column k1 d = true -> string_column k2 d = true ->
  Pandas.sort_values df k1 k2 w
  = Ok (List.length (frames w),
        World (frames w ++ [insertion_sort (Pandas.rows_leb k1 k2) d]) (files w)).
Proof using Hdf.
  intros H1 H2 Hs1 Hs2. unfold Pandas.sort_values.
  rewrite (bind_ok _ _ _ _ _ (column_ok w df d Hdf k1 H1)).
  rewrite (bind_ok _ _ _ _ _ (column_ok w df d Hdf k2 H2)).
  erewrite bind_ok.
  2:{ unfold lift. rewrite (map_result_ok _ (fun _ => tt)); [reflexivity|].
      apply Forall_app. split; apply Forall_map;
        [apply string_column_Forall in Hs1 as H|apply string_column_Forall in Hs2 as H];
        (eapply Forall_impl; [exact H|]); intros ir Hir; simpl in *;
        unfold Pandas.sortable; destruct (dict_get _ ir.2); try contradiction; reflexivity. }
  now rewrite (bind_ok _ _ _ _ _ (read_ok w df d Hdf)).
Qed.

Lemma index_ok : Pandas.index df w = Ok (List.map fst d, w).
Proof using Hdf.
  unfold Pandas.index. now rewrite (bind_ok _ _ _ _ _ (read_ok w df d Hdf)).
Qed.

Lemma drop_index_ok labels :
  Pandas.drop_index df labels w
  = Ok (List.length (frames w),
        World (frames w
               ++ [List.filter (fun ir : Z * row => negb (bool_decide (ir.1 ∈ labels))) d])
              (files w)).
Proof using Hdf.
  unfold Pandas.drop_index. now rewrite (bind_ok _ _ _ _ _ (read_ok w df d Hdf)).
Qed.
End StoreLemmas2.

Lemma store_lookup_insert (l : list DataFrame) df d d' :
  l !! df = Some d -> <[df := d']> l !! df = Some d'.
Proof. intros H. apply list_lookup_insert_eq. now apply lookup_lt_Some in H. Qed.

(** ** Lists: sublists, filters and the insertion sort *)

Lemma sublist_Forall {A} (P : A -> Prop) (l1 l2 : list A) :
  sublist l1 l2 -> Forall P l2 -> Forall P l1.
Proof.
  induction 1 as [|x l1 l2 _ IH|x l1 l2 _ IH]; intros H; [constructor| |].
  - inversion H; subst. constructor; auto.
  - inversion H; subst. auto.
Qed.

Lemma sublist_StronglySorted {A} (R : A -> A -> Prop) (l1 l2 : list A) :
  sublist l1 l2 -> StronglySorted R l2 -> StronglySorted R l1.
Proof.
  induction 1 as [|x l1 l2 Hs IH|x l1 l2 Hs IH]; intros H; [constructor| |].
  - inversion H; subst. constructor; [auto|]. now apply (sublist_Forall _ _ _ Hs).
  - inversion H; subst. auto.
Qed.

Lemma lfilter_sublist {A} (f : A -> bool) (l : list A) : sublist (List.filter f l) l.
Proof.
  induction l as [|x l IH]; simpl; [constructor|].
  destruct (f x); now constructor.
Qed.

Lemma lfilter_id {A} (f : A -> bool) (l : list A) :
  Forall (fun x => f x = true) l -> List.filter f l = l.
Proof.
  induction 1 as [|x l Hx _ IH]; simpl; [reflexivity|]. now rewrite Hx, IH.
Qed.

Lemma lfilter_length_mono {A} (f g : A -> bool) (l : list A) :
  (forall x, f x = true -> g x = true) ->
  (List.length (List.filter f l) <= List.length (List.filter g l))%nat.
Proof.
  intros H. induction l as [|x l IH]; simpl; [lia|].
  destruct (f x) eqn:E.
  - rewrite (H x E). simpl. lia.
  - destruct (g x); simpl; lia.
Qed.

Section SortLemmas.
Context {A : Type} (le : A -> A -> bool).

Lemma insert_sorted_Permutation x l : insert_sorted le x l ≡ₚ x :: l.
Proof.
  induction l as [|y l IH]; simpl; [reflexivity|].
  destruct (le x y); [reflexivity|]. rewrite IH. apply perm_swap.
Qed.

Lemma insertion_sort_Permutation l : insertion_sort le l ≡ₚ l.
Proof.
  induction l as [|x l IH]; simpl; [reflexivity|].
  now rewrite insert_sorted_Permutation, IH.
Qed.

Hypothesis le_total : forall a b, le a b = true \/ le b a = true.
Hypothesis le_trans : forall a b c, le a b = true -> le b c = true -> le a c = true.

Lemma insert_sorted_sorted x l :
  StronglySorted (fun a b => le a b = true) l ->
  StronglySorted (fun a b => le a b = true) (insert_sorted le x l).
Proof using le_total le_trans.
  induction 1 as [|y l Hs IH Hy]; simpl; [repeat constructor|].
  destruct (le x y) eqn:E.
  - constructor; [now constructor|]. constructor; [assumption|].
    eapply Forall_impl; [exact Hy|]. intros z Hz. now apply (le_trans x y z).
  - constructor; [assumption|].
    rewrite (insert_sorted_Permutation x l). constructor; [|assumption].
    destruct (le_total x y) as [H|H]; [congruence|assumption].
Qed.

Lemma insertion_sort_sorted l :
  StronglySorted (fun a b => le a b = true) (insertion_sort le l).
Proof using le_total le_trans.
  induction l as [|x l IH]; simpl; [constructor|]. now apply insert_sorted_sorted.
Qed.
End SortLemmas.

(** A sorted list is left as it is. *)
Lemma insertion_sort_id {A} (le : A -> A -> bool) (l : list A) :
  StronglySorted (fun a b => le a b = true) l -> insertion_sort le l = l.
Proof.
  induction 1 as [|x l Hs IH Hx]; simpl; [reflexivity|].
  rewrite IH. destruct l as [|y l]; [reflexivity|].
  simpl. inversion Hx; subst. now rewrite H1.
Qed.

(** Sorting commutes with a map that respects the order. *)
Lemma insertion_sort_map {A B} (le : A -> A -> bool) (le' : B -> B -> bool)
    (f : A -> B) (l : list A) :
  (forall a b, le' (f a) (f b) = le a b) ->
  insertion_sort le' (List.map f l) = List.map f (insertion_sort le l).
Proof.
  intros Hf. induction l as [|x l IH]; simpl; [reflexivity|].
  rewrite IH. generalize (insertion_sort le l) as s. clear IH.
  induction s as [|y s IHs]; simpl; [reflexivity|].
  rewrite Hf. destruct (le x y); simpl; [reflexivity|]. now rewrite IHs.
Qed.

(** ** The sort order of the fuzzy-title pass *)

Lemma string_compare_refl s : String.compare s s = Eq.
Proof.
  destruct (String.compare s s) eqn:E; [reflexivity| |];
    pose proof (String.compare_antisym s s) as H; rewrite E in H; discriminate.
Qed.

Lemma string_leb_compare a b :
  String.leb a b = true <-> String.compare a b <> Gt.
Proof.
  unfold String.leb. destruct (String.compare a b); split; congruence.
Qed.

Lemma string_leb_trans a b c :
  String.leb a b = true -> String.leb b c = true -> String.leb a c = true.
Proof.
  intros H1 H2. apply Is_true_true. apply Is_true_true in H1, H2.
  change (String.le a c). change (String.le a b) in H1. change (String.le b c) in H2.
  now transitivity b.
Qed.

Lemma string_compare_lt_trans a b c :
  String.compare a b = Lt -> String.compare b c <> Gt -> String.compare a c = Lt.
Proof.
  intros H1 H2.
  assert (Hac : String.compare a c <> Gt).
  { apply string_leb_compare. apply (string_leb_trans a b c); apply string_leb_compare;
      [congruence|assumption]. }
  destruct (String.compare a c) eqn:E; [|reflexivity|congruence].
  apply String.compare_eq_iff in E. subst c.
  pose proof (String.compare_antisym a b) as H. rewrite H1 in H.
  destruct (String.compare b a); simpl in H; congruence.
Qed.

Lemma string_compare_le_lt_trans a b c :
  String.compare a b <> Gt -> String.compare b c = Lt -> String.compare a c = Lt.
Proof.
  intros H1 H2. destruct (String.compare a b) eqn:E; [| |congruence].
  - apply String.compare_eq_iff in E. now subst b.
  - apply (string_compare_lt_trans a b c); congruence.
Qed.

Lemma cell_compare_antisym a b :
  Pandas.cell_compare a b = CompOpp (Pandas.cell_compare b a).
Proof.
  destruct a, b; simpl; try reflexivity. apply String.compare_antisym.
Qed.

Lemma cell_compare_trans a b c :
  Pandas.cell_compare a b <> Gt -> Pandas.cell_compare b c <> Gt ->
  Pandas.cell_compare a c <> Gt.
Proof.
  destruct a, b, c; simpl; try congruence.
  intros H1 H2. apply string_leb_compare.
  apply (string_leb_trans _ s0); now apply string_leb_compare.
Qed.

Lemma sort_key_leb_total a b : sort_key_leb a b = true \/ sort_key_leb b a = true.
Proof.
  unfold sort_key_leb.
  rewrite (String.compare_antisym (title_norm (dict_get "title" a.2))).
  rewrite (cell_compare_antisym (dict_get "source" a.2)).
  destruct (String.compare _ _); simpl; auto.
  destruct (Pandas.cell_compare _ _); simpl; auto.
Qed.

Lemma sort_key_leb_trans a b c :
  sort_key_leb a b = true -> sort_key_leb b c = true -> sort_key_leb a c = true.
Proof.
  unfold sort_key_leb.
  destruct (String.compare (title_norm (dict_get "title" a.2))
                           (title_norm (dict_get "title" b.2))) eqn:Eab; [| |discriminate].
  - apply String.compare_eq_iff in Eab. rewrite Eab.
    destruct (String.compare (title_norm (dict_get "title" b.2))
                             (title_norm (dict_get "title" c.2))); [| |discriminate]; auto.
    intros H1 H2.
    assert (H : Pandas.cell_compare (dict_get "source" a.2) (dict_get "source" c.2) <> Gt).
    { apply (cell_compare_trans _ (dict_get "source" b.2)).
      - destruct (Pandas.cell_compare _ (dict_get "source" b.2)); congruence.
      - destruct (Pandas.cell_compare (dict_get "source" b.2) _); congruence. }
    destruct (Pandas.cell_compare (dict_get "source" a.2) (dict_get "source" c.2));
      congruence.
  - intros _ H.
    rewrite (string_compare_lt_trans _ _ _ Eab); [reflexivity|].
    destruct (String.compare (title_norm (dict_get "title" b.2))
                             (title_norm (dict_get "title" c.2))); congruence.
Qed.

Lemma rows_leb_set_title_norm a b :
  Pandas.rows_leb "__title_norm" "source" (set_title_norm a) (set_title_norm b)
  = sort_key_leb a b.
Proof.
  unfold Pandas.rows_leb, set_title_norm, sort_key_leb. simpl. row_simpl. reflexivity.
Qed.

Lemma fuzzy_sorted_eq d :
  fuzzy_sorted d = List.map set_title_norm (insertion_sort sort_key_leb d).
Proof.
  unfold fuzzy_sorted, with_title_norm.
  apply (insertion_sort_map sort_key_leb _ set_title_norm).
  apply rows_leb_set_title_norm.
Qed.

(** ** Columns of derived frames *)

Lemma has_column_iff k d :
  has_column k d = true <-> Forall (fun ir : Z * row => is_Some (row_get k ir.2)) d.
Proof.
  split; [apply has_column_Forall|].
  intros H. unfold has_column. apply forallb_forall. intros x Hx.
  rewrite List.Forall_forall in H. apply bool_decide_eq_true. now apply H.
Qed.

Lemma string_column_iff k d :
  string_column k d = true
  <-> Forall (fun ir : Z * row =>
                match dict_get k ir.2 with Str _ | Null => True | _ => False end) d.
Proof.
  split; [apply string_column_Forall|].
  intros H. unfold string_column. apply forallb_forall. intros x Hx.
  rewrite List.Forall_forall in H. specialize (H x Hx).
  now destruct (dict_get k x.2).
Qed.

Lemma has_column_sublist k d1 d2 :
  sublist d1 d2 -> has_column k d2 = true -> has_column k d1 = true.
Proof. rewrite !has_column_iff. apply sublist_Forall. Qed.

Lemma has_column_perm k d1 d2 :
  d1 ≡ₚ d2 -> has_column k d2 = true -> has_column k d1 = true.
Proof. rewrite !has_column_iff. intros H. now rewrite H. Qed.

Lemma string_column_sublist k d1 d2 :
  sublist d1 d2 -> string_column k d2 = true -> string_column k d1 = true.
Proof. rewrite !string_column_iff. apply sublist_Forall. Qed.

Lemma string_column_perm k d1 d2 :
  d1 ≡ₚ d2 -> string_column k d2 = true -> string_column k d1 = true.
Proof. rewrite !string_column_iff. intros H. now rewrite H. Qed.

Lemma has_column_map_if k (h : Z * row -> Z * row) d :
  (forall ir, is_Some (row_get k ir.2) -> is_Some (row_get k (h ir).2)) ->
  has_column k d = true -> has_column k (List.map h d) = true.
Proof.
  intros Hh. rewrite !has_column_iff, Forall_map.
  intros H. eapply Forall_impl; [exact H|]. intros ir. apply Hh.
Qed.

Lemma string_column_map_if k (h : Z * row -> Z * row) d :
  (forall ir, dict_get k (h ir).2 = dict_get k ir.2) ->
  string_column k d = true -> string_column k (List.map h d) = true.
Proof.
  intros Hh. rewrite !string_column_iff, Forall_map.
  intros H. eapply Forall_impl; [exact H|]. intros ir. simpl. now rewrite Hh.
Qed.

Lemma keep_first_sublist k seen d : sublist (Pandas.keep_first k seen d) d.
Proof.
  revert seen. induction d as [|[i r] d IH]; intros seen; simpl; [constructor|].
  destruct (List.existsb _ seen); constructor; apply IH.
Qed.

Lemma combine_map {A B C} (f : A -> B) (g : A -> C) (l : list A) :
  List.combine (List.map f l) (List.map g l) = List.map (fun x => (f x, g x)) l.
Proof. induction l; simpl; congruence. Qed.

(** ** The two passes, run on the store *)

Lemma exact_key_pass_spec w df d :
  frames w !! df = Some d ->
  exists out w',
    exact_key_pass df w = Ok (out, w')
    /\ frames w' !! out
       = Some (map_rows (Pandas.row_drop "__idkey")
                 (Pandas.keep_first "__idkey" [] (with_idkey d)))
    /\ frames w' !! df = Some (with_idkey d)
    /\ out <> df
    /\ files w' = files w.
Proof.
  intros Hdf. unfold exact_key_pass.
  rewrite (bind_ok _ _ _ _ _ (apply_rows_ok w df d Hdf (first_nonblank id_keys))).
  rewrite (bind_ok _ _ _ _ _ (set_column_ok w df d Hdf _ _)).
  rewrite set_cells_rows. fold (with_idkey d).
  assert (Hdf1 : <[df := with_idkey d]> (frames w) !! df = Some (with_idkey d))
    by now apply (store_lookup_insert _ _ d).
  erewrite bind_ok.
  2:{ apply (drop_duplicates_ok _ df (with_idkey d)); [exact Hdf1|].
      apply has_column_map. intros ir. simpl. row_simpl. now eexists. }
  simpl frames. simpl files.
  eexists _, _. split.
  { apply (drop_columns_ok _ _ (Pandas.keep_first "__idkey" [] (with_idkey d)));
      [apply store_lookup_last|].
    eapply has_column_sublist; [apply keep_first_sublist|].
    apply has_column_map. intros ir. simpl. row_simpl. now eexists. }
  simpl frames. simpl files. split; [apply store_lookup_last|].
  apply lookup_lt_Some in Hdf as Hlt.
  split; [|split; [|reflexivity]].
  - rewrite !lookup_app_l; [exact Hdf1| |];
      rewrite ?length_app, ?length_insert; simpl; lia.
  - rewrite ?length_app, ?length_insert. simpl. lia.
Qed.

Lemma fuzzy_title_pass_spec token_set_ratio fuzzy_threshold w df d :
  frames w !! df = Some d ->
  has_column "title" d = true ->
  has_column "source" d = true ->
  string_column "source" d = true ->
  exists out w',
    fuzzy_title_pass token_set_ratio fuzzy_threshold df w = Ok (out, w')
    /\ frames w' !! out = Some (fuzzy_rows token_set_ratio fuzzy_threshold d)
    /\ frames w' !! df = Some (with_title_norm d)
    /\ (forall r, r <> df -> (r < List.length (frames w))%nat ->
          frames w' !! r = frames w !! r)
    /\ files w' = files w.
Proof.
  intros Hdf Ht Hs Hss. unfold fuzzy_title_pass.
  rewrite (bind_ok _ _ _ _ _ (column_ok w df d Hdf _ Ht)).
  rewrite (bind_ok _ _ _ _ _ (set_column_ok w df d Hdf _ _)).
  rewrite List.map_map, set_cells_rows. fold (with_title_norm d).
  assert (Hdf1 : <[df := with_title_norm d]> (frames w) !! df = Some (with_title_norm d))
    by now apply (store_lookup_insert _ _ d).
  assert (Htn : has_column "__title_norm" (with_title_norm d) = true).
  { apply has_column_map. intros ir. simpl. row_simpl. now eexists. }
  erewrite bind_ok.
  2:{ apply (sort_values_ok _ df (with_title_norm d)); [exact Hdf1|exact Htn| | |].
      - apply has_column_map_if; [|exact Hs]. intros ir. simpl. now row_simpl.
      - apply string_column_iff, Forall_map, Forall_forall. intros ir _. simpl.
        now row_simpl.
      - apply string_column_map_if; [|exact Hss]. intros ir. simpl. now row_simpl. }
  simpl frames. simpl files. fold (fuzzy_sorted d).
  erewrite bind_ok; [|apply (index_ok _ _ (fuzzy_sorted d)); apply store_lookup_last].
  erewrite bind_ok.
  2:{ apply (column_ok _ _ (fuzzy_sorted d)); [apply store_lookup_last|].
      eapply has_column_perm; [apply insertion_sort_Permutation|exact Htn]. }
  rewrite List.map_map, combine_map. fold (bucket_items (fuzzy_sorted d)).
  fold (fuzzy_drop token_set_ratio fuzzy_threshold d).
  erewrite bind_ok;
    [|apply (drop_index_ok _ _ (fuzzy_sorted d)); apply store_lookup_last].
  simpl frames. simpl files.
  eexists _, _. split.
  { apply drop_columns_ok with
      (d := List.filter (fun ir : Z * row =>
              negb (bool_decide (ir.1 ∈ fuzzy_drop token_set_ratio fuzzy_threshold d)))
              (fuzzy_sorted d)); [apply store_lookup_last|].
    eapply has_column_sublist; [apply lfilter_sublist|].
    eapply has_column_perm; [apply insertion_sort_Permutation|exact Htn]. }
  simpl frames. simpl files. split; [apply store_lookup_last|].
  apply lookup_lt_Some in Hdf as Hlt.
  split; [|split; [|reflexivity]].
  - rewrite !lookup_app_l; [exact Hdf1|..];
      rewrite ?length_app, ?length_insert; simpl; lia.
  - intros r Hne Hr.
    rewrite !lookup_app_l; [now apply list_lookup_insert_ne|..];
      rewrite ?length_app, ?length_insert; simpl; lia.
Qed.

Lemma existsb_mask (sub : list row) :
  List.existsb id (List.map has_external_id sub) = List.existsb has_external_id sub.
Proof. induction sub; simpl; congruence. Qed.

Lemma has_external_id_select r :
  has_external_id (List.map (fun k => (k, dict_get k r)) id_keys) = has_external_id r.
Proof. reflexivity. Qed.

Lemma dedup_ready_columns d :
  dedup_ready d = true ->
  List.forallb (fun k => has_column k d) id_keys = true
  /\ has_column "title" d = true /\ has_column "source" d = true
  /\ string_column "source" d = true.
Proof.
  unfold dedup_ready. rewrite !andb_true_iff. tauto.
Qed.

(** The rows the exact-key pass leaves have the columns of the input. *)
Lemma exact_rows_columns k d :
  k <> "__idkey"%string ->
  has_column k d = true -> has_column k (exact_rows d) = true.
Proof.
  intros Hk H. unfold exact_rows.
  destruct (List.existsb _ d); [|exact H].
  unfold map_rows. apply has_column_map_if.
  { intros ir. simpl. now rewrite row_get_drop_ne. }
  eapply has_column_sublist; [apply keep_first_sublist|].
  unfold with_idkey. apply has_column_map_if; [|exact H].
  intros ir. simpl. now rewrite row_get_set_ne.
Qed.

Lemma exact_rows_string_column k d :
  k <> "__idkey"%string ->
  string_column k d = true -> string_column k (exact_rows d) = true.
Proof.
  intros Hk H. unfold exact_rows.
  destruct (List.existsb _ d); [|exact H].
  unfold map_rows. apply string_column_map_if.
  { intros ir. simpl. now rewrite dict_get_drop_ne. }
  eapply string_column_sublist; [apply keep_first_sublist|].
  unfold with_idkey. apply string_column_map_if; [|exact H].
  intros ir. simpl. now rewrite dict_get_set_ne.
Qed.

Lemma existsb_mask_rows (d : DataFrame) :
  List.existsb id
    (List.map has_external_id
       (List.map (fun ir : Z * row => List.map (fun k => (k, dict_get k ir.2)) id_keys) d))
  = List.existsb (fun ir : Z * row => has_external_id ir.2) d.
Proof.
  induction d as [|ir d IH]; [reflexivity|].
  cbn [List.map List.existsb]. rewrite IH. now rewrite has_external_id_select.
Qed.

(** [deduplicate] on a frame with the columns it reads: what it returns,
    and what it leaves in the frame it was given. *)
Lemma deduplicate_spec token_set_ratio fuzzy_threshold w df d :
  frames w !! df = Some d ->
  dedup_ready d = true ->
  exists out w',
    deduplicate token_set_ratio fuzzy_threshold df w
    = Ok ((out, Z.of_nat (List.length d)
                - Z.of_nat (List.length (dedup_rows token_set_ratio fuzzy_threshold d))), w')
    /\ frames w' !! out = Some (dedup_rows token_set_ratio fuzzy_threshold d)
    /\ frames w' !! df = Some (caller_after d)
    /\ files w' = files w.
Proof.
  intros Hdf Hready.
  destruct (dedup_ready_columns d Hready) as (Hids & Ht & Hs & Hss).
  unfold deduplicate.
  rewrite (bind_ok _ _ _ _ _ (len_ok w df d Hdf)).
  rewrite (bind_ok _ _ _ _ _ (select_ok w df d Hdf _ Hids)).
  rewrite existsb_mask_rows.
  unfold dedup_rows, caller_after, exact_rows.
  destruct (List.existsb (fun ir : Z * row => has_external_id ir.2) d) eqn:Eany.
  - destruct (exact_key_pass_spec w df d Hdf) as (o1 & w1 & Hrun1 & Ho1 & Hdf1 & Hne & Hf1).
    rewrite (bind_ok _ _ _ _ _ Hrun1).
    pose proof (exact_rows_columns "title" d ltac:(discriminate) Ht) as Ht'.
    pose proof (exact_rows_columns "source" d ltac:(discriminate) Hs) as Hs'.
    pose proof (exact_rows_string_column "source" d ltac:(discriminate) Hss) as Hss'.
    unfold exact_rows in Ht', Hs', Hss'. rewrite Eany in Ht', Hs', Hss'.
    destruct (fuzzy_title_pass_spec token_set_ratio fuzzy_threshold w1 o1 _ Ho1 Ht' Hs' Hss')
      as (o2 & w2 & Hrun2 & Ho2 & _ & Hkeep & Hf2).
    rewrite (bind_ok _ _ _ _ _ Hrun2).
    rewrite (bind_ok _ _ _ _ _ (len_ok w2 o2 _ Ho2)).
    eexists _, _. split; [reflexivity|]. split; [exact Ho2|].
    split; [|congruence].
    rewrite Hkeep; [exact Hdf1|congruence|]. now apply lookup_lt_Some in Hdf1.
  - unfold mret at 1, M_ret at 1.
    destruct (fuzzy_title_pass_spec token_set_ratio fuzzy_threshold w df d Hdf Ht Hs Hss)
      as (o2 & w2 & Hrun2 & Ho2 & Hdf2 & _ & Hf2).
    erewrite bind_ok; [|reflexivity].
    rewrite (bind_ok _ _ _ _ _ Hrun2).
    rewrite (bind_ok _ _ _ _ _ (len_ok w2 o2 _ Ho2)).
    eexists _, _. split; [reflexivity|]. auto.
Qed.

(** ** The duplicate detector on concrete frames *)

(** C1 fails on the code: once one record has an external identifier,
    all records without one share the empty key, and the exact-key pass
    keeps only the first of them.  The third record below has no
    identifier and a title of its own, and is dropped. *)
Lemma exact_pass_drops_record_without_id :
  has_external_id (bib_row "scopus" "Beta trial" EmptyString) = false
  /\ has_external_id (bib_row "wos" "Gamma review" EmptyString) = false
  /\ exact_rows one_doi_two_bare
     = [(0, bib_row "pubmed" "Alpha study" "10.1/x");
        (1, bib_row "scopus" "Beta trial" EmptyString)]
  /\ exact_rows two_bare = two_bare
  /\ exists out w',
       deduplicate Fuzz.token_set_ratio 95 0%nat (World [one_doi_two_bare] ∅)
       = Ok ((out, 1), w')
       /\ frames w' !! out
          = Some [(0, bib_row "pubmed" "Alpha study" "10.1/x");
                  (1, bib_row "scopus" "Beta trial" EmptyString)].
Proof.
  split; [reflexivity|]. split; [reflexivity|].
  split; [vm_compute; reflexivity|]. split; [vm_compute; reflexivity|].
  eexists _, _. split; [vm_compute; reflexivity|]. reflexivity.
Qed.

(** C3 fails on the code: the frame the caller passed holds a scratch
    column after the call, the key column when some record has an
    external identifier and the normalised titles otherwise. *)
Lemma deduplicate_mutates_caller_frame :
  (exists out w',
      deduplicate Fuzz.token_set_ratio 95 0%nat (World [one_doi_two_bare] ∅)
      = Ok ((out, 1), w')
      /\ frames w' !! 0%nat
         = Some [(0, bib_row "pubmed" "Alpha study" "10.1/x" ++ [("__idkey", Str "10.1/x")]);
                 (1, bib_row "scopus" "Beta trial" EmptyString
                       ++ [("__idkey", Str EmptyString)]);
                 (2, bib_row "wos" "Gamma review" EmptyString
                       ++ [("__idkey", Str EmptyString)])])
  /\ (exists out w',
      deduplicate Fuzz.token_set_ratio 95 0%nat (World [two_bare] ∅) = Ok ((out, 0), w')
      /\ frames w' !! 0%nat
         = Some [(0, bib_row "scopus" "Beta trial" EmptyString
                       ++ [("__title_norm", Str "beta trial")]);
                 (1, bib_row "wos" "Gamma review" EmptyString
                       ++ [("__title_norm", Str "gamma review")])]).
Proof.
  split; eexists _, _; (split; [vm_compute; reflexivity|reflexivity]).
Qed.

(** On every frame the caller's object ends as [caller_after] says. *)
Lemma deduplicate_caller_frame token_set_ratio fuzzy_threshold w df d :
  frames w !! df = Some d ->
  dedup_ready d = true ->
  exists res w',
    deduplicate token_set_ratio fuzzy_threshold df w = Ok (res, w')
    /\ frames w' !! df = Some (caller_after d).
Proof.
  intros Hdf Hready.
  destruct (deduplicate_spec token_set_ratio fuzzy_threshold w df d Hdf Hready)
    as (out & w' & Hrun & _ & Hcaller & _).
  eauto.
Qed.

(** ** Scratch columns and the columns the detector reads *)

Lemma row_drop_set k v r :
  Pandas.row_drop k (Pandas.row_set k v r) = Pandas.row_drop k r.
Proof.
  unfold Pandas.row_drop. induction r as [|[k' v'] r IH]; simpl.
  - now rewrite String.eqb_refl.
  - destruct (String.eqb k k') eqn:E; simpl.
    + now rewrite String.eqb_refl.
    + now rewrite E, IH.
Qed.

Lemma row_drop_absent k r : row_get k r = None -> Pandas.row_drop k r = r.
Proof.
  unfold Pandas.row_drop. induction r as [|[k' v'] r IH]; simpl; [reflexivity|].
  destruct (String.eqb k k') eqn:E; [discriminate|]. simpl. intros H. now rewrite IH.
Qed.

Lemma row_drop_idem k r : Pandas.row_drop k (Pandas.row_drop k r) = Pandas.row_drop k r.
Proof. apply row_drop_absent, row_get_drop_eq. Qed.

Lemma keeps_clean k :
  k = "__idkey"%string \/ k = "__title_norm"%string -> keeps_read_columns (clean k).
Proof.
  intros Hk ir. split; [reflexivity|]. intros k' H1 H2. simpl.
  apply row_get_drop_ne. destruct Hk; congruence.
Qed.

Lemma keeps_set_idkey : keeps_read_columns set_idkey.
Proof.
  intros ir. split; [reflexivity|]. intros k' H1 H2. simpl. now apply row_get_set_ne.
Qed.

Lemma keeps_set_title_norm : keeps_read_columns set_title_norm.
Proof.
  intros ir. split; [reflexivity|]. intros k' H1 H2. simpl. now apply row_get_set_ne.
Qed.

Section KeepsReadColumns.
Variable f : Z * row -> Z * row.
Hypothesis Hf : keeps_read_columns f.

Lemma keeps_dict_get k ir :
  k <> "__idkey"%string -> k <> "__title_norm"%string ->
  dict_get k (f ir).2 = dict_get k ir.2.
Proof using Hf. intros H1 H2. unfold dict_get. now rewrite (proj2 (Hf ir) k H1 H2). Qed.

Lemma keeps_first_nonblank ir :
  first_nonblank id_keys (f ir).2 = first_nonblank id_keys ir.2.
Proof using Hf.
  unfold id_keys. cbn [first_nonblank].
  rewrite !keeps_dict_get by discriminate. reflexivity.
Qed.

Lemma keeps_idkey_str ir : idkey_str (f ir) = idkey_str ir.
Proof using Hf. unfold idkey_str. now rewrite keeps_first_nonblank. Qed.

Lemma keeps_has_external_id ir : has_external_id (f ir).2 = has_external_id ir.2.
Proof using Hf.
  unfold has_external_id, id_keys. cbn [List.existsb].
  rewrite !keeps_dict_get by discriminate. reflexivity.
Qed.

Lemma keeps_item_of ir : item_of (f ir) = item_of ir.
Proof using Hf.
  unfold item_of. rewrite keeps_dict_get by discriminate. now rewrite (proj1 (Hf ir)).
Qed.

Lemma keeps_sort_key_leb a b : sort_key_leb (f a) (f b) = sort_key_leb a b.
Proof using Hf.
  unfold sort_key_leb. rewrite !keeps_dict_get by discriminate. reflexivity.
Qed.

Lemma keeps_sort l :
  insertion_sort sort_key_leb (List.map f l) = List.map f (insertion_sort sort_key_leb l).
Proof using Hf. apply insertion_sort_map. apply keeps_sort_key_leb. Qed.

Lemma keeps_has_column k d :
  k <> "__idkey"%string -> k <> "__title_norm"%string ->
  has_column k d = true -> has_column k (List.map f d) = true.
Proof using Hf.
  intros H1 H2. apply has_column_map_if. intros ir. now rewrite (proj2 (Hf ir) k H1 H2).
Qed.

Lemma keeps_string_column k d :
  k <> "__idkey"%string -> k <> "__title_norm"%string ->
  string_column k d = true -> string_column k (List.map f d) = true.
Proof using Hf.
  intros H1 H2. apply string_column_map_if. intros ir. now apply keeps_dict_get.
Qed.
End KeepsReadColumns.

Lemma first_nonblank_Str keys r : exists s, first_nonblank keys r = Str s.
Proof.
  induction keys as [|k keys IH]; simpl; [now eexists|].
  destruct (nonblank_str (dict_get k r)) eqn:E; [|exact IH].
  destruct (dict_get k r); try discriminate. now eexists.
Qed.

Lemma first_nonblank_idkey_str ir : first_nonblank id_keys ir.2 = Str (idkey_str ir).
Proof.
  unfold idkey_str. destruct (first_nonblank_Str id_keys ir.2) as [s ->]. reflexivity.
Qed.

Lemma lfilter_map {A B} (p : B -> bool) (g : A -> B) (l : list A) :
  List.filter p (List.map g l) = List.map g (List.filter (fun x => p (g x)) l).
Proof.
  induction l as [|x l IH]; simpl; [reflexivity|].
  destruct (p (g x)); simpl; now rewrite IH.
Qed.

(** ** Normal forms of the two passes *)

Lemma existsb_cell_eqb_Str s seen :
  List.existsb (Pandas.cell_eqb (Str s)) (List.map Str seen)
  = List.existsb (String.eqb s) seen.
Proof. induction seen as [|x seen IH]; simpl; congruence. Qed.

Lemma keep_first_with_idkey seen d :
  Pandas.keep_first "__idkey" (List.map Str seen) (List.map set_idkey d)
  = List.map set_idkey (keep_first_by seen d).
Proof.
  revert seen. induction d as [|ir d IH]; intros seen; [reflexivity|].
  destruct ir as [i r]. cbn [List.map set_idkey fst snd Pandas.keep_first keep_first_by].
  rewrite dict_get_set_eq.
  pose proof (first_nonblank_idkey_str (i, r)) as Hk. cbn [snd] in Hk.
  rewrite Hk, existsb_cell_eqb_Str.
  destruct (List.existsb _ seen); [apply IH|].
  cbn [List.map]. f_equal.
  - unfold set_idkey. cbn [fst snd]. now rewrite Hk.
  - apply (IH (idkey_str (i, r) :: seen)).
Qed.

Lemma keep_first_by_sublist seen d : sublist (keep_first_by seen d) d.
Proof.
  revert seen. induction d as [|ir d IH]; intros seen; simpl; [constructor|].
  destruct (List.existsb _ seen); constructor; apply IH.
Qed.

Lemma map_rows_clean k d : map_rows (Pandas.row_drop k) d = List.map (clean k) d.
Proof. reflexivity. Qed.

Lemma exact_rows_eq d :
  exact_rows d
  = if List.existsb (fun ir : Z * row => has_external_id ir.2) d
    then List.map (clean "__idkey") (keep_first_by [] d)
    else d.
Proof.
  unfold exact_rows. destruct (List.existsb _ d); [|reflexivity].
  change (with_idkey d) with (List.map set_idkey d).
  change (@nil cell) with (List.map Str []).
  rewrite (keep_first_with_idkey [] d), map_rows_clean, List.map_map.
  apply List.map_ext. intros ir. unfold clean, set_idkey. simpl.
  now rewrite row_drop_set.
Qed.

Section FuzzyNormalForm.
Variable token_set_ratio : string -> string -> Q.
Variable fuzzy_threshold : Z.

Lemma fuzzy_drop_eq d :
  fuzzy_drop token_set_ratio fuzzy_threshold d = marked token_set_ratio fuzzy_threshold d.
Proof.
  unfold fuzzy_drop, marked. rewrite fuzzy_sorted_eq. f_equal. f_equal.
  unfold bucket_items. rewrite List.map_map. apply List.map_ext.
  intros ir. unfold item_of, set_title_norm. simpl. now rewrite dict_get_set_eq.
Qed.

Lemma fuzzy_rows_eq d :
  fuzzy_rows token_set_ratio fuzzy_threshold d
  = List.map (clean "__title_norm")
      (List.filter (unmarked token_set_ratio fuzzy_threshold d)
         (insertion_sort sort_key_leb d)).
Proof.
  unfold fuzzy_rows. rewrite fuzzy_drop_eq, fuzzy_sorted_eq, map_rows_clean.
  rewrite lfilter_map, List.map_map.
  apply List.map_ext. intros ir. unfold clean, set_title_norm. simpl.
  now rewrite row_drop_set.
Qed.
End FuzzyNormalForm.

(** ** The order of the returned rows *)

Lemma lacks_column_Forall k d :
  lacks_column k d = true <-> Forall (fun ir : Z * row => row_get k ir.2 = None) d.
Proof.
  unfold lacks_column. rewrite forallb_forall, List.Forall_forall.
  split; intros H x Hx; specialize (H x Hx); now destruct (row_get k x.2).
Qed.

Lemma clean_absent k d : lacks_column k d = true -> List.map (clean k) d = d.
Proof.
  rewrite lacks_column_Forall. induction 1 as [|[i r] d Hx _ IH]; simpl; [reflexivity|].
  unfold clean at 1. simpl in *. now rewrite (row_drop_absent k r Hx), IH.
Qed.

Lemma lacks_column_sublist k d1 d2 :
  sublist d1 d2 -> lacks_column k d2 = true -> lacks_column k d1 = true.
Proof. rewrite !lacks_column_Forall. apply sublist_Forall. Qed.

Lemma lacks_column_perm k d1 d2 :
  d1 ≡ₚ d2 -> lacks_column k d2 = true -> lacks_column k d1 = true.
Proof. rewrite !lacks_column_Forall. intros H. now rewrite H. Qed.

Lemma StronglySorted_map {A B} (R : B -> B -> Prop) (f : A -> B) (l : list A) :
  StronglySorted (fun a b => R (f a) (f b)) l -> StronglySorted R (List.map f l).
Proof.
  induction 1 as [|x l _ IH Hx]; simpl; constructor; [assumption|].
  now apply Forall_map.
Qed.

Lemma StronglySorted_impl {A} (R R' : A -> A -> Prop) (l : list A) :
  (forall a b, R a b -> R' a b) -> StronglySorted R l -> StronglySorted R' l.
Proof.
  intros H. induction 1 as [|x l _ IH Hx]; constructor; [assumption|].
  eapply Forall_impl; [exact Hx|]. intros y. apply H.
Qed.

Lemma sort_key_sorted d : sorted_by_title_source (insertion_sort sort_key_leb d).
Proof.
  apply insertion_sort_sorted; [apply sort_key_leb_total|apply sort_key_leb_trans].
Qed.

Section OrderProofs.
Variable token_set_ratio : string -> string -> Q.
Variable fuzzy_threshold : Z.

Lemma fuzzy_rows_sorted d :
  sorted_by_title_source (fuzzy_rows token_set_ratio fuzzy_threshold d).
Proof.
  rewrite fuzzy_rows_eq. apply StronglySorted_map.
  eapply sublist_StronglySorted; [apply lfilter_sublist|].
  eapply StronglySorted_impl; [|apply sort_key_sorted].
  intros a b. now rewrite (keeps_sort_key_leb _ (keeps_clean "__title_norm" (or_intror eq_refl))).
Qed.
End OrderProofs.

Lemma exact_rows_sublist d :
  lacks_column "__idkey" d = true -> sublist (exact_rows d) d.
Proof.
  intros H. rewrite exact_rows_eq. destruct (List.existsb _ d); [|reflexivity].
  rewrite clean_absent; [apply keep_first_by_sublist|].
  eapply lacks_column_sublist; [apply keep_first_by_sublist|exact H].
Qed.

Lemma fuzzy_rows_submseteq token_set_ratio fuzzy_threshold d :
  lacks_column "__title_norm" d = true ->
  fuzzy_rows token_set_ratio fuzzy_threshold d ⊆+ d.
Proof.
  intros H. rewrite fuzzy_rows_eq.
  assert (Hsub : List.filter (unmarked token_set_ratio fuzzy_threshold d)
                   (insertion_sort sort_key_leb d) ⊆+ d).
  { etransitivity; [apply sublist_submseteq, lfilter_sublist|].
    apply Permutation_submseteq, insertion_sort_Permutation. }
  rewrite clean_absent; [exact Hsub|].
  eapply lacks_column_sublist; [apply lfilter_sublist|].
  eapply lacks_column_perm; [apply insertion_sort_Permutation|exact H].
Qed.

(** C10: the rows [deduplicate] returns are in ascending order of
    normalised title, then source, and are a rearrangement of rows of the
    input (of all of them when nothing is removed); the count is the
    number of rows left out. *)
Theorem deduplicate_output_sorted token_set_ratio fuzzy_threshold w df d :
  frames w !! df = Some d ->
  dedup_ready d = true ->
  lacks_column "__idkey" d = true ->
  lacks_column "__title_norm" d = true ->
  exists out removed w' D,
    deduplicate token_set_ratio fuzzy_threshold df w = Ok ((out, removed), w')
    /\ frames w' !! out = Some D
    /\ sorted_by_title_source D
    /\ D ⊆+ d
    /\ removed = Z.of_nat (List.length d) - Z.of_nat (List.length D)
    /\ (removed = 0 -> D ≡ₚ d).
Proof.
  intros Hdf Hready Hid Htn.
  destruct (deduplicate_spec token_set_ratio fuzzy_threshold w df d Hdf Hready)
    as (out & w' & Hrun & Hout & _ & _).
  assert (Hsub : dedup_rows token_set_ratio fuzzy_threshold d ⊆+ d).
  { unfold dedup_rows. etransitivity.
    - apply fuzzy_rows_submseteq.
      eapply lacks_column_sublist; [apply exact_rows_sublist, Hid|exact Htn].
    - apply sublist_submseteq, exact_rows_sublist, Hid. }
  eexists _, _, _, _. split; [exact Hrun|]. split; [exact Hout|].
  split; [apply fuzzy_rows_sorted|]. split; [exact Hsub|]. split; [reflexivity|].
  intros H0. apply submseteq_length_Permutation; [exact Hsub|].
  lia.
Qed.

(** Two records in the wrong order come back swapped, with nothing
    removed. *)
Lemma deduplicate_output_sorted_example :
  (exists out removed w' D,
      deduplicate Fuzz.token_set_ratio 95 0%nat (World [zebra_apple] ∅)
      = Ok ((out, removed), w')
      /\ frames w' !! out = Some D
      /\ sorted_by_title_source D
      /\ D ⊆+ zebra_apple
      /\ removed = Z.of_nat (List.length zebra_apple) - Z.of_nat (List.length D)
      /\ (removed = 0 -> D ≡ₚ zebra_apple))
  /\ exists out w',
       deduplicate Fuzz.token_set_ratio 95 0%nat (World [zebra_apple] ∅)
       = Ok ((out, 0), w')
       /\ frames w' !! out
          = Some [(1, bib_row "pubmed" "Apple trees" EmptyString);
                  (0, bib_row "pubmed" "Zebra fish" EmptyString)].
Proof.
  split.
  - apply (deduplicate_output_sorted Fuzz.token_set_ratio 95 (World [zebra_apple] ∅)
             0%nat zebra_apple); reflexivity.
  - eexists _, _. split; [vm_compute; reflexivity|reflexivity].
Defined.

(** ** Buckets *)

Lemma make_buckets_snoc l x :
  make_buckets (l ++ [x]) = bucket_add (PyStr.take 20 x.2) x (make_buckets l).
Proof. unfold make_buckets. now rewrite fold_left_app. Qed.

Lemma bucket_get_add k key x B :
  bucket_get k (bucket_add key x B)
  = if String.eqb key k then bucket_get k B ++ [x] else bucket_get k B.
Proof.
  induction B as [|[k' b] B IH]; simpl.
  - destruct (String.eqb key k); reflexivity.
  - destruct (String.eqb k' key) eqn:E; simpl.
    + apply String.eqb_eq in E. subst k'. destruct (String.eqb key k); reflexivity.
    + destruct (String.eqb k' k) eqn:E'; [|exact IH].
      apply String.eqb_eq in E'. subst k'. now rewrite String.eqb_sym, E.
Qed.

Lemma lfilter_app {A} (f : A -> bool) (l1 l2 : list A) :
  List.filter f (l1 ++ l2) = List.filter f l1 ++ List.filter f l2.
Proof. induction l1 as [|x l1 IH]; simpl; [reflexivity|]. destruct (f x); simpl; now rewrite IH. Qed.

Lemma bucket_get_make_buckets k l :
  bucket_get k (make_buckets l) = List.filter (in_bucket k) l.
Proof.
  induction l as [|x l IH] using rev_ind; [reflexivity|].
  rewrite make_buckets_snoc, bucket_get_add, lfilter_app, IH. cbn [List.filter].
  change (in_bucket k x) with (String.eqb (PyStr.take 20 x.2) k).
  destruct (String.eqb (PyStr.take 20 x.2) k); [reflexivity|].
  now rewrite app_nil_r.
Qed.

Lemma bucket_add_keys key x B :
  NoDup (List.map fst B) -> NoDup (List.map fst (bucket_add key x B)).
Proof.
  induction B as [|[k b] B IH]; simpl; intros H.
  - repeat constructor. set_solver.
  - apply NoDup_cons in H as [Hk HB].
    destruct (String.eqb k key) eqn:E; simpl; apply NoDup_cons; [now split|].
    split; [|now apply IH].
    intros Hin. apply Hk. clear -Hin E.
    induction B as [|[k' b'] B IH]; simpl in *.
    + apply list_elem_of_singleton in Hin. subst. now rewrite String.eqb_refl in E.
    + destruct (String.eqb k' key); simpl in *; [exact Hin|].
      apply elem_of_cons in Hin as [->|Hin]; [apply list_elem_of_here|].
      apply list_elem_of_further. now apply IH.
Qed.

Lemma make_buckets_keys l : NoDup (List.map fst (make_buckets l)).
Proof.
  induction l as [|x l IH] using rev_ind; [constructor|].
  rewrite make_buckets_snoc. now apply bucket_add_keys.
Qed.

Lemma bucket_get_elem k b B :
  NoDup (List.map fst B) -> (k, b) ∈ B -> bucket_get k B = b.
Proof.
  induction B as [|[k' b'] B IH]; simpl; intros Hnd Hin; [set_solver|].
  apply NoDup_cons in Hnd as [Hk HB].
  apply elem_of_cons in Hin as [Heq|Hin].
  - injection Heq as <- <-. now rewrite String.eqb_refl.
  - destruct (String.eqb k' k) eqn:E; [|now apply IH].
    apply String.eqb_eq in E. subst k'. exfalso. apply Hk.
    apply list_elem_of_fmap. now exists (k, b).
Qed.

Lemma bucket_get_nonempty k B :
  bucket_get k B <> [] -> (k, bucket_get k B) ∈ B.
Proof.
  induction B as [|[k' b'] B IH]; simpl; [congruence|].
  destruct (String.eqb k' k) eqn:E.
  - apply String.eqb_eq in E. subst k'. intros _. apply list_elem_of_here.
  - intros H. apply list_elem_of_further. now apply IH.
Qed.

Lemma bucket_add_nonempty key x B :
  Forall (fun kb : string * list (Z * string) => kb.2 <> []) B ->
  Forall (fun kb : string * list (Z * string) => kb.2 <> []) (bucket_add key x B).
Proof.
  induction 1 as [|[k b] B Hb HB IH]; simpl.
  - repeat constructor. discriminate.
  - destruct (String.eqb k key); constructor; try assumption.
    simpl. destruct b; discriminate.
Qed.

Lemma make_buckets_nonempty l :
  Forall (fun kb : string * list (Z * string) => kb.2 <> []) (make_buckets l).
Proof.
  induction l as [|x l IH] using rev_ind; [constructor|].
  rewrite make_buckets_snoc. now apply bucket_add_nonempty.
Qed.

(** Every bucket holds the items of its key, in their order, and is not
    empty. *)
Lemma make_buckets_elem k b l :
  (k, b) ∈ make_buckets l -> b = List.filter (in_bucket k) l /\ b <> [].
Proof.
  intros Hin. split.
  - rewrite <- bucket_get_make_buckets. symmetry.
    apply bucket_get_elem; [apply make_buckets_keys|exact Hin].
  - pose proof (make_buckets_nonempty l) as H. rewrite Forall_forall in H.
    apply (H (k, b) Hin).
Qed.

Lemma lfilter_comm {A} (f g : A -> bool) (l : list A) :
  List.filter f (List.filter g l) = List.filter g (List.filter f l).
Proof.
  induction l as [|x l IH]; simpl; [reflexivity|].
  destruct (f x) eqn:Ef, (g x) eqn:Eg; simpl; rewrite ?Ef, ?Eg, IH; reflexivity.
Qed.

(** A bucket of a filtered list is the filtered bucket of the list. *)
Lemma make_buckets_filter (p : Z * string -> bool) k b l :
  (k, b) ∈ make_buckets (List.filter p l) ->
  exists b', (k, b') ∈ make_buckets l /\ b = List.filter p b'.
Proof.
  intros Hin. apply make_buckets_elem in Hin as [-> Hne].
  exists (List.filter (in_bucket k) l). split.
  - rewrite <- bucket_get_make_buckets. apply bucket_get_nonempty.
    rewrite bucket_get_make_buckets. intros E. apply Hne.
    now rewrite lfilter_comm, E.
  - apply lfilter_comm.
Qed.

(** ** The marking loops *)

Section ScanProofs.
Variable token_set_ratio : string -> string -> Q.
Variable fuzzy_threshold : Z.

#[local] Abbreviation similar := (similar token_set_ratio fuzzy_threshold).
#[local] Abbreviation mark_later := (mark_later token_set_ratio fuzzy_threshold).
#[local] Abbreviation scan_bucket := (scan_bucket token_set_ratio fuzzy_threshold).
#[local] Abbreviation scan_from := (scan_from token_set_ratio fuzzy_threshold).
#[local] Abbreviation scan_buckets := (scan_buckets token_set_ratio fuzzy_threshold).
#[local] Abbreviation settled := (settled token_set_ratio fuzzy_threshold).
#[local] Abbreviation dissimilar := (dissimilar token_set_ratio fuzzy_threshold).

Lemma mark_later_mono v rest S : S ⊆ mark_later v rest S.
Proof.
  revert S. induction rest as [|[j vj] rest IH]; intros S; simpl; [reflexivity|].
  destruct (bool_decide (j ∈ S)); [apply IH|].
  destruct (similar v vj); [|apply IH].
  etransitivity; [|apply IH]. apply union_subseteq_r.
Qed.

(** The labels marked by one sweep: those already marked, and the items
    similar to the current one. *)
Lemma mark_later_elem v rest S i :
  i ∈ mark_later v rest S
  <-> i ∈ S \/ exists vj, (i, vj) ∈ rest /\ similar v vj = true.
Proof.
  revert S. induction rest as [|[j vj] rest IH]; intros S; simpl.
  - split; [auto|]. intros [H|[vj [H _]]]; [exact H|]. now apply elem_of_nil in H.
  - assert (Hrest : forall S', i ∈ mark_later v rest S'
              <-> i ∈ S' \/ exists vj, (i, vj) ∈ rest /\ similar v vj = true)
      by (intros S'; apply IH).
    destruct (bool_decide (j ∈ S)) eqn:Ej.
    + apply bool_decide_eq_true in Ej. rewrite Hrest. split.
      * intros [H|[w [H1 H2]]]; [auto|]. right. exists w. split; [|exact H2].
        now apply list_elem_of_further.
      * intros [H|[w [H1 H2]]]; [auto|].
        apply elem_of_cons in H1 as [Heq|H1]; [|right; now exists w].
        injection Heq as -> ->. auto.
    + destruct (similar v vj) eqn:Es; rewrite Hrest.
      * split.
        -- intros [H|[w [H1 H2]]].
           ++ apply elem_of_union in H as [H|H]; [|auto].
              apply elem_of_singleton in H. subst i. right. exists vj.
              split; [apply list_elem_of_here|exact Es].
           ++ right. exists w. split; [now apply list_elem_of_further|exact H2].
        -- intros [H|[w [H1 H2]]]; [left; apply elem_of_union; now right|].
           apply elem_of_cons in H1 as [Heq|H1]; [|right; now exists w].
           injection Heq as -> ->. left. apply elem_of_union. left.
           now apply elem_of_singleton.
      * split.
        -- intros [H|[w [H1 H2]]]; [auto|]. right. exists w.
           split; [now apply list_elem_of_further|exact H2].
        -- intros [H|[w [H1 H2]]]; [auto|].
           apply elem_of_cons in H1 as [Heq|H1]; [|right; now exists w].
           injection Heq as -> ->. congruence.
Qed.

Lemma scan_bucket_mono its S : S ⊆ scan_bucket its S.
Proof.
  revert S. induction its as [|[i v] rest IH]; intros S; simpl; [reflexivity|].
  destruct (bool_decide (i ∈ S)); [apply IH|].
  etransitivity; [apply (mark_later_mono v rest)|apply IH].
Qed.

Lemma scan_from_mono B S : S ⊆ scan_from B S.
Proof.
  revert S. induction B as [|b B IH]; intros S; simpl; [reflexivity|].
  etransitivity; [apply (scan_bucket_mono b.2)|apply IH].
Qed.

(** After the scan of a bucket, every ordered pair of its items is
    settled. *)
Lemma scan_bucket_settled its S S' :
  scan_bucket its S ⊆ S' -> StronglySorted (settled S') its.
Proof.
  revert S. induction its as [|[i v] rest IH]; intros S Hsub; [constructor|].
  simpl in Hsub. destruct (bool_decide (i ∈ S)) eqn:Ei.
  - apply bool_decide_eq_true in Ei. constructor; [now apply (IH S)|].
    apply Forall_forall. intros y _. left. simpl.
    apply Hsub. now apply scan_bucket_mono.
  - constructor; [now apply (IH (mark_later v rest S))|].
    apply Forall_forall. intros [j vj] Hy. right. simpl.
    destruct (similar v vj) eqn:Es; [left|now right].
    apply Hsub, scan_bucket_mono, mark_later_elem. right. now exists vj.
Qed.

Lemma scan_from_settled B S S' :
  scan_from B S ⊆ S' -> Forall (fun b => StronglySorted (settled S') b.2) B.
Proof.
  revert S. induction B as [|b B IH]; intros S Hsub; [constructor|].
  simpl in Hsub. constructor; [|now apply (IH (scan_bucket b.2 S))].
  apply (scan_bucket_settled b.2 S). etransitivity; [|exact Hsub].
  apply scan_from_mono.
Qed.

(** A bucket whose items are pairwise dissimilar marks nothing. *)
Lemma mark_later_dissimilar v rest S :
  Forall (fun y : Z * string => similar v y.2 = false) rest -> mark_later v rest S = S.
Proof.
  induction 1 as [|[j vj] rest Hy _ IH]; simpl; [reflexivity|].
  simpl in Hy. rewrite Hy. now destruct (bool_decide (j ∈ S)).
Qed.

Lemma scan_bucket_dissimilar its S :
  StronglySorted dissimilar its -> scan_bucket its S = S.
Proof.
  induction 1 as [|[i v] rest _ IH Hx]; simpl; [reflexivity|].
  destruct (bool_decide (i ∈ S)); [exact IH|].
  now rewrite mark_later_dissimilar.
Qed.

Lemma scan_from_dissimilar B S :
  Forall (fun b : string * list (Z * string) => StronglySorted dissimilar b.2) B ->
  scan_from B S = S.
Proof.
  induction 1 as [|b B Hb _ IH]; simpl; [reflexivity|].
  now rewrite scan_bucket_dissimilar.
Qed.

(** Scanning what a scan has kept marks nothing. *)
Lemma scan_buckets_kept items :
  scan_buckets
    (make_buckets
       (List.filter (fun iv : Z * string =>
                       negb (bool_decide (iv.1 ∈ scan_buckets (make_buckets items))))
          items))
  = ∅.
Proof.
  set (T := scan_buckets (make_buckets items)).
  change (scan_from (make_buckets
            (List.filter (fun iv : Z * string => negb (bool_decide (iv.1 ∈ T))) items)) ∅ = ∅).
  apply scan_from_dissimilar, Forall_forall. intros [k b] Hin. simpl.
  apply make_buckets_filter in Hin as (b' & Hb' & ->).
  pose proof (scan_from_settled (make_buckets items) ∅ T (reflexivity _)) as Hs.
  rewrite Forall_forall in Hs. specialize (Hs _ Hb'). simpl in Hs.
  clear Hb'. induction Hs as [|x b' _ IH Hx]; simpl; [constructor|].
  destruct (bool_decide (x.1 ∈ T)) eqn:Ex; simpl; [exact IH|].
  apply bool_decide_eq_false in Ex. constructor; [exact IH|].
  apply Forall_forall. intros y Hy.
  assert (Hy' : y ∈ b' /\ y.1 ∉ T).
  { apply list_elem_of_In, filter_In in Hy as [Hy1 Hy2]. split; [now apply list_elem_of_In|].
    apply negb_true_iff, bool_decide_eq_false in Hy2. exact Hy2. }
  destruct Hy' as [Hyin HyT]. rewrite Forall_forall in Hx.
  destruct (Hx y Hyin) as [H|[H|H]]; [contradiction|contradiction|exact H].
Qed.
End ScanProofs.

(** ** Running the detector on its own output *)

Lemma existsb_eqb_elem s seen :
  List.existsb (String.eqb s) seen = true <-> s ∈ seen.
Proof.
  induction seen as [|x seen IH]; simpl.
  - split; [discriminate|]. intros H. now apply elem_of_nil in H.
  - rewrite orb_true_iff, IH, elem_of_cons, String.eqb_eq. tauto.
Qed.

Lemma keep_first_by_keys seen d :
  NoDup (List.map idkey_str (keep_first_by seen d))
  /\ Forall (fun x => idkey_str x ∉ seen) (keep_first_by seen d).
Proof.
  revert seen. induction d as [|ir d IH]; intros seen; simpl.
  - split; constructor.
  - destruct (List.existsb (String.eqb (idkey_str ir)) seen) eqn:E; [apply IH|].
    destruct (IH (idkey_str ir :: seen)) as [Hnd Hseen].
    assert (Hir : idkey_str ir ∉ seen).
    { intros H. apply existsb_eqb_elem in H. congruence. }
    split.
    + simpl. apply NoDup_cons. split; [|exact Hnd].
      intros Hin. apply list_elem_of_fmap in Hin as [y [Hy Hyin]].
      rewrite Forall_forall in Hseen. apply (Hseen y Hyin).
      rewrite <- Hy. apply list_elem_of_here.
    + constructor; [exact Hir|].
      eapply Forall_impl; [exact Hseen|]. intros y Hy Hin. apply Hy.
      now apply list_elem_of_further.
Qed.

Lemma keep_first_by_id seen d :
  NoDup (List.map idkey_str d) ->
  Forall (fun x => idkey_str x ∉ seen) d ->
  keep_first_by seen d = d.
Proof.
  revert seen. induction d as [|ir d IH]; intros seen Hnd Hseen; [reflexivity|].
  simpl in *. apply NoDup_cons in Hnd as [Hir Hnd].
  apply Forall_cons in Hseen as [Hs Hseen].
  destruct (List.existsb (String.eqb (idkey_str ir)) seen) eqn:E.
  - apply existsb_eqb_elem in E. contradiction.
  - f_equal. apply IH; [exact Hnd|].
    apply Forall_forall. intros y Hy Hin.
    apply elem_of_cons in Hin as [Heq|Hin].
    + apply Hir. rewrite <- Heq. apply list_elem_of_fmap. now exists y.
    + rewrite Forall_forall in Hseen. now apply (Hseen y Hy).
Qed.

Lemma keeps_compose f g :
  keeps_read_columns f -> keeps_read_columns g -> keeps_read_columns (fun ir => f (g ir)).
Proof.
  intros Hf Hg ir. split.
  - now rewrite (proj1 (Hf (g ir))), (proj1 (Hg ir)).
  - intros k H1 H2. now rewrite (proj2 (Hf (g ir)) k H1 H2), (proj2 (Hg ir) k H1 H2).
Qed.

Lemma existsb_Exists {A} (f : A -> bool) (l : list A) :
  List.existsb f l = true <-> Exists (fun x => f x = true) l.
Proof.
  rewrite existsb_exists, Exists_exists. split; intros [x [H1 H2]]; exists x;
    (split; [now apply list_elem_of_In|exact H2]).
Qed.

Section Idempotence.
Variable ratio : string -> string -> Q.
Variable t : Z.

Lemma kept_sorted d :
  sorted_by_title_source (List.filter (unmarked ratio t d) (insertion_sort sort_key_leb d)).
Proof.
  eapply sublist_StronglySorted; [apply lfilter_sublist|apply sort_key_sorted].
Qed.

(** The fuzzy-title pass leaves its own output as it is. *)
Lemma fuzzy_rows_idem d : fuzzy_rows ratio t (fuzzy_rows ratio t d) = fuzzy_rows ratio t d.
Proof.
  pose proof (keeps_clean "__title_norm" (or_intror eq_refl)) as Hc.
  set (Y := List.filter (unmarked ratio t d) (insertion_sort sort_key_leb d)).
  assert (HD : fuzzy_rows ratio t d = List.map (clean "__title_norm") Y)
    by apply fuzzy_rows_eq.
  assert (Hsort : insertion_sort sort_key_leb (fuzzy_rows ratio t d)
                  = List.map (clean "__title_norm") Y).
  { rewrite HD, (keeps_sort _ Hc).
    now rewrite (insertion_sort_id _ Y (kept_sorted d)). }
  assert (Hmarked : marked ratio t (fuzzy_rows ratio t d) = ∅).
  { unfold marked at 1. rewrite Hsort, List.map_map.
    rewrite (List.map_ext _ item_of (keeps_item_of _ Hc)).
    unfold Y. rewrite <- (scan_buckets_kept ratio t
                           (List.map item_of (insertion_sort sort_key_leb d))).
    f_equal. f_equal. now rewrite lfilter_map. }
  rewrite (fuzzy_rows_eq _ _ (fuzzy_rows ratio t d)), Hsort, lfilter_id.
  - rewrite HD, List.map_map. apply List.map_ext. intros ir. unfold clean. simpl.
    now rewrite row_drop_idem.
  - apply Forall_forall. intros x _. unfold unmarked. rewrite Hmarked.
    apply negb_true_iff, bool_decide_eq_false. apply not_elem_of_empty.
Qed.
End Idempotence.

Section Idempotence2.
Variable ratio : string -> string -> Q.
Variable t : Z.

Lemma dedup_rows_eq d :
  dedup_rows ratio t d
  = List.map (clean "__title_norm")
      (List.filter (unmarked ratio t (exact_rows d))
         (insertion_sort sort_key_leb (exact_rows d))).
Proof. unfold dedup_rows. apply fuzzy_rows_eq. Qed.

(** The rows returned come from rows of the frame, with scratch columns
    dropped. *)
Lemma dedup_rows_origin d x :
  x ∈ dedup_rows ratio t d ->
  exists f y, keeps_read_columns f /\ y ∈ d /\ x = f y
              /\ (List.existsb (fun ir : Z * row => has_external_id ir.2) d = true ->
                  row_get "__idkey" x.2 = None).
Proof.
  pose proof (keeps_clean "__title_norm" (or_intror eq_refl)) as Hct.
  pose proof (keeps_clean "__idkey" (or_introl eq_refl)) as Hci.
  rewrite dedup_rows_eq. intros Hx.
  apply list_elem_of_fmap in Hx as [y [-> Hy]].
  apply list_elem_of_In, filter_In in Hy as [Hy _]. apply list_elem_of_In in Hy.
  rewrite insertion_sort_Permutation in Hy.
  rewrite exact_rows_eq in Hy.
  destruct (List.existsb (fun ir : Z * row => has_external_id ir.2) d) eqn:Eany.
  - apply list_elem_of_fmap in Hy as [z [-> Hz]].
    exists (fun ir => clean "__title_norm" (clean "__idkey" ir)), z.
    split; [now apply keeps_compose|]. split; [|split; [reflexivity|]].
    + eapply elem_of_sublist; [exact Hz|]. apply keep_first_by_sublist.
    + intros _. simpl. rewrite row_get_drop_ne by discriminate. apply row_get_drop_eq.
  - exists (clean "__title_norm"), y.
    split; [exact Hct|]. split; [exact Hy|]. split; [reflexivity|discriminate].
Qed.

Lemma dedup_rows_has_column k d :
  k <> "__idkey"%string -> k <> "__title_norm"%string ->
  has_column k d = true -> has_column k (dedup_rows ratio t d) = true.
Proof.
  intros H1 H2. rewrite !has_column_iff, !Forall_forall. intros H x Hx.
  apply dedup_rows_origin in Hx as (f & y & Hf & Hy & -> & _).
  rewrite (proj2 (Hf y) k H1 H2). now apply H.
Qed.

Lemma dedup_rows_string_column k d :
  k <> "__idkey"%string -> k <> "__title_norm"%string ->
  string_column k d = true -> string_column k (dedup_rows ratio t d) = true.
Proof.
  intros H1 H2. rewrite !string_column_iff, !Forall_forall. intros H x Hx.
  apply dedup_rows_origin in Hx as (f & y & Hf & Hy & -> & _).
  rewrite (keeps_dict_get f Hf k y H1 H2). now apply H.
Qed.

Lemma dedup_rows_ready d :
  dedup_ready d = true -> dedup_ready (dedup_rows ratio t d) = true.
Proof.
  unfold dedup_ready, id_keys. cbn [List.forallb].
  rewrite !andb_true_iff. intros H.
  repeat match goal with H : _ /\ _ |- _ => destruct H end.
  repeat split;
    first [ apply dedup_rows_has_column; [discriminate|discriminate|assumption]
          | apply dedup_rows_string_column; [discriminate|discriminate|assumption] ].
Qed.

(** The keys of the rows returned are pairwise different when some
    record has an external identifier. *)
Lemma dedup_rows_keys d :
  List.existsb (fun ir : Z * row => has_external_id ir.2) d = true ->
  NoDup (List.map idkey_str (dedup_rows ratio t d)).
Proof.
  pose proof (keeps_clean "__title_norm" (or_intror eq_refl)) as Hct.
  pose proof (keeps_clean "__idkey" (or_introl eq_refl)) as Hci.
  intros Hany. rewrite dedup_rows_eq, List.map_map.
  rewrite (List.map_ext _ idkey_str (keeps_idkey_str _ Hct)).
  refine (sublist_NoDup _ _ _ (fmap_sublist idkey_str _ _ (lfilter_sublist _ _))).
  rewrite insertion_sort_Permutation.
  rewrite exact_rows_eq, Hany, List.map_map.
  rewrite (List.map_ext _ idkey_str (keeps_idkey_str _ Hci)).
  apply keep_first_by_keys.
Qed.

(** The exact-key pass leaves the rows returned as they are. *)
Lemma exact_rows_dedup_rows d :
  exact_rows (dedup_rows ratio t d) = dedup_rows ratio t d.
Proof.
  rewrite (exact_rows_eq (dedup_rows ratio t d)).
  destruct (List.existsb _ (dedup_rows ratio t d)) eqn:Eany; [|reflexivity].
  assert (Hd : List.existsb (fun ir : Z * row => has_external_id ir.2) d = true).
  { apply existsb_Exists, Exists_exists in Eany as [x [Hx Hid]].
    apply dedup_rows_origin in Hx as (f & y & Hf & Hy & -> & _).
    rewrite (keeps_has_external_id f Hf) in Hid.
    apply existsb_Exists, Exists_exists. now exists y. }
  rewrite keep_first_by_id.
  - apply clean_absent, lacks_column_Forall, Forall_forall. intros x Hx.
    apply dedup_rows_origin in Hx as (f & y & Hf & Hy & -> & Hlack). now apply Hlack.
  - now apply dedup_rows_keys.
  - apply Forall_forall. intros x _. apply not_elem_of_nil.
Qed.

Lemma dedup_rows_idem d :
  dedup_rows ratio t (dedup_rows ratio t d) = dedup_rows ratio t d.
Proof.
  unfold dedup_rows at 1. rewrite exact_rows_dedup_rows.
  unfold dedup_rows. apply fuzzy_rows_idem.
Qed.
End Idempotence2.

(** C5: deduplication is idempotent.  Run on the frame it returned, with
    the same threshold, [deduplicate] returns the same rows in the same
    order and removes nothing. *)
Theorem deduplicate_idempotent token_set_ratio fuzzy_threshold w df d :
  frames w !! df = Some d ->
  dedup_ready d = true ->
  exists out removed w1 D,
    deduplicate token_set_ratio fuzzy_threshold df w = Ok ((out, removed), w1)
    /\ frames w1 !! out = Some D
    /\ exists out2 w2,
         deduplicate token_set_ratio fuzzy_threshold out w1 = Ok ((out2, 0), w2)
         /\ frames w2 !! out2 = Some D.
Proof.
  intros Hdf Hready.
  destruct (deduplicate_spec token_set_ratio fuzzy_threshold w df d Hdf Hready)
    as (out & w1 & Hrun & Hout & _ & _).
  pose proof (dedup_rows_ready token_set_ratio fuzzy_threshold d Hready) as Hready2.
  destruct (deduplicate_spec token_set_ratio fuzzy_threshold w1 out _ Hout Hready2)
    as (out2 & w2 & Hrun2 & Hout2 & _ & _).
  rewrite dedup_rows_idem in Hrun2, Hout2. rewrite Z.sub_diag in Hrun2.
  eexists _, _, _, _. split; [exact Hrun|]. split; [exact Hout|].
  eexists _, _. split; [exact Hrun2|exact Hout2].
Qed.

Lemma deduplicate_idempotent_scenario_B :
  (exists out removed w1 D,
      deduplicate Fuzz.token_set_ratio 90 0%nat (World [scenario_B_frame] ∅)
      = Ok ((out, removed), w1)
      /\ frames w1 !! out = Some D
      /\ exists out2 w2,
           deduplicate Fuzz.token_set_ratio 90 out w1 = Ok ((out2, 0), w2)
           /\ frames w2 !! out2 = Some D)
  /\ exists out w1,
       deduplicate Fuzz.token_set_ratio 90 0%nat (World [scenario_B_frame] ∅)
       = Ok ((out, 1), w1)
       /\ frames w1 !! out
          = Some [(0, bib_row "pubmed" "Deep learning for cancer detection" EmptyString)].
Proof.
  split.
  - apply (deduplicate_idempotent Fuzz.token_set_ratio 90 (World [scenario_B_frame] ∅)
             0%nat scenario_B_frame); reflexivity.
  - eexists _, _. split; [vm_compute; reflexivity|reflexivity].
Defined.

(** ** Raising the threshold *)

Lemma concat_bucket_add key x B :
  concat (List.map snd (bucket_add key x B)) ≡ₚ concat (List.map snd B) ++ [x].
Proof.
  induction B as [|[k b] B IH]; simpl; [reflexivity|].
  destruct (String.eqb k key); simpl.
  - rewrite <- !app_assoc. apply Permutation_app_head. apply Permutation_app_comm.
  - rewrite IH. now rewrite app_assoc.
Qed.

(** The buckets partition the items. *)
Lemma make_buckets_concat l : concat (List.map snd (make_buckets l)) ≡ₚ l.
Proof.
  induction l as [|x l IH] using rev_ind; [reflexivity|].
  rewrite make_buckets_snoc, concat_bucket_add. now rewrite IH.
Qed.

Lemma NoDup_fst_unique {A B} (l : list (A * B)) a b1 b2 :
  NoDup (List.map fst l) -> (a, b1) ∈ l -> (a, b2) ∈ l -> b1 = b2.
Proof.
  induction l as [|[a' b'] l IH]; simpl; intros Hnd H1 H2.
  - now apply elem_of_nil in H1.
  - apply NoDup_cons in Hnd as [Ha Hnd].
    apply elem_of_cons in H1 as [E1|H1]; apply elem_of_cons in H2 as [E2|H2].
    + congruence.
    + injection E1 as -> ->. exfalso. apply Ha. apply list_elem_of_fmap. now exists (a', b2).
    + injection E2 as -> ->. exfalso. apply Ha. apply list_elem_of_fmap. now exists (a', b1).
    + now apply IH.
Qed.

Section Monotone.
Variable ratio : string -> string -> Q.
Variables t1 t2 : Z.
Hypothesis Ht : t1 <= t2.

Lemma similar_mono a b : similar ratio t2 a b = true -> similar ratio t1 a b = true.
Proof using Ht.
  unfold similar. rewrite !Qle_bool_iff. intros H.
  eapply Qle_trans; [|exact H]. now rewrite <- Zle_Qle.
Qed.

#[local] Abbreviation closed_under := (closed_under ratio t1).
#[local] Abbreviation transitive_on := (transitive_on ratio t1).

Lemma similarity_transitive_on titles :
  similarity_transitive ratio t1 titles = true -> transitive_on titles.
Proof.
  unfold similarity_transitive. rewrite forallb_forall. intros H a b c Ha Hb Hc Hab Hbc.
  apply list_elem_of_In in Ha, Hb, Hc.
  specialize (H a Ha). rewrite forallb_forall in H.
  specialize (H b Hb). rewrite forallb_forall in H.
  specialize (H c Hc). now rewrite Hab, Hbc in H.
Qed.

Lemma scan_bucket_lockstep its S1 S2 :
  NoDup (List.map fst its) ->
  transitive_on (List.map snd its) ->
  S2 ⊆ S1 ->
  closed_under S1 its ->
  scan_bucket ratio t2 its S2 ⊆ scan_bucket ratio t1 its S1.
Proof using Ht.
  revert S1 S2. induction its as [|[i v] rest IH]; intros S1 S2 Hnd Htr Hsub Hcl;
    [exact Hsub|].
  simpl in Hnd. apply NoDup_cons in Hnd as [Hi Hnd].
  assert (Htr' : transitive_on (List.map snd rest)).
  { intros a b c Ha Hb Hc. apply Htr; simpl; now apply list_elem_of_further. }
  assert (Hcl' : closed_under S1 rest).
  { intros x y Hx Hy. apply Hcl; now apply list_elem_of_further. }
  simpl. destruct (bool_decide (i ∈ S2)) eqn:E2.
  - apply bool_decide_eq_true in E2.
    rewrite bool_decide_eq_true_2 by (now apply Hsub). now apply IH.
  - apply bool_decide_eq_false in E2. destruct (bool_decide (i ∈ S1)) eqn:E1.
    + apply bool_decide_eq_true in E1. apply IH; try assumption.
      intros j Hj. apply mark_later_elem in Hj as [Hj|[vj [Hin Hs]]]; [now apply Hsub|].
      apply (Hcl (i, v) (j, vj)); [apply list_elem_of_here|now apply list_elem_of_further
                                  |exact E1|now apply similar_mono].
    + apply bool_decide_eq_false in E1. apply IH; try assumption.
      * intros j Hj. apply mark_later_elem.
        apply mark_later_elem in Hj as [Hj|[vj [Hin Hs]]]; [left; now apply Hsub|].
        right. exists vj. split; [exact Hin|now apply similar_mono].
      * intros x y Hx Hy Hxs Hxy. apply mark_later_elem.
        apply mark_later_elem in Hxs as [Hxs|[vx [Hin Hs]]].
        -- left. now apply (Hcl' x y).
        -- right. exists y.2. split; [now destruct y|].
           assert (vx = x.2) as ->.
           { apply (NoDup_fst_unique rest x.1); [exact Hnd|exact Hin|now destruct x]. }
           apply (Htr v x.2 y.2); simpl; try assumption.
           ++ apply list_elem_of_here.
           ++ apply list_elem_of_further, list_elem_of_fmap. now exists x.
           ++ apply list_elem_of_further, list_elem_of_fmap. now exists y.
Qed.

(** The scan of a bucket marks labels of the bucket only. *)
Lemma scan_bucket_bound t its S i :
  i ∈ scan_bucket ratio t its S -> i ∈ S \/ i ∈ List.map fst its.
Proof.
  revert S. induction its as [|[j v] rest IH]; intros S; simpl; [auto|].
  destruct (bool_decide (j ∈ S)).
  - intros H. destruct (IH _ H); [auto|]. right. now apply list_elem_of_further.
  - intros H. destruct (IH _ H) as [H'|H']; [|right; now apply list_elem_of_further].
    apply mark_later_elem in H' as [H'|[vj [Hin _]]]; [auto|].
    right. apply list_elem_of_further, list_elem_of_fmap. now exists (i, vj).
Qed.

Lemma scan_from_lockstep B S1 S2 :
  NoDup (List.map fst (concat (List.map snd B))) ->
  transitive_on (List.map snd (concat (List.map snd B))) ->
  S2 ⊆ S1 ->
  (forall x, x ∈ concat (List.map snd B) -> x.1 ∉ S1) ->
  scan_from ratio t2 B S2 ⊆ scan_from ratio t1 B S1.
Proof using Ht.
  revert S1 S2. induction B as [|b B IH]; intros S1 S2 Hnd Htr Hsub Hfresh; [exact Hsub|].
  simpl in *. rewrite List.map_app in Hnd, Htr. apply NoDup_app in Hnd as (Hb & Hdisj & HB).
  apply IH.
  - exact HB.
  - intros a b' c Ha Hb' Hc. apply Htr; apply elem_of_app; now right.
  - apply scan_bucket_lockstep; [exact Hb| |exact Hsub|].
    + intros a b' c Ha Hb' Hc. apply Htr; apply elem_of_app; now left.
    + intros x y Hx _ HxS _. exfalso. apply (Hfresh x); [|exact HxS].
      apply elem_of_app. now left.
  - intros x Hx Hin. apply scan_bucket_bound in Hin as [Hin|Hin].
    + apply (Hfresh x); [|exact Hin]. apply elem_of_app. now right.
    + apply (Hdisj x.1 Hin). apply list_elem_of_fmap. now exists x.
Qed.

(** With unique labels and transitive similarity at the lower threshold,
    the higher threshold marks no label the lower one does not. *)
Lemma scan_buckets_monotone items :
  NoDup (List.map fst items) ->
  transitive_on (List.map snd items) ->
  scan_buckets ratio t2 (make_buckets items) ⊆ scan_buckets ratio t1 (make_buckets items).
Proof using Ht.
  intros Hnd Htr.
  change (scan_from ratio t2 (make_buckets items) ∅ ⊆ scan_from ratio t1 (make_buckets items) ∅).
  apply scan_from_lockstep.
  - now rewrite make_buckets_concat.
  - intros a b c. rewrite !make_buckets_concat. apply Htr.
  - reflexivity.
  - intros x _. apply not_elem_of_empty.
Qed.
End Monotone.

Lemma exact_rows_labels d : sublist (List.map fst (exact_rows d)) (List.map fst d).
Proof.
  rewrite exact_rows_eq. destruct (List.existsb _ d); [|reflexivity].
  rewrite List.map_map. simpl.
  apply (fmap_sublist fst), keep_first_by_sublist.
Qed.

Lemma exact_rows_titles d a : a ∈ norm_titles (exact_rows d) -> a ∈ norm_titles d.
Proof.
  unfold norm_titles. rewrite exact_rows_eq.
  destruct (List.existsb _ d); [|auto].
  rewrite List.map_map. intros H. apply list_elem_of_fmap in H as [x [-> Hx]].
  apply list_elem_of_fmap. exists x. split.
  - simpl. now rewrite dict_get_drop_ne by discriminate.
  - eapply elem_of_sublist; [exact Hx|apply keep_first_by_sublist].
Qed.

Section MonotoneDedup.
Variable ratio : string -> string -> Q.
Variables t1 t2 : Z.
Hypothesis Ht : t1 <= t2.

Lemma marked_monotone d :
  NoDup (List.map fst d) ->
  similarity_transitive ratio t1 (norm_titles d) = true ->
  marked ratio t2 (exact_rows d) ⊆ marked ratio t1 (exact_rows d).
Proof using Ht.
  intros Hnd Htr. unfold marked. apply scan_buckets_monotone; [exact Ht| |].
  - rewrite List.map_map. simpl.
    change (NoDup (List.map fst (insertion_sort sort_key_leb (exact_rows d)))).
    rewrite insertion_sort_Permutation.
    eapply sublist_NoDup; [exact Hnd|apply exact_rows_labels].
  - apply similarity_transitive_on in Htr.
    assert (Hin : forall a,
              a ∈ List.map snd (List.map item_of (insertion_sort sort_key_leb (exact_rows d))) ->
              a ∈ norm_titles d).
    { intros a Ha. apply exact_rows_titles. unfold norm_titles.
      rewrite List.map_map in Ha. simpl in Ha.
      rewrite <- (insertion_sort_Permutation sort_key_leb (exact_rows d)). exact Ha. }
    intros a b c Ha Hb Hc. apply Htr; now apply Hin.
Qed.

Lemma dedup_rows_length_monotone d :
  NoDup (List.map fst d) ->
  similarity_transitive ratio t1 (norm_titles d) = true ->
  (List.length (dedup_rows ratio t1 d) <= List.length (dedup_rows ratio t2 d))%nat.
Proof using Ht.
  intros Hnd Htr. rewrite !dedup_rows_eq, !List.length_map.
  apply lfilter_length_mono. intros x. unfold unmarked.
  rewrite !negb_true_iff, !bool_decide_eq_false. intros H1 H2. apply H1.
  now apply (marked_monotone d Hnd Htr).
Qed.
End MonotoneDedup.

(** C2, as the code has it: on a frame with unique index labels whose
    normalised titles are related transitively by similarity at the lower
    threshold, raising the threshold never increases the number of removed
    duplicates. *)
Theorem deduplicate_threshold_monotone token_set_ratio t1 t2 w df d :
  frames w !! df = Some d ->
  dedup_ready d = true ->
  NoDup (List.map fst d) ->
  t1 <= t2 ->
  similarity_transitive token_set_ratio t1 (norm_titles d) = true ->
  exists out1 removed1 w1 out2 removed2 w2,
    deduplicate token_set_ratio t1 df w = Ok ((out1, removed1), w1)
    /\ deduplicate token_set_ratio t2 df w = Ok ((out2, removed2), w2)
    /\ removed2 <= removed1.
Proof.
  intros Hdf Hready Hnd Ht Htr.
  destruct (deduplicate_spec token_set_ratio t1 w df d Hdf Hready)
    as (out1 & w1 & Hrun1 & _).
  destruct (deduplicate_spec token_set_ratio t2 w df d Hdf Hready)
    as (out2 & w2 & Hrun2 & _).
  eexists _, _, _, _, _, _. split; [exact Hrun1|]. split; [exact Hrun2|].
  pose proof (dedup_rows_length_monotone token_set_ratio t1 t2 Ht d Hnd Htr). lia.
Qed.

Lemma deduplicate_threshold_monotone_scenario_B :
  exists out1 removed1 w1 out2 removed2 w2,
    deduplicate Fuzz.token_set_ratio 90 0%nat (World [scenario_B_frame] ∅)
    = Ok ((out1, removed1), w1)
    /\ deduplicate Fuzz.token_set_ratio 95 0%nat (World [scenario_B_frame] ∅)
       = Ok ((out2, removed2), w2)
    /\ removed2 <= removed1.
Proof.
  apply (deduplicate_threshold_monotone Fuzz.token_set_ratio 90 95
           (World [scenario_B_frame] ∅) 0%nat scenario_B_frame).
  - reflexivity.
  - reflexivity.
  - apply (bool_decide_eq_true_1 (NoDup (List.map fst scenario_B_frame))).
    vm_compute. reflexivity.
  - lia.
  - vm_compute. reflexivity.
Defined.

(** C2 as stated fails: on the chain of four titles, the threshold 85
    removes one record and the threshold 90 removes two. *)
Lemma raising_threshold_removes_more :
  exists out1 w1 out2 w2,
    deduplicate Fuzz.token_set_ratio 85 0%nat (World [chain_frame] ∅) = Ok ((out1, 1), w1)
    /\ deduplicate Fuzz.token_set_ratio 90 0%nat (World [chain_frame] ∅) = Ok ((out2, 2), w2)
    /\ frames w1 !! out1
       = Some [(0, bib_row "pubmed" "aaaaaaaaaaaaaaaaaaaabbbb" EmptyString);
               (2, bib_row "pubmed" "aaaaaaaaaaaaaaaaaaaamnnnn" EmptyString);
               (3, bib_row "pubmed" "aaaaaaaaaaaaaaaaaaaamzzzz" EmptyString)]
    /\ frames w2 !! out2
       = Some [(0, bib_row "pubmed" "aaaaaaaaaaaaaaaaaaaabbbb" EmptyString);
               (1, bib_row "pubmed" "aaaaaaaaaaaaaaaaaaaam" EmptyString)]
    /\ 85 <= 90 /\ ~ (2 <= 1).
Proof.
  eexists _, _, _, _.
  split; [vm_compute; reflexivity|]. split; [vm_compute; reflexivity|].
  split; [reflexivity|]. split; [reflexivity|]. lia.
Qed.

(** * Further properties of the code *)
(** ** Normal form of [norm_text] *)

Lemma lower_char_idem c : PyStr.lower_char (PyStr.lower_char c) = PyStr.lower_char c.
Proof. destruct c as [[] [] [] [] [] [] [] []]; reflexivity. Qed.

Lemma lower_idem s : PyStr.lower (PyStr.lower s) = PyStr.lower s.
Proof.
  induction s as [|c s IH]; simpl; [reflexivity|]. now rewrite lower_char_idem, IH.
Qed.

Lemma lower_sub_ws_runs b s :
  PyStr.lower (PyStr.sub_ws_runs b s) = PyStr.sub_ws_runs b (PyStr.lower s).
Proof.
  revert b. induction s as [|c s IH]; intros b; simpl; [reflexivity|].
  rewrite isspace_lower_char. destruct (PyStr.isspace c).
  - destruct b; simpl; now rewrite IH.
  - simpl. now rewrite IH.
Qed.

Lemma sub_ws_runs_idem s :
  PyStr.sub_ws_runs false (PyStr.sub_ws_runs false s) = PyStr.sub_ws_runs false s
  /\ PyStr.sub_ws_runs true (PyStr.sub_ws_runs true s) = PyStr.sub_ws_runs true s.
Proof.
  induction s as [|c s [IH1 IH2]]; simpl; [split; reflexivity|].
  destruct (PyStr.isspace c) eqn:E; simpl; rewrite ?E.
  - split; [|exact IH2]. now rewrite IH2.
  - rewrite IH1. split; reflexivity.
Qed.

Lemma rstrip_cons_nonspace c s :
  PyStr.isspace c = false -> PyStr.rstrip (String c s) = String c (PyStr.rstrip s).
Proof. intros E. simpl. rewrite E. now destruct (PyStr.rstrip s). Qed.

Lemma rstrip_idem s : PyStr.rstrip (PyStr.rstrip s) = PyStr.rstrip s.
Proof.
  induction s as [|c s IH]; [reflexivity|].
  cbn [PyStr.rstrip]. destruct (PyStr.rstrip s) as [|a r] eqn:Er.
  - destruct (PyStr.isspace c) eqn:E; simpl; rewrite ?E; reflexivity.
  - cbn [PyStr.rstrip]. cbn [PyStr.rstrip] in IH. now rewrite IH.
Qed.

Lemma sub_ws_runs_nil b s :
  PyStr.sub_ws_runs b s = EmptyString -> PyStr.rstrip s = EmptyString.
Proof.
  revert b. induction s as [|c s IH]; intros b; simpl; [reflexivity|].
  destruct (PyStr.isspace c); [|discriminate].
  destruct b; [|discriminate]. intros H. now rewrite (IH _ H).
Qed.

Lemma sub_ws_runs_space b c s :
  PyStr.isspace c = true ->
  PyStr.sub_ws_runs b (String c s)
  = if b then PyStr.sub_ws_runs true s else String " " (PyStr.sub_ws_runs true s).
Proof. intros E. simpl. now rewrite E. Qed.

Lemma sub_ws_runs_nonspace b c s :
  PyStr.isspace c = false ->
  PyStr.sub_ws_runs b (String c s) = String c (PyStr.sub_ws_runs false s).
Proof. intros E. simpl. now rewrite E. Qed.

Lemma rstrip_sub_ws_runs b s :
  PyStr.rstrip (PyStr.sub_ws_runs b s) = PyStr.sub_ws_runs b (PyStr.rstrip s).
Proof.
  revert b. induction s as [|c s IH]; intros b; [reflexivity|].
  destruct (PyStr.isspace c) eqn:E.
  - rewrite (sub_ws_runs_space b c s E). cbn [PyStr.rstrip]. rewrite E.
    destruct b.
    + rewrite IH. destruct (PyStr.rstrip s); [reflexivity|].
      now rewrite (sub_ws_runs_space true c _ E).
    + cbn [PyStr.rstrip]. rewrite IH.
      destruct (PyStr.rstrip s) as [|a r] eqn:Er; [reflexivity|].
      rewrite (sub_ws_runs_space false c _ E).
      destruct (PyStr.sub_ws_runs true (String a r)) eqn:Es; [|reflexivity].
      apply sub_ws_runs_nil in Es. rewrite <- Er, rstrip_idem, Er in Es. discriminate.
  - rewrite (rstrip_cons_nonspace c s E). rewrite !(sub_ws_runs_nonspace b c _ E).
    rewrite (rstrip_cons_nonspace _ _ E). now rewrite IH.
Qed.

(** The string is empty or starts with a character that is no
    whitespace. *)
Lemma lstrip_fixed s :
  match s with EmptyString => True | String c _ => PyStr.isspace c = false end ->
  PyStr.lstrip s = s.
Proof. destruct s as [|c s]; [reflexivity|]. simpl. now intros ->. Qed.

Lemma lstrip_head s :
  match PyStr.lstrip s with EmptyString => True | String c _ => PyStr.isspace c = false end.
Proof.
  induction s as [|c s IH]; simpl; [exact I|].
  destruct (PyStr.isspace c) eqn:E; [exact IH|exact E].
Qed.

Lemma rstrip_head s :
  match s with EmptyString => True | String c _ => PyStr.isspace c = false end ->
  match PyStr.rstrip s with EmptyString => True | String c _ => PyStr.isspace c = false end.
Proof.
  destruct s as [|c s]; [trivial|]. intros E. now rewrite (rstrip_cons_nonspace c s E).
Qed.

Lemma lower_head s :
  match s with EmptyString => True | String c _ => PyStr.isspace c = false end ->
  match PyStr.lower s with EmptyString => True | String c _ => PyStr.isspace c = false end.
Proof. destruct s as [|c s]; [trivial|]. simpl. now rewrite isspace_lower_char. Qed.

Lemma sub_ws_runs_head b s :
  match s with EmptyString => True | String c _ => PyStr.isspace c = false end ->
  match PyStr.sub_ws_runs b s with
  | EmptyString => True
  | String c _ => PyStr.isspace c = false
  end.
Proof. destruct s as [|c s]; [trivial|]. simpl. intros E. now rewrite E. Qed.

Lemma sub_ws_runs_true_head s :
  match PyStr.sub_ws_runs true s with
  | EmptyString => True
  | String c _ => PyStr.isspace c = false
  end.
Proof.
  induction s as [|c s IH]; simpl; [exact I|].
  destruct (PyStr.isspace c) eqn:E; [exact IH|exact E].
Qed.

Lemma norm_text_head s :
  match norm_text (Str s) with
  | EmptyString => True
  | String c _ => PyStr.isspace c = false
  end.
Proof.
  unfold norm_text, PyStr.strip.
  apply sub_ws_runs_head, lower_head, rstrip_head, lstrip_head.
Qed.

Lemma norm_text_lower v : PyStr.lower (norm_text v) = norm_text v.
Proof.
  destruct v as [s| | | |]; try reflexivity.
  unfold norm_text. now rewrite lower_sub_ws_runs, lower_idem.
Qed.

Lemma norm_text_strip v : PyStr.strip (norm_text v) = norm_text v.
Proof.
  destruct v as [s| | | |]; try reflexivity.
  unfold PyStr.strip at 1. rewrite (lstrip_fixed _ (norm_text_head s)).
  unfold norm_text, PyStr.strip.
  now rewrite rstrip_sub_ws_runs, <- lower_rstrip, rstrip_idem.
Qed.

Lemma norm_text_collapsed v : PyStr.sub_ws_runs false (norm_text v) = norm_text v.
Proof.
  destruct v as [s| | | |]; try reflexivity.
  unfold norm_text. apply sub_ws_runs_idem.
Qed.

(** X1: norm_text is idempotent: normalising an already normalised text
    returns it unchanged (this includes the empty string that a non-
    string normalises to). *)
Theorem norm_text_idempotent v : norm_text (Str (norm_text v)) = norm_text v.
Proof.
  unfold norm_text at 1.
  now rewrite norm_text_strip, norm_text_lower, norm_text_collapsed.
Qed.

Lemma prefix_cons a s1 b s2 :
  String.prefix (String a s1) (String b s2)
  = if Ascii.eqb a b then String.prefix s1 s2 else false.
Proof.
  simpl. destruct (ascii_dec a b) as [->|Hne].
  - now rewrite Ascii.eqb_refl.
  - apply Ascii.eqb_neq in Hne. now rewrite Hne.
Qed.

Lemma space_is_space c : c = " "%char -> PyStr.isspace c = true.
Proof. now intros ->. Qed.

Lemma sub_ws_runs_spaces b s :
  Forall (fun c => PyStr.isspace c = true -> c = " "%char)
    (list_ascii_of_string (PyStr.sub_ws_runs b s)).
Proof.
  revert b. induction s as [|c s IH]; intros b; simpl; [constructor|].
  destruct (PyStr.isspace c) eqn:E.
  - destruct b; [apply IH|]. simpl. constructor; [reflexivity|apply IH].
  - simpl. constructor; [congruence|apply IH].
Qed.

Lemma sub_ws_runs_no_double b s :
  PyStr.contains "  " (PyStr.sub_ws_runs b s) = false.
Proof.
  revert b. induction s as [|c s IH]; intros b; [reflexivity|].
  destruct (PyStr.isspace c) eqn:E.
  - rewrite (sub_ws_runs_space b c s E). destruct b; [apply IH|].
    cbn [PyStr.contains]. rewrite IH, orb_false_r, prefix_cons. simpl Ascii.eqb.
    pose proof (sub_ws_runs_true_head s) as Hh.
    destruct (PyStr.sub_ws_runs true s) as [|x r]; [reflexivity|].
    rewrite prefix_cons. destruct (Ascii.eqb " " x) eqn:Ex; [|reflexivity].
    apply Ascii.eqb_eq in Ex. subst x. discriminate.
  - rewrite (sub_ws_runs_nonspace b c s E).
    cbn [PyStr.contains]. rewrite IH, orb_false_r, prefix_cons.
    destruct (Ascii.eqb " " c) eqn:Ec; [|reflexivity].
    apply Ascii.eqb_eq in Ec. subst c. discriminate.
Qed.

Lemma norm_text_spaces v :
  Forall (fun c => PyStr.isspace c = true -> c = " "%char)
    (list_ascii_of_string (norm_text v)).
Proof.
  destruct v as [s| | | |]; try constructor. unfold norm_text. apply sub_ws_runs_spaces.
Qed.

Lemma norm_text_no_double v : PyStr.contains "  " (norm_text v) = false.
Proof.
  destruct v as [s| | | |]; try reflexivity. unfold norm_text. apply sub_ws_runs_no_double.
Qed.

(** X2: The result of norm_text has no upper-case letter, no leading
    or trailing whitespace, no whitespace character other than the
    space, and no two consecutive spaces. *)
Theorem norm_text_shape v :
  PyStr.lower (norm_text v) = norm_text v
  /\ PyStr.strip (norm_text v) = norm_text v
  /\ Forall (fun c => PyStr.isspace c = true -> c = " "%char)
       (list_ascii_of_string (norm_text v))
  /\ PyStr.contains "  " (norm_text v) = false.
Proof.
  split; [apply norm_text_lower|]. split; [apply norm_text_strip|].
  split; [apply norm_text_spaces|apply norm_text_no_double].
Qed.

(** ** Substrings *)

Lemma prefix_app s1 s2 :
  String.prefix s1 s2 = true <-> exists b, s2 = (s1 ++ b)%string.
Proof.
  revert s2. induction s1 as [|a s1 IH]; intros s2.
  - split; [|now destruct s2]. intros _. now exists s2.
  - destruct s2 as [|b s2].
    + split; [discriminate|]. intros [r Hr]. discriminate.
    + rewrite prefix_cons. destruct (Ascii.eqb a b) eqn:E.
      * apply Ascii.eqb_eq in E. subst b. rewrite IH. split.
        -- intros [r ->]. now exists r.
        -- intros [r Hr]. rewrite append_cons in Hr. injection Hr as ->. now exists r.
      * split; [discriminate|]. intros [r Hr]. rewrite append_cons in Hr.
        injection Hr as Hab _. subst b. now rewrite Ascii.eqb_refl in E.
Qed.

Lemma contains_app sub s :
  PyStr.contains sub s = true <-> exists a b, s = (a ++ sub ++ b)%string.
Proof.
  induction s as [|c s IH].
  - cbn [PyStr.contains]. rewrite orb_false_r, prefix_app. split.
    + intros [b Hb]. now exists EmptyString, b.
    + intros [a [b Hab]]. destruct a; [now exists b|discriminate].
  - cbn [PyStr.contains]. rewrite orb_true_iff, prefix_app, IH. split.
    + intros [[b Hb]|[a [b Hab]]].
      * now exists EmptyString, b.
      * exists (String c a), b. now rewrite append_cons, Hab.
    + intros [a [b Hab]]. destruct a as [|x a].
      * left. now exists b.
      * right. rewrite append_cons in Hab. injection Hab as _ ->. now exists a, b.
Qed.

Lemma lower_app a b : PyStr.lower (a ++ b) = (PyStr.lower a ++ PyStr.lower b)%string.
Proof.
  induction a as [|x a IH]; [reflexivity|]. rewrite append_cons. simpl PyStr.lower.
  now rewrite append_cons, IH.
Qed.

Lemma chars_app a b :
  list_ascii_of_string (a ++ b) = list_ascii_of_string a ++ list_ascii_of_string b.
Proof.
  induction a as [|x a IH]; [reflexivity|]. rewrite append_cons. simpl. now rewrite IH.
Qed.

Lemma chars_lower s :
  list_ascii_of_string (PyStr.lower s) = List.map PyStr.lower_char (list_ascii_of_string s).
Proof. induction s as [|x s IH]; simpl; [reflexivity|]. now rewrite IH. Qed.

Lemma lower_char_space c : PyStr.isspace c = true -> PyStr.lower_char c = c.
Proof. destruct c as [[] [] [] [] [] [] [] []]; simpl; intros H; try reflexivity; discriminate. Qed.

(** X3: A keyword that contains a whitespace character other than a
    space (a tab, a newline) or two consecutive spaces never matches any
    text, because the text is whitespace-normalised and the keyword is
    only lower-cased: keyword_match on that keyword alone is False for
    every logic, and with logic all every keyword list containing it
    gives False. *)
Theorem keyword_with_odd_whitespace_never_hits text kw keywords logic :
  (exists c, c ∈ list_ascii_of_string kw /\ PyStr.isspace c = true /\ c <> " "%char)
  \/ PyStr.contains "  " kw = true ->
  keyword_match text [kw] logic = false
  /\ (kw ∈ keywords -> keyword_match text keywords "all" = false).
Proof.
  intros Hkw.
  assert (Hmiss : PyStr.contains (PyStr.lower kw) (norm_text text) = false).
  { destruct (PyStr.contains (PyStr.lower kw) (norm_text text)) eqn:Ec; [|reflexivity].
    exfalso. apply contains_app in Ec as (a & b & Hab).
    pose proof (norm_text_spaces text) as Hsp.
    pose proof (norm_text_no_double text) as Hdb.
    destruct Hkw as [(c & Hc & Hws & Hne)|Hdouble].
    - rewrite Forall_forall in Hsp. apply Hne, Hsp; [|exact Hws].
      rewrite Hab, !chars_app, chars_lower. apply elem_of_app. right.
      apply elem_of_app. left.
      rewrite <- (lower_char_space c Hws). apply list_elem_of_In, in_map.
      now apply list_elem_of_In.
    - apply contains_app in Hdouble as (a' & b' & ->).
      assert (Ht : PyStr.contains "  " (norm_text text) = true).
      { apply contains_app. exists (a ++ PyStr.lower a')%string, (PyStr.lower b' ++ b)%string.
        rewrite Hab, !lower_app, !append_assoc. reflexivity. }
      congruence. }
  split.
  - unfold keyword_match. cbn [List.map List.forallb List.existsb]. rewrite Hmiss.
    now destruct (String.eqb logic "all").
  - intros Hin. unfold keyword_match. destruct keywords as [|k ks]; [reflexivity|].
    cbn [String.eqb Ascii.eqb Bool.eqb]. 
    apply not_true_is_false. intros Hall. rewrite forallb_forall in Hall.
    specialize (Hall (PyStr.contains (PyStr.lower kw) (norm_text text))).
    rewrite Hmiss in Hall. discriminate Hall.
    apply in_map_iff. exists kw. split; [exact Hmiss|]. now apply list_elem_of_In.
Qed.

Lemma norm_text_same_lower t1 t2 :
  PyStr.lower t1 = PyStr.lower t2 -> norm_text (Str t1) = norm_text (Str t2).
Proof. intros H. unfold norm_text. now rewrite !lower_strip, H. Qed.

(** X4: keyword_match ignores letter case: two texts with the same
    lower-casing, and two keyword lists with the same lower-cased
    keywords, give the same result for every logic. *)
Theorem keyword_match_ignores_case t1 t2 kws1 kws2 logic :
  PyStr.lower t1 = PyStr.lower t2 ->
  List.map PyStr.lower kws1 = List.map PyStr.lower kws2 ->
  keyword_match (Str t1) kws1 logic = keyword_match (Str t2) kws2 logic.
Proof.
  intros Ht Hk. unfold keyword_match.
  rewrite (norm_text_same_lower t1 t2 Ht).
  assert (Hh : List.map (fun kw => PyStr.contains (PyStr.lower kw) (norm_text (Str t2))) kws1
               = List.map (fun kw => PyStr.contains (PyStr.lower kw) (norm_text (Str t2))) kws2).
  { rewrite <- (List.map_map PyStr.lower
                  (fun l => PyStr.contains l (norm_text (Str t2))) kws1).
    rewrite <- (List.map_map PyStr.lower
                  (fun l => PyStr.contains l (norm_text (Str t2))) kws2).
    now rewrite Hk. }
  rewrite Hh. destruct kws1, kws2; try reflexivity; discriminate.
Qed.

Lemma keyword_match_ignores_case_example :
  keyword_match (Str "Deep  LEARNING in Oncology") ["Learning"; "Cancer"] "any"
  = keyword_match (Str "deep  learning in oncology") ["learning"; "CANCER"] "any".
Proof.
  apply keyword_match_ignores_case; reflexivity.
Defined.

Lemma keyword_with_odd_whitespace_never_hits_example :
  keyword_match (Str "machine  learning") ["machine  learning"] "any" = false
  /\ keyword_match (Str "machine learning") ["machine"; "machine  learning"] "all" = false.
Proof.
  destruct (keyword_with_odd_whitespace_never_hits (Str "machine  learning")
              "machine  learning" ["machine"; "machine  learning"] "any") as [H1 _];
    [right; reflexivity|].
  destruct (keyword_with_odd_whitespace_never_hits (Str "machine learning")
              "machine  learning" ["machine"; "machine  learning"] "any") as [_ H2];
    [right; reflexivity|].
  split; [exact H1|]. apply H2. apply list_elem_of_In. simpl. auto.
Defined.

(** ** Record ids built from identifiers do not collide *)

Section ResolverCollisions.
Variable sha1_hexdigest : string -> string.
Variable json_dumps : row -> string.

Lemma id_prefix_injective k1 k2 (v1 v2 : string) :
  k1 ∈ id_keys -> k2 ∈ id_keys ->
  (k1 ++ ":" ++ v1 = k2 ++ ":" ++ v2)%string -> k1 = k2 /\ v1 = v2.
Proof.
  intros H1 H2 Heq. unfold id_keys in H1, H2.
  repeat (apply elem_of_cons in H1 as [->|H1]);
    [..|now apply elem_of_nil in H1];
    repeat (apply elem_of_cons in H2 as [->|H2]);
    try (now apply elem_of_nil in H2);
    cbv [String.append] in Heq; try discriminate Heq;
    (split; [reflexivity|congruence]).
Qed.

Lemma id_is_not_titlehash k (v h : string) :
  k ∈ id_keys -> (k ++ ":" ++ v)%string <> ("titlehash:" ++ h)%string.
Proof.
  intros H1 Heq. unfold id_keys in H1.
  repeat (apply elem_of_cons in H1 as [->|H1]);
    [..|now apply elem_of_nil in H1];
    cbv [String.append] in Heq; discriminate Heq.
Qed.

(** X5: Two records that each have a usable external identifier get the
    same record ID only if their first usable identifier is the same
    field (doi, pmid, eid or wos_uid) with the same trimmed value. *)
Theorem make_record_id_separates_identifiers now1 now2 r1 r2
    pre1 key1 post1 v1 pre2 key2 post2 v2 :
  id_keys = pre1 ++ key1 :: post1 ->
  Forall (fun k => blank_id k r1) pre1 ->
  dict_get key1 r1 = Str v1 ->
  PyStr.strip v1 <> EmptyString ->
  id_keys = pre2 ++ key2 :: post2 ->
  Forall (fun k => blank_id k r2) pre2 ->
  dict_get key2 r2 = Str v2 ->
  PyStr.strip v2 <> EmptyString ->
  make_record_id sha1_hexdigest json_dumps now1 r1
  = make_record_id sha1_hexdigest json_dumps now2 r2 ->
  key1 = key2 /\ PyStr.strip v1 = PyStr.strip v2.
Proof.
  intros Hk1 Hb1 Hv1 Hn1 Hk2 Hb2 Hv2 Hn2.
  rewrite (make_record_id_external sha1_hexdigest json_dumps now1 r1 pre1 key1 post1 v1)
    by assumption.
  rewrite (make_record_id_external sha1_hexdigest json_dumps now2 r2 pre2 key2 post2 v2)
    by assumption.
  apply id_prefix_injective.
  - rewrite Hk1. apply elem_of_app. right. apply list_elem_of_here.
  - rewrite Hk2. apply elem_of_app. right. apply list_elem_of_here.
Qed.

(** X6: The record ID of a record with a usable external identifier
    never equals the record ID of a record without one (a titlehash ID),
    whatever the hash function and the clock. *)
Theorem make_record_id_identifier_is_not_titlehash now1 now2 r1 r2 pre key post v :
  id_keys = pre ++ key :: post ->
  Forall (fun k => blank_id k r1) pre ->
  dict_get key r1 = Str v ->
  PyStr.strip v <> EmptyString ->
  Forall (fun k => blank_id k r2) id_keys ->
  make_record_id sha1_hexdigest json_dumps now1 r1
  <> make_record_id sha1_hexdigest json_dumps now2 r2.
Proof.
  intros Hk Hb Hv Hn Hb2.
  rewrite (make_record_id_external sha1_hexdigest json_dumps now1 r1 pre key post v)
    by assumption.
  unfold make_record_id at 1. rewrite first_external_id_blank by assumption.
  apply id_is_not_titlehash.
  rewrite Hk. apply elem_of_app. right. apply list_elem_of_here.
Qed.
End ResolverCollisions.

Lemma make_record_id_separates_identifiers_example :
  "doi"%string = "doi"%string /\ PyStr.strip " 10.1/x " = PyStr.strip "10.1/x".
Proof.
  apply (make_record_id_separates_identifiers SHA1.hexdigest Json.dumps
           "2024-01-01T00:00:00Z" "2025-06-30T12:00:00Z" doi_record_1 doi_record_2
           [] "doi"%string ["pmid"; "eid"; "wos_uid"]%string " 10.1/x "%string
           [] "doi"%string ["pmid"; "eid"; "wos_uid"]%string "10.1/x"%string);
    first [reflexivity | constructor | discriminate].
Defined.

Lemma make_record_id_identifier_is_not_titlehash_example :
  make_record_id SHA1.hexdigest Json.dumps "2024-01-01T00:00:00Z" doi_record_1
  <> make_record_id SHA1.hexdigest Json.dumps "2024-01-01T00:00:00Z" title_record_1.
Proof.
  apply (make_record_id_identifier_is_not_titlehash SHA1.hexdigest Json.dumps
           "2024-01-01T00:00:00Z" "2024-01-01T00:00:00Z" doi_record_1 title_record_1
           [] "doi"%string ["pmid"; "eid"; "wos_uid"]%string " 10.1/x "%string);
    first [reflexivity | discriminate | idtac].
  - constructor.
  - repeat constructor; intros v Hv; vm_compute in Hv; try discriminate;
      injection Hv as <-; reflexivity.
Defined.

(** ** The rule classifier and the store *)

Lemma column_missing w df d k :
  frames w !! df = Some d ->
  has_column k d = false ->
  Pandas.column df k w = Raise (KeyError k).
Proof.
  intros Hdf Hk. unfold Pandas.column.
  rewrite (bind_ok _ _ _ _ _ (read_ok w df d Hdf)). unfold lift.
  assert (H : map_result (fun ir : Z * row => Pandas.row_at k ir.2) d = Raise (KeyError k)).
  { clear Hdf. induction d as [|[i r] d IH]; [discriminate|].
    simpl in Hk. simpl. unfold Pandas.row_at at 1.
    destruct (row_get k r) as [v|] eqn:E; [|reflexivity].
    rewrite bool_decide_eq_true_2 in Hk by (now eexists). simpl in Hk.
    now rewrite IH. }
  now rewrite H.
Qed.

(** X7: screen_simple raises KeyError for title when the frame has no
    title column, and KeyError for abstract when it has a title column
    but no abstract column. *)
Theorem screen_simple_missing_column w df d include_kw exclude_kw inc_logic exc_logic :
  frames w !! df = Some d ->
  (has_column "title" d = false ->
   screen_simple df include_kw exclude_kw inc_logic exc_logic w = Raise (KeyError "title"))
  /\ (has_column "title" d = true -> has_column "abstract" d = false ->
      screen_simple df include_kw exclude_kw inc_logic exc_logic w
      = Raise (KeyError "abstract")).
Proof.
  intros Hdf. split.
  - intros Ht. unfold screen_simple.
    now rewrite (bind_raise _ _ _ _ (column_missing w df d _ Hdf Ht)).
  - intros Ht Ha. unfold screen_simple.
    rewrite (bind_ok _ _ _ _ _ (column_ok w df d Hdf _ Ht)).
    now rewrite (bind_raise _ _ _ _ (column_missing w df d _ Hdf Ha)).
Qed.

Lemma screen_simple_missing_column_example :
  screen_simple 0%nat ["cancer"] [] "any" "any"
    (World [[(0, [("title", Str "A review of cancer treatments")])]] ∅)
  = Raise (KeyError "abstract").
Proof.
  apply (proj2 (screen_simple_missing_column
                  (World [[(0, [("title", Str "A review of cancer treatments")])]] ∅)
                  0%nat [(0, [("title", Str "A review of cancer treatments")])]
                  ["cancer"] [] "any" "any" eq_refl)); reflexivity.
Defined.

Lemma store_lookup_old (l : list DataFrame) d r x :
  l !! r = Some x -> (l ++ [d]) !! r = Some x.
Proof. intros H. now apply lookup_app_l_Some. Qed.

Lemma store_lookup_fresh (l : list DataFrame) : l !! List.length l = None.
Proof. apply lookup_ge_None_2. reflexivity. Qed.

Lemma screen_simple_row_keeps include_kw exclude_kw inc_logic exc_logic r k :
  k ∉ screen_columns ->
  row_get k (screen_simple_row include_kw exclude_kw inc_logic exc_logic r) = row_get k r.
Proof.
  intros Hk. unfold screen_simple_row.
  rewrite !row_get_set_ne; [reflexivity|..];
    intros ->; apply Hk; unfold screen_columns; set_solver.
Qed.

(** X8: screen_simple returns a new frame and leaves every existing
    frame (the caller's included) and the file system unchanged; the new
    frame has the input's index labels and, for every column other than
    the five screen_ columns, the input's values. *)
Theorem screen_simple_leaves_store w df d include_kw exclude_kw inc_logic exc_logic :
  frames w !! df = Some d ->
  has_column "title" d = true ->
  has_column "abstract" d = true ->
  exists out w' d',
    screen_simple df include_kw exclude_kw inc_logic exc_logic w = Ok (out, w')
    /\ frames w !! out = None
    /\ frames w' !! out = Some d'
    /\ (forall r x, frames w !! r = Some x -> frames w' !! r = Some x)
    /\ files w' = files w
    /\ Forall2 (fun i o : Z * row =>
                  o.1 = i.1
                  /\ forall k, k ∉ screen_columns -> row_get k o.2 = row_get k i.2) d d'.
Proof.
  intros Hdf Ht Ha. eexists _, _, _.
  split; [apply (screen_simple_closed w df d); assumption|].
  cbn [frames files]. split; [apply store_lookup_fresh|].
  split; [apply store_lookup_last|].
  split; [intros r x; apply store_lookup_old|].
  split; [reflexivity|].
  unfold map_rows. apply Forall2_fmap_r, Forall_Forall2_diag, Forall_forall.
  intros [i r] _. simpl. split; [reflexivity|].
  intros k Hk. now apply screen_simple_row_keeps.
Qed.

Lemma screen_simple_leaves_store_example :
  exists out w' d',
    screen_simple 0%nat ["cancer"] ["review"] "any" "any" scenario_C_world = Ok (out, w')
    /\ frames scenario_C_world !! out = None
    /\ frames w' !! out = Some d'
    /\ (forall r x, frames scenario_C_world !! r = Some x -> frames w' !! r = Some x)
    /\ files w' = files scenario_C_world
    /\ Forall2 (fun i o : Z * row =>
                  o.1 = i.1
                  /\ forall k, k ∉ screen_columns -> row_get k o.2 = row_get k i.2)
         scenario_C_frame d'.
Proof.
  apply (screen_simple_leaves_store scenario_C_world 0%nat scenario_C_frame); reflexivity.
Defined.

Lemma row_set_same k v r : row_get k r = Some v -> Pandas.row_set k v r = r.
Proof.
  induction r as [|[k' v'] r IH]; simpl; [discriminate|].
  destruct (String.eqb k k') eqn:E.
  - apply String.eqb_eq in E. subst k'. now intros [= ->].
  - intros H. now rewrite IH.
Qed.

Lemma screen_simple_row_idem include_kw exclude_kw inc_logic exc_logic r :
  screen_simple_row include_kw exclude_kw inc_logic exc_logic
    (screen_simple_row include_kw exclude_kw inc_logic exc_logic r)
  = screen_simple_row include_kw exclude_kw inc_logic exc_logic r.
Proof.
  set (R := screen_simple_row include_kw exclude_kw inc_logic exc_logic r).
  assert (Hi : include_hit_of include_kw inc_logic R = include_hit_of include_kw inc_logic r).
  { unfold include_hit_of, R, screen_simple_row. now row_simpl. }
  assert (He : exclude_hit_of exclude_kw exc_logic R = exclude_hit_of exclude_kw exc_logic r).
  { unfold exclude_hit_of, R, screen_simple_row. now row_simpl. }
  unfold screen_simple_row at 1. rewrite Hi, He.
  rewrite (row_set_same "screen_mode" _ R)
    by (unfold R, screen_simple_row; now row_simpl).
  rewrite (row_set_same "screen_include_hit" _ R)
    by (unfold R, screen_simple_row; now row_simpl).
  rewrite (row_set_same "screen_exclude_hit" _ R)
    by (unfold R, screen_simple_row; now row_simpl).
  rewrite (row_set_same "screen_score" _ R)
    by (unfold R, screen_simple_row; now row_simpl).
  apply row_set_same. unfold R, screen_simple_row. now row_simpl.
Qed.

Lemma screen_simple_row_has include_kw exclude_kw inc_logic exc_logic r k :
  is_Some (row_get k r) ->
  is_Some (row_get k (screen_simple_row include_kw exclude_kw inc_logic exc_logic r)).
Proof.
  intros H. unfold screen_simple_row.
  repeat match goal with
  | |- is_Some (row_get ?k (Pandas.row_set ?k' _ _)) =>
      destruct (String.eqb_spec k k') as [->|Hne];
        [rewrite row_get_set_eq; now eexists|rewrite (row_get_set_ne _ _ _ _ Hne); clear Hne]
  end.
  exact H.
Qed.

(** X9: Screening the frame that screen_simple returned once more, with
    the same keywords and logics, returns a frame identical to it. *)
Theorem screen_simple_rescreen w df d include_kw exclude_kw inc_logic exc_logic :
  frames w !! df = Some d ->
  has_column "title" d = true ->
  has_column "abstract" d = true ->
  exists out w1 d' out2 w2,
    screen_simple df include_kw exclude_kw inc_logic exc_logic w = Ok (out, w1)
    /\ frames w1 !! out = Some d'
    /\ screen_simple out include_kw exclude_kw inc_logic exc_logic w1 = Ok (out2, w2)
    /\ frames w2 !! out2 = Some d'.
Proof.
  intros Hdf Ht Ha.
  set (d' := map_rows (screen_simple_row include_kw exclude_kw inc_logic exc_logic) d).
  assert (Hcol : forall k, has_column k d = true -> has_column k d' = true).
  { intros k Hk. unfold d', map_rows. apply has_column_Forall in Hk.
    unfold has_column. rewrite forallb_forall. intros x Hx.
    apply in_map_iff in Hx as [ir [<- Hin]]. apply bool_decide_eq_true. simpl.
    apply screen_simple_row_has. rewrite List.Forall_forall in Hk. now apply Hk. }
  eexists _, _, d', _, _.
  split; [apply (screen_simple_closed w df d); assumption|].
  cbn [frames]. split; [apply store_lookup_last|].
  split.
  - apply (screen_simple_closed _ _ d'); [apply store_lookup_last|now apply Hcol..].
  - cbn [frames].
    replace (map_rows (screen_simple_row include_kw exclude_kw inc_logic exc_logic) d')
      with d'; [apply store_lookup_last|].
    unfold d', map_rows. rewrite List.map_map. apply List.map_ext.
    intros [i r]. simpl. now rewrite screen_simple_row_idem.
Qed.

Lemma screen_simple_rescreen_example :
  exists out w1 d' out2 w2,
    screen_simple 0%nat ["cancer"] ["review"] "any" "any" scenario_C_world = Ok (out, w1)
    /\ frames w1 !! out = Some d'
    /\ screen_simple out ["cancer"] ["review"] "any" "any" w1 = Ok (out2, w2)
    /\ frames w2 !! out2 = Some d'.
Proof.
  apply (screen_simple_rescreen scenario_C_world 0%nat scenario_C_frame); reflexivity.
Defined.

(** ** The model classifier *)

(** X10: With a model file present and a frame of at least one row,
    screen_ml returns a new frame and leaves existing frames and files
    unchanged; in each row screen_score
    is the model's probability for the title, a space and the abstract
    (missing values read as empty), screen_relevant and
    screen_include_hit are score >= threshold, screen_exclude_hit is
    False, and the other columns keep the input's values. *)
Theorem screen_ml_decision w df d pipe model_path threshold :
  files w !! model_path = Some (Pickled pipe) ->
  frames w !! df = Some d ->
  d <> [] ->
  has_column "title" d = true -> has_column "abstract" d = true ->
  string_column "title" d = true -> string_column "abstract" d = true ->
  exists out w' d',
    screen_ml df model_path threshold w = Ok (out, w')
    /\ frames w !! out = None
    /\ frames w' !! out = Some d'
    /\ (forall r x, frames w !! r = Some x -> frames w' !! r = Some x)
    /\ files w' = files w
    /\ Forall2 (fun i o : Z * row =>
         exists p : Q,
           o.1 = i.1
           /\ p = predict_proba_pos pipe (ml_text i.2)
           /\ row_get "screen_score" o.2 = Some (Real p)
           /\ row_get "screen_relevant" o.2 = Some (Bool (Qle_bool threshold p))
           /\ row_get "screen_include_hit" o.2 = Some (Bool (Qle_bool threshold p))
           /\ row_get "screen_exclude_hit" o.2 = Some (Bool false)
           /\ forall k, k ∉ screen_columns -> row_get k o.2 = row_get k i.2) d d'.
Proof.
  intros Hm Hdf Hne Ht Ha Hst Hsa. eexists _, _, _.
  split; [apply (screen_ml_closed w df d pipe); assumption|].
  cbn [frames files]. split; [apply store_lookup_fresh|].
  split; [apply store_lookup_last|].
  split; [intros r x; apply store_lookup_old|].
  split; [reflexivity|].
  unfold map_rows. apply Forall2_fmap_r, Forall_Forall2_diag, Forall_forall.
  intros [i r] _. simpl. eexists. split; [reflexivity|]. split; [reflexivity|].
  unfold screen_ml_row. row_simpl. repeat (split; [reflexivity|]).
  intros k Hk.
  rewrite !row_get_set_ne; [reflexivity|..];
    intros ->; apply Hk; unfold screen_columns; set_solver.
Qed.

Lemma screen_ml_decision_example :
  exists out w' d',
    screen_ml 0%nat "results/model_ml.joblib" (1 # 2) model_world = Ok (out, w')
    /\ frames model_world !! out = None
    /\ frames w' !! out = Some d'
    /\ (forall r x, frames model_world !! r = Some x -> frames w' !! r = Some x)
    /\ files w' = files model_world
    /\ Forall2 (fun i o : Z * row =>
         exists p : Q,
           o.1 = i.1
           /\ p = predict_proba_pos constant_pipeline (ml_text i.2)
           /\ row_get "screen_score" o.2 = Some (Real p)
           /\ row_get "screen_relevant" o.2 = Some (Bool (Qle_bool (1 # 2) p))
           /\ row_get "screen_include_hit" o.2 = Some (Bool (Qle_bool (1 # 2) p))
           /\ row_get "screen_exclude_hit" o.2 = Some (Bool false)
           /\ forall k, k ∉ screen_columns -> row_get k o.2 = row_get k i.2)
         scenario_C_frame d'.
Proof.
  apply (screen_ml_decision model_world 0%nat scenario_C_frame constant_pipeline);
    try reflexivity.
  discriminate.
Defined.

Lemma Qle_bool_mono (t1 t2 p : Q) :
  (t1 <= t2)%Q -> Qle_bool t2 p = true -> Qle_bool t1 p = true.
Proof.
  intros Ht Hp. apply Qle_bool_iff. apply Qle_bool_iff in Hp.
  now apply (Qle_trans _ t2).
Qed.

(** X11: Raising the threshold of screen_ml never makes a record
    relevant: on a frame of at least one row, every row relevant at a
    threshold t2 is relevant at every threshold t1 <= t2. *)
Theorem screen_ml_threshold_monotone w df d pipe model_path t1 t2 :
  files w !! model_path = Some (Pickled pipe) ->
  frames w !! df = Some d ->
  d <> [] ->
  has_column "title" d = true -> has_column "abstract" d = true ->
  string_column "title" d = true -> string_column "abstract" d = true ->
  (t1 <= t2)%Q ->
  exists out1 w1 d1 out2 w2 d2,
    screen_ml df model_path t1 w = Ok (out1, w1)
    /\ frames w1 !! out1 = Some d1
    /\ screen_ml df model_path t2 w = Ok (out2, w2)
    /\ frames w2 !! out2 = Some d2
    /\ Forall2 (fun lo hi : Z * row =>
                  lo.1 = hi.1
                  /\ (row_get "screen_relevant" hi.2 = Some (Bool true) ->
                      row_get "screen_relevant" lo.2 = Some (Bool true))) d1 d2.
Proof.
  intros Hm Hdf Hne Ht Ha Hst Hsa Hle. eexists _, _, _, _, _, _.
  split; [apply (screen_ml_closed w df d pipe); assumption|].
  cbn [frames]. split; [apply store_lookup_last|].
  split; [apply (screen_ml_closed w df d pipe); assumption|].
  cbn [frames]. split; [apply store_lookup_last|].
  unfold map_rows. apply Forall2_fmap, Forall_Forall2_diag, Forall_forall.
  intros [i r] _. simpl. split; [reflexivity|].
  unfold screen_ml_row. row_simpl. intros [= H].
  now rewrite (Qle_bool_mono t1 t2 _ Hle H).
Qed.

Lemma screen_ml_threshold_monotone_example :
  exists out1 w1 d1 out2 w2 d2,
    screen_ml 0%nat "results/model_ml.joblib" (1 # 2) model_world = Ok (out1, w1)
    /\ frames w1 !! out1 = Some d1
    /\ screen_ml 0%nat "results/model_ml.joblib" (9 # 10) model_world = Ok (out2, w2)
    /\ frames w2 !! out2 = Some d2
    /\ Forall2 (fun lo hi : Z * row =>
                  lo.1 = hi.1
                  /\ (row_get "screen_relevant" hi.2 = Some (Bool true) ->
                      row_get "screen_relevant" lo.2 = Some (Bool true))) d1 d2.
Proof.
  apply (screen_ml_threshold_monotone model_world 0%nat scenario_C_frame constant_pipeline);
    first [reflexivity | discriminate].
Defined.

(** ** The metrics evaluator: what every report satisfies *)

Lemma select_world df keys w x w' : Pandas.select df keys w = Ok (x, w') -> w' = w.
Proof.
  unfold Pandas.select, Pandas.read, mbind, M_bind, lift.
  destruct (frames w !! df); [|discriminate].
  destruct (map_result _ _); [|discriminate]. now intros [= _ <-].
Qed.

Lemma lift_inv {A} (r : result A) w a w' : lift r w = Ok (a, w') -> r = Ok a /\ w' = w.
Proof. unfold lift. destruct r; [|discriminate]. now intros [= <- <-]. Qed.

Lemma compute_metrics_inv astype_int merge rnd screen_df labels_df w rep w' :
  compute_metrics astype_int merge rnd screen_df labels_df w = Ok (rep, w') ->
  w' = w
  /\ exists labels left m,
       Pandas.select labels_df ["record_id"; "label"] w = Ok (labels, w)
       /\ frames w !! screen_df = Some left
       /\ merge left labels = Ok m
       /\ ((m = [] /\ rep = no_overlap)
           \/ (m <> []
               /\ exists y_true y_pred,
                    cast_column astype_int "label" m = Ok y_true
                    /\ cast_column astype_int "screen_relevant" m = Ok y_pred
                    /\ rep = Metrics (metrics_of rnd y_true y_pred))).
Proof.
  unfold compute_metrics. intros H.
  apply bind_inv in H as (labels & w1 & Hsel & H).
  pose proof (select_world _ _ _ _ _ Hsel) as ->.
  apply bind_inv in H as (left & w2 & Hread & H).
  unfold Pandas.read in Hread.
  destruct (frames w !! screen_df) as [left'|] eqn:Hleft; [|discriminate].
  injection Hread as <- <-.
  apply bind_inv in H as (m & w3 & Hm & H).
  apply lift_inv in Hm as [Hm ->].
  destruct m as [|r0 m'].
  - cbn [is_nil] in H. injection H as <- <-. split; [reflexivity|].
    exists labels, left', []. repeat (split; [first [assumption|reflexivity]|]). left. now split.
  - cbn [is_nil] in H.
    apply bind_inv in H as (y_true & w4 & Ht & H). apply lift_inv in Ht as [Ht ->].
    apply bind_inv in H as (y_pred & w5 & Hp & H). apply lift_inv in Hp as [Hp ->].
    pose proof (compute_metrics_closed astype_int merge rnd w screen_df labels_df labels left'
                  (r0 :: m') y_true y_pred Hsel Hleft Hm ltac:(discriminate) Ht Hp) as Hc.
    unfold compute_metrics in Hc.
    rewrite (bind_ok _ _ _ _ _ Hsel) in Hc.
    rewrite (bind_ok _ _ _ _ _ (read_ok w screen_df left' Hleft)) in Hc.
    erewrite bind_ok in Hc; [|unfold lift; rewrite Hm; reflexivity].
    cbn [is_nil] in Hc.
    erewrite bind_ok in Hc; [|unfold lift; unfold cast_column in Ht; rewrite Ht; reflexivity].
    erewrite bind_ok in Hc; [|unfold lift; unfold cast_column in Hp; rewrite Hp; reflexivity].
    rewrite Hc in H. injection H as <- <-. split; [reflexivity|].
    exists labels, left', (r0 :: m'). repeat (split; [first [assumption|reflexivity]|]). right.
    split; [discriminate|]. now exists y_true, y_pred.
Qed.

(** X12: compute_metrics changes neither the frames nor the file system:
    whenever it returns, the store is the one it was called with. *)
Theorem compute_metrics_reads_only astype_int merge rnd screen_df labels_df w rep w' :
  compute_metrics astype_int merge rnd screen_df labels_df w = Ok (rep, w') -> w' = w.
Proof. intros H. now apply compute_metrics_inv in H as [-> _]. Qed.

Lemma compute_metrics_reads_only_scenario_D :
  compute_metrics Pandas.astype_int merge_inner Float64.round 0%nat 1%nat scenario_D_world
  = Ok (Metrics (metrics_of Float64.round [1; 1; 0; 0] [1; 0; 0; 1]), scenario_D_world)
  /\ scenario_D_world = scenario_D_world.
Proof.
  assert (H : compute_metrics Pandas.astype_int merge_inner Float64.round 0%nat 1%nat
                scenario_D_world
              = Ok (Metrics (metrics_of Float64.round [1; 1; 0; 0] [1; 0; 0; 1]),
                    scenario_D_world))
    by (vm_compute; reflexivity).
  split; [exact H|].
  exact (compute_metrics_reads_only Pandas.astype_int merge_inner Float64.round
           0%nat 1%nat scenario_D_world _ _ H).
Defined.



Lemma map_result_length {A B} (f : A -> result B) (l : list A) l' :
  map_result f l = Ok l' -> List.length l' = List.length l.
Proof.
  revert l'. induction l as [|x l IH]; intros l'; simpl.
  - now intros [= <-].
  - destruct (f x); [|discriminate]. destruct (map_result f l); [|discriminate].
    intros [= <-]. simpl. now rewrite (IH _ eq_refl).
Qed.


Lemma lfilter_all {A} (f : A -> bool) (l : list A) :
  Forall (fun x => f x = true) l -> List.filter f l = l.
Proof. induction 1 as [|x l Hx _ IH]; simpl; [reflexivity|]. now rewrite Hx, IH. Qed.


(** ** Ranges of the statistics *)

Lemma ratio_bounds (a b : Z) :
  0 <= a -> 0 <= b -> 0 < a + b ->
  (0 <= inject_Z a / inject_Z (a + b) /\ inject_Z a / inject_Z (a + b) <= 1)%Q.
Proof.
  intros Ha Hb Hab.
  assert (Hd : (0 < inject_Z (a + b))%Q) by (change 0%Q with (inject_Z 0); now rewrite <- Zlt_Qlt).
  assert (Ha' : (0 <= inject_Z a)%Q) by (change 0%Q with (inject_Z 0); now rewrite <- Zle_Qle).
  assert (Hle : (inject_Z a <= inject_Z (a + b))%Q) by (rewrite <- Zle_Qle; lia).
  split.
  - apply Qle_shift_div_l; [exact Hd|]. lra.
  - apply Qle_shift_div_r; [exact Hd|]. lra.
Qed.

Lemma ratio_pos (a b : Z) :
  0 <= a -> 0 <= b -> 0 < a + b ->
  ((0 < inject_Z a / inject_Z (a + b))%Q <-> 0 < a).
Proof.
  intros Ha Hb Hab.
  assert (Hd : (0 < inject_Z (a + b))%Q) by (change 0%Q with (inject_Z 0); now rewrite <- Zlt_Qlt).
  split.
  - intros H. destruct (Z.eq_dec a 0) as [->|Hne]; [|lia].
    exfalso. revert H. unfold Qdiv. rewrite Qmult_0_l. apply Qlt_irrefl.
  - intros H. apply Qlt_shift_div_l; [exact Hd|].
    rewrite Qmult_0_l. change 0%Q with (inject_Z 0). now rewrite <- Zlt_Qlt.
Qed.

Section RoundingBasics.
Variable rnd : Q -> Q.
Hypothesis rnd_mono : forall x y : Q, (x <= y)%Q -> (rnd x <= rnd y)%Q.
Hypothesis rnd_0 : (rnd 0 == 0)%Q.

Lemma rnd_proper x y : (x == y)%Q -> (rnd x == rnd y)%Q.
Proof.
  intros H. apply Qle_antisym; apply rnd_mono; rewrite H; apply Qle_refl.
Qed.

Lemma rnd_of_zero x : (x == 0)%Q -> (rnd x == 0)%Q.
Proof. intros H. rewrite (rnd_proper _ _ H). exact rnd_0. Qed.

Lemma rnd_nonneg x : (0 <= x)%Q -> (0 <= rnd x)%Q.
Proof. intros H. apply rnd_mono in H. now rewrite rnd_0 in H. Qed.

(** Without a true positive the rounded ratio is zero. *)
Lemma rounded_ratio_zero (b : Z) :
  ((if 0 <? 0 + b then rnd (inject_Z 0 / inject_Z (0 + b)) else 0) == 0)%Q.
Proof.
  destruct (0 <? 0 + b); [|reflexivity].
  apply rnd_of_zero. unfold Qdiv. apply Qmult_0_l.
Qed.

Lemma metrics_of_without_true_positive y_true y_pred :
  let r := metrics_of rnd y_true y_pred in
  m_tp r = 0 ->
  (m_precision r == 0)%Q /\ (m_recall r == 0)%Q /\ m_f1 r = 0%Q /\ m_nnr r = None.
Proof.
  cbn zeta. unfold metrics_of. cbn [m_precision m_recall m_f1 m_nnr m_tp].
  intros ->.
  pose proof (rounded_ratio_zero (count_pairs 0 1 y_true y_pred)) as Hp.
  pose proof (rounded_ratio_zero (count_pairs 1 0 y_true y_pred)) as Hr.
  set (p := if 0 <? 0 + count_pairs 0 1 y_true y_pred then _ else _) in *.
  set (r := if 0 <? 0 + count_pairs 1 0 y_true y_pred then _ else _) in *.
  split; [exact Hp|]. split; [exact Hr|].
  assert (Hs : (fadd rnd p r == 0)%Q).
  { unfold fadd. apply rnd_of_zero. rewrite Hp, Hr. reflexivity. }
  split.
  - destruct (Qlt_le_dec 0 (fadd rnd p r)) as [Hlt|Hle]; [|reflexivity].
    exfalso. rewrite Hs in Hlt. now apply Qlt_irrefl in Hlt.
  - destruct (Qlt_le_dec 0 p) as [Hlt|Hle]; [|reflexivity].
    exfalso. rewrite Hp in Hlt. now apply Qlt_irrefl in Hlt.
Qed.
End RoundingBasics.

Section RoundedRanges.
Variable rnd : Q -> Q.
Hypothesis laws : rounding_laws rnd.

Lemma rnd_le_one x : (x <= 1)%Q -> (rnd x <= 1)%Q.
Proof.
  intros H. apply (rnd_monotone rnd laws) in H. now rewrite (rnd_one rnd laws) in H.
Qed.

Lemma rnd_ge_one x : (1 <= x)%Q -> (1 <= rnd x)%Q.
Proof.
  intros H. apply (rnd_monotone rnd laws) in H. now rewrite (rnd_one rnd laws) in H.
Qed.

(** The rounded ratio of a count to a count that is not smaller. *)
Lemma rounded_ratio (a b : Z) :
  0 <= a -> 0 <= b ->
  let p := if 0 <? a + b then rnd (inject_Z a / inject_Z (a + b)) else 0%Q in
  (0 <= p)%Q /\ (p <= 1)%Q /\ ((0 < p)%Q <-> 0 < a) /\ (rnd (2 * p) == 2 * p)%Q.
Proof.
  intros Ha Hb. cbn zeta.
  pose proof (rnd_monotone rnd laws) as Hmono.
  pose proof (rnd_zero rnd laws) as Hzero.
  destruct (0 <? a + b) eqn:E.
  - apply Z.ltb_lt in E. destruct (ratio_bounds a b Ha Hb E) as [H0 H1].
    assert (Hp0 : (0 <= rnd (inject_Z a / inject_Z (a + b)))%Q)
      by now apply rnd_nonneg.
    assert (Hp1 : (rnd (inject_Z a / inject_Z (a + b)) <= 1)%Q)
      by now apply rnd_le_one.
    split; [exact Hp0|]. split; [exact Hp1|]. split.
    + split.
      * intros H. destruct (Z.eq_dec a 0) as [->|Hne]; [|lia].
        exfalso.
        assert (Ez : (rnd (inject_Z 0 / inject_Z (0 + b)) == 0)%Q).
        { apply rnd_of_zero; try assumption. unfold Qdiv. apply Qmult_0_l. }
        rewrite Ez in H. now apply Qlt_irrefl in H.
      * intros H. apply (rnd_quotient_positive rnd laws); lia.
    + now apply (rnd_twice rnd laws).
  - apply Z.ltb_ge in E. split; [apply Qle_refl|]. split; [discriminate|]. split.
    + split; intros H; [now apply Qlt_irrefl in H|lia].
    + rewrite (rnd_of_zero rnd Hmono Hzero (2 * 0)) by reflexivity. reflexivity.
Qed.

Lemma metrics_of_bounds y_true y_pred :
  let r := metrics_of rnd y_true y_pred in
  (0 <= m_precision r)%Q /\ (m_precision r <= 1)%Q
  /\ (0 <= m_recall r)%Q /\ (m_recall r <= 1)%Q
  /\ (0 <= m_f1 r)%Q /\ (m_f1 r <= 1)%Q
  /\ (forall q, m_nnr r = Some q -> (1 <= q)%Q)
  /\ (m_nnr r = None <-> m_tp r = 0).
Proof.
  cbn zeta. unfold metrics_of. cbn [m_precision m_recall m_f1 m_nnr m_tp].
  pose proof (rnd_monotone rnd laws) as Hmono.
  pose proof (rnd_zero rnd laws) as Hzero.
  pose proof (count_pairs_nonneg 1 1 y_true y_pred) as Htp.
  pose proof (count_pairs_nonneg 0 1 y_true y_pred) as Hfp.
  pose proof (count_pairs_nonneg 1 0 y_true y_pred) as Hfn.
  set (tp := count_pairs 1 1 y_true y_pred) in *.
  set (fp := count_pairs 0 1 y_true y_pred) in *.
  set (fn := count_pairs 1 0 y_true y_pred) in *.
  pose proof (rounded_ratio tp fp Htp Hfp) as Hp.
  pose proof (rounded_ratio tp fn Htp Hfn) as Hr.
  cbn zeta in Hp, Hr.
  set (p := if 0 <? tp + fp then rnd (inject_Z tp / inject_Z (tp + fp))%Q else 0%Q) in *.
  set (r := if 0 <? tp + fn then rnd (inject_Z tp / inject_Z (tp + fn))%Q else 0%Q) in *.
  destruct Hp as (Hp0 & Hp1 & Hppos & Hp2). destruct Hr as (Hr0 & Hr1 & _ & _).
  repeat (split; [assumption|]).
  assert (Hf : let f := if Qlt_le_dec 0 (fadd rnd p r)
                        then rnd (fmul rnd (fmul rnd 2 p) r / fadd rnd p r)%Q else 0%Q in
               (0 <= f)%Q /\ (f <= 1)%Q).
  { cbn zeta. destruct (Qlt_le_dec 0 (fadd rnd p r)) as [Hs|Hs];
      [|split; [apply Qle_refl|discriminate]].
    unfold fmul, fadd in *.
    assert (Hn0 : (0 <= rnd (rnd (2 * p) * r))%Q).
    { apply rnd_nonneg; try assumption. rewrite Hp2. nra. }
    assert (Hns : (rnd (rnd (2 * p) * r) <= rnd (p + r))%Q).
    { apply Hmono. rewrite Hp2. nra. }
    split.
    - apply rnd_nonneg; try assumption. apply Qle_shift_div_l; [exact Hs|]. lra.
    - apply rnd_le_one. apply Qle_shift_div_r; [exact Hs|]. lra. }
  destruct Hf as [Hf0 Hf1]. repeat (split; [assumption|]).
  destruct (Qlt_le_dec 0 p) as [Hpp|Hpn].
  - split.
    + intros q [= <-]. apply rnd_ge_one. apply Qle_shift_div_l; [exact Hpp|]. lra.
    + split; [discriminate|]. intros H. apply Hppos in Hpp. lia.
  - split; [discriminate|]. split; [|reflexivity]. intros _.
    destruct (Z.eq_dec tp 0) as [H0|Hne]; [exact H0|].
    exfalso. assert (H : 0 < tp) by lia. apply Hppos in H. lra.
Qed.
End RoundedRanges.

(** Arithmetic without rounding has the laws of the rounding. *)
Lemma no_rounding_laws : rounding_laws no_rounding.
Proof.
  unfold no_rounding. split.
  - intros x y H. exact H.
  - reflexivity.
  - reflexivity.
  - intros x _ _. reflexivity.
  - intros a b Ha Hab.
    apply Qlt_shift_div_l.
    + change 0%Q with (inject_Z 0). rewrite <- Zlt_Qlt. lia.
    + rewrite Qmult_0_l. change 0%Q with (inject_Z 0). now rewrite <- Zlt_Qlt.
Qed.

(** X14: In every metrics report precision, recall and f1 lie between 0
    and 1, nnr when present is at least 1, and nnr is absent exactly
    when tp is 0, whenever the float operations round to nearest. *)
Theorem compute_metrics_ranges astype_int merge rnd screen_df labels_df w r w' :
  rounding_laws rnd ->
  compute_metrics astype_int merge rnd screen_df labels_df w = Ok (Metrics r, w') ->
  (0 <= m_precision r)%Q /\ (m_precision r <= 1)%Q
  /\ (0 <= m_recall r)%Q /\ (m_recall r <= 1)%Q
  /\ (0 <= m_f1 r)%Q /\ (m_f1 r <= 1)%Q
  /\ (forall q, m_nnr r = Some q -> (1 <= q)%Q)
  /\ (m_nnr r = None <-> m_tp r = 0).
Proof.
  intros laws H.
  apply compute_metrics_inv in H as (_ & labels & left & m & _ & _ & _ & H).
  destruct H as [[_ H]|(_ & y_true & y_pred & _ & _ & H)]; [discriminate|].
  injection H as ->. now apply metrics_of_bounds.
Qed.

(** X15: In every metrics report without a true positive, precision and
    recall are zero, f1 is the default 0.0 and nnr is absent, whenever
    the rounding keeps the order and returns 0 unchanged. *)
Theorem compute_metrics_without_true_positive astype_int merge rnd screen_df labels_df
    w r w' :
  (forall x y : Q, (x <= y)%Q -> (rnd x <= rnd y)%Q) ->
  (rnd 0 == 0)%Q ->
  compute_metrics astype_int merge rnd screen_df labels_df w = Ok (Metrics r, w') ->
  m_tp r = 0 ->
  (m_precision r == 0)%Q /\ (m_recall r == 0)%Q /\ m_f1 r = 0%Q /\ m_nnr r = None.
Proof.
  intros Hmono Hzero H.
  apply compute_metrics_inv in H as (_ & labels & left & m & _ & _ & _ & H).
  destruct H as [[_ H]|(_ & y_true & y_pred & _ & _ & H)]; [discriminate|].
  injection H as ->. now apply metrics_of_without_true_positive.
Qed.

(** With more than zero true positives f1 is the rounded result of the
    three float operations, not the rounded quotient
    2*tp / (2*tp + fp + fn): one true positive and four false negatives
    give 0.33333333333333337, and the quotient 2/6 is
    0.3333333333333333. *)
Lemma f1_is_not_the_quotient_of_counts :
  let r := metrics_of Float64.round [1; 1; 1; 1; 1] [1; 0; 0; 0; 0] in
  m_tp r = 1 /\ m_fp r = 0 /\ m_fn r = 4
  /\ m_f1 r = (3002399751580331 # 9007199254740992)%Q
  /\ Float64.round (inject_Z (2 * m_tp r) / inject_Z (2 * m_tp r + m_fp r + m_fn r))
     = (6004799503160661 # 18014398509481984)%Q
  /\ ~ (m_f1 r
        == Float64.round (inject_Z (2 * m_tp r)
                          / inject_Z (2 * m_tp r + m_fp r + m_fn r)))%Q.
Proof.
  cbn zeta. repeat split; try (vm_compute; reflexivity).
  vm_compute. intros H. discriminate H.
Qed.

Lemma compute_metrics_ranges_scenario_D :
  let r := metrics_of no_rounding [1; 1; 0; 0] [1; 0; 0; 1] in
  rounding_laws no_rounding
  /\ compute_metrics Pandas.astype_int merge_inner no_rounding 0%nat 1%nat scenario_D_world
     = Ok (Metrics r, scenario_D_world)
  /\ (0 <= m_precision r)%Q /\ (m_precision r <= 1)%Q
  /\ (0 <= m_recall r)%Q /\ (m_recall r <= 1)%Q
  /\ (0 <= m_f1 r)%Q /\ (m_f1 r <= 1)%Q
  /\ (forall q, m_nnr r = Some q -> (1 <= q)%Q)
  /\ (m_nnr r = None <-> m_tp r = 0).
Proof.
  assert (H : compute_metrics Pandas.astype_int merge_inner no_rounding 0%nat 1%nat
                scenario_D_world
              = Ok (Metrics (metrics_of no_rounding [1; 1; 0; 0] [1; 0; 0; 1]),
                    scenario_D_world))
    by (vm_compute; reflexivity).
  split; [exact no_rounding_laws|]. split; [exact H|].
  exact (compute_metrics_ranges Pandas.astype_int merge_inner no_rounding
           0%nat 1%nat scenario_D_world _ _ no_rounding_laws H).
Defined.


Lemma compute_metrics_without_true_positive_example :
  let r := metrics_of no_rounding [0] [1] in
  (forall x y : Q, (x <= y)%Q -> (no_rounding x <= no_rounding y)%Q)
  /\ (no_rounding 0 == 0)%Q
  /\ compute_metrics Pandas.astype_int merge_inner no_rounding 0%nat 1%nat
       false_positive_world
     = Ok (Metrics r, false_positive_world)
  /\ m_tp r = 0
  /\ (m_precision r == 0)%Q /\ (m_recall r == 0)%Q /\ m_f1 r = 0%Q /\ m_nnr r = None.
Proof.
  assert (Hmono : forall x y : Q, (x <= y)%Q -> (no_rounding x <= no_rounding y)%Q)
    by (intros x y H; exact H).
  assert (Hzero : (no_rounding 0 == 0)%Q) by reflexivity.
  assert (H : compute_metrics Pandas.astype_int merge_inner no_rounding 0%nat 1%nat
                false_positive_world
              = Ok (Metrics (metrics_of no_rounding [0] [1]), false_positive_world))
    by (vm_compute; reflexivity).
  split; [exact Hmono|]. split; [exact Hzero|]. split; [exact H|].
  split; [reflexivity|].
  exact (compute_metrics_without_true_positive Pandas.astype_int merge_inner no_rounding
           0%nat 1%nat false_positive_world _ _ Hmono Hzero H eq_refl).
Defined.

(** ** What the duplicate detector keeps *)

Lemma bucket_get_in k B :
  bucket_get k B <> [] -> (k, bucket_get k B) ∈ B.
Proof.
  induction B as [|[k' items] B IH]; simpl; [congruence|].
  destruct (String.eqb k' k) eqn:E.
  - apply String.eqb_eq in E. subst k'. intros _. apply list_elem_of_here.
  - intros H. apply list_elem_of_further, IH, H.
Qed.

Lemma StronglySorted_by_key {A} (key : A -> string) (R : A -> A -> Prop) (l : list A) :
  (forall k, StronglySorted R (List.filter (fun x => String.eqb (key x) k) l)) ->
  StronglySorted (fun x y => key x = key y -> R x y) l.
Proof.
  induction l as [|x l IH]; intros H; [constructor|]. constructor.
  - apply IH. intros k. specialize (H k). simpl in H.
    destruct (String.eqb (key x) k); [now inversion H|exact H].
  - apply Forall_forall. intros y Hy Hk. specialize (H (key x)). simpl in H.
    rewrite String.eqb_refl in H. inversion H as [|? ? _ Hall]. subst.
    rewrite Forall_forall in Hall. apply Hall.
    apply list_elem_of_In, filter_In. split; [now apply list_elem_of_In|].
    rewrite <- Hk. apply String.eqb_refl.
Qed.

Lemma StronglySorted_map_inv {A B} (R : B -> B -> Prop) (f : A -> B) (l : list A) :
  StronglySorted R (List.map f l) -> StronglySorted (fun a b => R (f a) (f b)) l.
Proof.
  induction l as [|x l IH]; intros H; [constructor|].
  simpl in H. inversion H as [|? ? Hs Hall]. subst. constructor; [now apply IH|].
  apply Forall_forall. intros y Hy. rewrite Forall_forall in Hall. apply Hall.
  apply list_elem_of_In, in_map. now apply list_elem_of_In.
Qed.

Lemma StronglySorted_filter_both {A} (p : A -> bool) (R : A -> A -> Prop) (l : list A) :
  StronglySorted R l ->
  StronglySorted (fun a b => p a = true /\ p b = true /\ R a b) (List.filter p l).
Proof.
  induction 1 as [|x l _ IH Hall]; simpl; [constructor|].
  destruct (p x) eqn:E; [|exact IH]. constructor; [exact IH|].
  apply Forall_forall. intros y Hy. rewrite Forall_forall in Hall.
  apply list_elem_of_In, filter_In in Hy as [Hy Hp].
  split; [exact E|]. split; [exact Hp|]. apply Hall. now apply list_elem_of_In.
Qed.

Section KeptRows.
Variable ratio : string -> string -> Q.
Variable t : Z.

(** Every bucket of the scanned items is settled by the marks of the
    scan. *)
Lemma scanned_buckets_settled items k :
  StronglySorted (settled ratio t (scan_buckets ratio t (make_buckets items)))
    (List.filter (in_bucket k) items).
Proof.
  destruct (List.filter (in_bucket k) items) as [|x b] eqn:E; [constructor|].
  rewrite <- E.
  pose proof (scan_from_settled ratio t (make_buckets items) ∅
                (scan_buckets ratio t (make_buckets items)) (reflexivity _)) as Hs.
  rewrite Forall_forall in Hs.
  specialize (Hs (k, List.filter (in_bucket k) items)). apply Hs.
  rewrite <- bucket_get_make_buckets. apply bucket_get_in.
  rewrite bucket_get_make_buckets, E. discriminate.
Qed.

Lemma bucket_key_clean k ir :
  k = "__idkey"%string \/ k = "__title_norm"%string ->
  bucket_key (clean k ir) = bucket_key ir.
Proof.
  intros Hk. unfold bucket_key.
  now rewrite (keeps_dict_get (clean k) (keeps_clean k Hk)) by discriminate.
Qed.

Lemma dedup_rows_apart d : StronglySorted (apart ratio t) (dedup_rows ratio t d).
Proof.
  rewrite dedup_rows_eq. apply StronglySorted_map.
  set (E := exact_rows d). set (L := insertion_sort sort_key_leb E).
  pose proof (fun k => scanned_buckets_settled (List.map item_of L) k) as Hb.
  fold (marked ratio t E) in Hb.
  apply (StronglySorted_by_key (fun iv : Z * string => PyStr.take 20 iv.2)) in Hb.
  apply StronglySorted_map_inv in Hb.
  apply (StronglySorted_filter_both (unmarked ratio t E)) in Hb.
  revert Hb. apply StronglySorted_impl. intros a b (Ha & Hb & Hab).
  unfold apart. rewrite !bucket_key_clean by (now right).
  unfold clean. cbn [snd]. rewrite !dict_get_drop_ne by discriminate.
  intros Hk. unfold unmarked in Ha, Hb.
  apply negb_true_iff, bool_decide_eq_false in Ha, Hb.
  destruct (Hab Hk) as [H|[H|H]]; [contradiction|contradiction|exact H].
Qed.

(** The fuzzy-title pass marks nothing when no two rows share a bucket. *)
Lemma marked_distinct_buckets d :
  NoDup (List.map bucket_key d) -> marked ratio t d = ∅.
Proof.
  intros Hnd. unfold marked.
  change (scan_from ratio t
            (make_buckets (List.map item_of (insertion_sort sort_key_leb d))) ∅ = ∅).
  apply scan_from_dissimilar, Forall_forall. intros [k b] Hin. simpl.
  apply make_buckets_elem in Hin as [-> _].
  assert (Hnd' : NoDup (List.map bucket_key (insertion_sort sort_key_leb d))).
  { assert (Hp : List.map bucket_key (insertion_sort sort_key_leb d)
                 ≡ₚ List.map bucket_key d)
      by apply (fmap_Permutation bucket_key), insertion_sort_Permutation.
    now rewrite Hp. }
  clear Hnd. induction (insertion_sort sort_key_leb d) as [|x l IH]; [constructor|].
  simpl in Hnd'. apply NoDup_cons in Hnd' as [Hx Hl]. simpl.
  destruct (in_bucket k (item_of x)) eqn:Ex; [|now apply IH].
  assert (Hnone : List.filter (in_bucket k) (List.map item_of l) = []).
  { clear IH Hl. induction l as [|y l IHl]; [reflexivity|]. simpl.
    destruct (in_bucket k (item_of y)) eqn:Ey.
    - exfalso. apply Hx. unfold in_bucket, item_of in Ex, Ey.
      cbn [snd] in Ex, Ey. apply String.eqb_eq in Ex, Ey.
      cbn [List.map]. replace (bucket_key x) with (bucket_key y)
        by (unfold bucket_key; now rewrite Ex, Ey).
      apply list_elem_of_here.
    - apply IHl. intros H. apply Hx. simpl. now apply list_elem_of_further. }
  rewrite Hnone. repeat constructor.
Qed.

Lemma exact_rows_bucket_keys d :
  sublist (List.map bucket_key (exact_rows d)) (List.map bucket_key d).
Proof.
  rewrite exact_rows_eq. destruct (List.existsb _ d); [|reflexivity].
  rewrite List.map_map.
  rewrite (List.map_ext (fun x => bucket_key (clean "__idkey" x)) bucket_key)
    by (intros x; apply bucket_key_clean; now left).
  apply (fmap_sublist bucket_key), keep_first_by_sublist.
Qed.

Lemma dedup_rows_distinct_buckets d :
  NoDup (List.map bucket_key d) ->
  List.length (dedup_rows ratio t d) = List.length (exact_rows d).
Proof.
  intros Hnd. rewrite dedup_rows_eq, List.length_map.
  rewrite lfilter_all.
  - apply Permutation_length, insertion_sort_Permutation.
  - apply Forall_forall. intros x _. unfold unmarked.
    rewrite marked_distinct_buckets; [reflexivity|].
    eapply sublist_NoDup; [exact Hnd|apply exact_rows_bucket_keys].
Qed.
End KeptRows.

(** X16: In the frame deduplicate returns, no two records whose
    normalised titles share their first 20 characters are similar at the
    threshold (the earlier record compared with the later one, in the
    order of the returned frame). *)
Theorem deduplicate_keeps_no_similar_pair token_set_ratio fuzzy_threshold w df d :
  frames w !! df = Some d ->
  dedup_ready d = true ->
  exists out removed w' d',
    deduplicate token_set_ratio fuzzy_threshold df w = Ok ((out, removed), w')
    /\ frames w' !! out = Some d'
    /\ StronglySorted (apart token_set_ratio fuzzy_threshold) d'.
Proof.
  intros Hdf Hready.
  destruct (deduplicate_spec token_set_ratio fuzzy_threshold w df d Hdf Hready)
    as (out & w' & Hrun & Hout & _).
  eexists out, _, w', _. split; [exact Hrun|]. split; [exact Hout|].
  apply dedup_rows_apart.
Qed.

Lemma deduplicate_keeps_no_similar_pair_scenario_B :
  exists out removed w' d',
    deduplicate Fuzz.token_set_ratio 95 0%nat (World [scenario_B_frame] ∅)
    = Ok ((out, removed), w')
    /\ frames w' !! out = Some d'
    /\ StronglySorted (apart Fuzz.token_set_ratio 95) d'.
Proof.
  apply (deduplicate_keeps_no_similar_pair Fuzz.token_set_ratio 95
           (World [scenario_B_frame] ∅) 0%nat scenario_B_frame); reflexivity.
Defined.

(** X17: When the normalised titles of the input differ pairwise within
    their first 20 characters, the fuzzy pass removes nothing, whatever
    the similarity function and the threshold: removed_count is the
    number of rows the exact-key pass drops, and 0 when no record has an
    identifier. Two titles that differ by a leading article are such a
    pair although their token_set_ratio is 100. *)
Theorem deduplicate_compares_within_buckets_only token_set_ratio fuzzy_threshold w df d :
  frames w !! df = Some d ->
  dedup_ready d = true ->
  NoDup (List.map bucket_key d) ->
  exists out removed w' d',
    deduplicate token_set_ratio fuzzy_threshold df w = Ok ((out, removed), w')
    /\ frames w' !! out = Some d'
    /\ List.length d' = List.length (exact_rows d)
    /\ removed = Z.of_nat (List.length d) - Z.of_nat (List.length (exact_rows d))
    /\ (List.existsb (fun ir : Z * row => has_external_id ir.2) d = false -> removed = 0).
Proof.
  intros Hdf Hready Hnd.
  destruct (deduplicate_spec token_set_ratio fuzzy_threshold w df d Hdf Hready)
    as (out & w' & Hrun & Hout & _).
  pose proof (dedup_rows_distinct_buckets token_set_ratio fuzzy_threshold d Hnd) as Hlen.
  eexists out, _, w', _. split; [exact Hrun|]. split; [exact Hout|].
  split; [exact Hlen|]. rewrite Hlen. split; [reflexivity|].
  intros Hno. unfold exact_rows. rewrite Hno. lia.
Qed.

Lemma deduplicate_compares_within_buckets_only_example :
  Fuzz.token_set_ratio "the effect of aspirin on headache" "effect of aspirin on headache"
  = 100%Q
  /\ exists out removed w' d',
       deduplicate Fuzz.token_set_ratio 95 0%nat (World [article_frame] ∅)
       = Ok ((out, removed), w')
       /\ frames w' !! out = Some d'
       /\ List.length d' = List.length (exact_rows article_frame)
       /\ removed = Z.of_nat (List.length article_frame)
                    - Z.of_nat (List.length (exact_rows article_frame))
       /\ (List.existsb (fun ir : Z * row => has_external_id ir.2) article_frame = false ->
           removed = 0).
Proof.
  split; [vm_compute; reflexivity|].
  apply (deduplicate_compares_within_buckets_only Fuzz.token_set_ratio 95
           (World [article_frame] ∅) 0%nat article_frame); try reflexivity.
  apply NoDup_cons. split; [|apply NoDup_singleton].
  intros H. apply list_elem_of_singleton in H. vm_compute in H. discriminate.
Defined.

(** X18: When some input record has an external identifier, the records
    deduplicate returns have pairwise distinct keys, the key of a record
    being its first non-blank identifier value, or the empty string when
    it has none. *)
Theorem deduplicate_kept_keys_distinct token_set_ratio fuzzy_threshold w df d :
  frames w !! df = Some d ->
  dedup_ready d = true ->
  List.existsb (fun ir : Z * row => has_external_id ir.2) d = true ->
  exists out removed w' d',
    deduplicate token_set_ratio fuzzy_threshold df w = Ok ((out, removed), w')
    /\ frames w' !! out = Some d'
    /\ NoDup (List.map idkey_str d').
Proof.
  intros Hdf Hready Hany.
  destruct (deduplicate_spec token_set_ratio fuzzy_threshold w df d Hdf Hready)
    as (out & w' & Hrun & Hout & _).
  eexists out, _, w', _. split; [exact Hrun|]. split; [exact Hout|].
  now apply dedup_rows_keys.
Qed.

Lemma deduplicate_kept_keys_distinct_example :
  exists out removed w' d',
    deduplicate Fuzz.token_set_ratio 95 0%nat (World [one_doi_two_bare] ∅)
    = Ok ((out, removed), w')
    /\ frames w' !! out = Some d'
    /\ NoDup (List.map idkey_str d').
Proof.
  apply (deduplicate_kept_keys_distinct Fuzz.token_set_ratio 95
           (World [one_doi_two_bare] ∅) 0%nat one_doi_two_bare); reflexivity.
Defined.

(** ** A threshold outside the range of the similarity *)

Lemma norm_distance_le_100 dist lensum : (Fuzz.norm_distance dist lensum <= 100)%Q.
Proof.
  unfold Fuzz.norm_distance. destruct lensum as [|n]; [apply Qle_refl|].
  assert (H : (0 <= 100 * inject_Z (Z.of_nat dist) / inject_Z (Z.of_nat (S n)))%Q).
  { apply Qle_shift_div_l.
    - change 0%Q with (inject_Z 0). rewrite <- Zlt_Qlt. lia.
    - rewrite Qmult_0_l.
      assert (Hd : (0 <= inject_Z (Z.of_nat dist))%Q)
        by (change 0%Q with (inject_Z 0); rewrite <- Zle_Qle; lia).
      lra. }
  lra.
Qed.

Lemma Qmax_le_100 a b : (a <= 100)%Q -> (b <= 100)%Q -> (Fuzz.Qmax a b <= 100)%Q.
Proof. intros Ha Hb. unfold Fuzz.Qmax. now destruct (Qle_bool a b). Qed.

Lemma token_set_ratio_le_100 s1 s2 : (Fuzz.token_set_ratio s1 s2 <= 100)%Q.
Proof.
  unfold Fuzz.token_set_ratio.
  repeat match goal with
  | |- (match ?x with _ => _ end <= _)%Q => destruct x
  | |- ((if ?x then _ else _) <= _)%Q => destruct x
  | |- (Fuzz.Qmax _ _ <= _)%Q => apply Qmax_le_100
  | |- (Fuzz.norm_distance _ _ <= _)%Q => apply norm_distance_le_100
  | |- (0 <= 100)%Q => discriminate
  | |- (100 <= 100)%Q => apply Qle_refl
  | |- _ => progress cbv zeta
  end.
Qed.

Lemma StronglySorted_all {A} (R : A -> A -> Prop) (l : list A) :
  (forall x y, R x y) -> StronglySorted R l.
Proof.
  intros H. induction l as [|x l IH]; constructor; [exact IH|].
  apply Forall_forall. intros y _. apply H.
Qed.

Lemma marked_above_range ratio t d :
  (forall a b, (ratio a b <= 100)%Q) -> 100 < t -> marked ratio t d = ∅.
Proof.
  intros Hr Ht. unfold marked.
  change (scan_from ratio t
            (make_buckets (List.map item_of (insertion_sort sort_key_leb d))) ∅ = ∅).
  apply scan_from_dissimilar, Forall_forall. intros b _.
  apply StronglySorted_all. intros x y. unfold dissimilar, similar.
  apply not_true_is_false. intros H. apply Qle_bool_iff in H.
  specialize (Hr x.2 y.2).
  assert (Hlt : (100 < inject_Z t)%Q)
    by (change 100%Q with (inject_Z 100); now rewrite <- Zlt_Qlt).
  lra.
Qed.

(** X19: With a similarity function bounded by 100, a threshold above
    100 switches the fuzzy pass off: removed_count is the number of rows
    the exact-key pass drops, and 0 when no record has an identifier. *)
Theorem deduplicate_threshold_above_range token_set_ratio fuzzy_threshold w df d :
  frames w !! df = Some d ->
  dedup_ready d = true ->
  (forall a b, (token_set_ratio a b <= 100)%Q) ->
  100 < fuzzy_threshold ->
  exists out removed w' d',
    deduplicate token_set_ratio fuzzy_threshold df w = Ok ((out, removed), w')
    /\ frames w' !! out = Some d'
    /\ List.length d' = List.length (exact_rows d)
    /\ removed = Z.of_nat (List.length d) - Z.of_nat (List.length (exact_rows d))
    /\ (List.existsb (fun ir : Z * row => has_external_id ir.2) d = false -> removed = 0).
Proof.
  intros Hdf Hready Hr Ht.
  destruct (deduplicate_spec token_set_ratio fuzzy_threshold w df d Hdf Hready)
    as (out & w' & Hrun & Hout & _).
  assert (Hlen : List.length (dedup_rows token_set_ratio fuzzy_threshold d)
                 = List.length (exact_rows d)).
  { rewrite dedup_rows_eq, List.length_map, lfilter_all.
    - apply Permutation_length, insertion_sort_Permutation.
    - apply Forall_forall. intros x _. unfold unmarked.
      now rewrite marked_above_range. }
  eexists out, _, w', _. split; [exact Hrun|]. split; [exact Hout|].
  split; [exact Hlen|]. rewrite Hlen. split; [reflexivity|].
  intros Hno. unfold exact_rows. rewrite Hno. lia.
Qed.

Lemma deduplicate_threshold_above_range_scenario_B :
  exists out removed w' d',
    deduplicate Fuzz.token_set_ratio 101 0%nat (World [scenario_B_frame] ∅)
    = Ok ((out, removed), w')
    /\ frames w' !! out = Some d'
    /\ List.length d' = List.length (exact_rows scenario_B_frame)
    /\ removed = Z.of_nat (List.length scenario_B_frame)
                 - Z.of_nat (List.length (exact_rows scenario_B_frame))
    /\ (List.existsb (fun ir : Z * row => has_external_id ir.2) scenario_B_frame = false ->
        removed = 0).
Proof.
  apply (deduplicate_threshold_above_range Fuzz.token_set_ratio 101
           (World [scenario_B_frame] ∅) 0%nat scenario_B_frame);
    first [reflexivity | apply token_set_ratio_le_100].
Defined.

(** ** Standardising the search results *)

Lemma world_insert_same w df d :
  frames w !! df = Some d -> World (<[df := d]> (frames w)) (files w) = w.
Proof. intros H. rewrite list_insert_id by exact H. now destruct w. Qed.

Lemma has_column_fill_column k c d :
  has_column k (fill_column c d) = if String.eqb k c then true else has_column k d.
Proof.
  unfold fill_column. destruct (has_column c d) eqn:Ec.
  - destruct (String.eqb_spec k c) as [->|Hne]; [exact Ec|reflexivity].
  - destruct (String.eqb_spec k c) as [->|Hne].
    + apply has_column_map. intros ir. simpl. rewrite row_get_set_eq. now eexists.
    + clear Ec. unfold has_column. induction d as [|ir d IHd]; [reflexivity|].
      cbn [List.map List.forallb fst snd]. rewrite row_get_set_ne by exact Hne.
      now rewrite IHd.
Qed.

Lemma fill_column_rows c d :
  Forall2 (fun i m : Z * row =>
             m.1 = i.1
             /\ forall k, row_get k m.2
                          = if String.eqb k c && negb (has_column c d)
                            then Some (Str EmptyString) else row_get k i.2)
    d (fill_column c d).
Proof.
  unfold fill_column. destruct (has_column c d).
  - apply Forall_Forall2_diag, Forall_forall. intros ir _. split; [reflexivity|].
    intros k. now rewrite andb_false_r.
  - apply Forall2_fmap_r, Forall_Forall2_diag, Forall_forall. intros ir _. simpl.
    split; [reflexivity|]. intros k. rewrite andb_true_r.
    destruct (String.eqb_spec k c) as [->|Hne].
    + apply row_get_set_eq.
    + now apply row_get_set_ne.
Qed.

Lemma Forall2_compose {A B C} (R1 : A -> B -> Prop) (R2 : B -> C -> Prop)
    (R3 : A -> C -> Prop) (l1 : list A) (l2 : list B) (l3 : list C) :
  (forall x y z, R1 x y -> R2 y z -> R3 x z) ->
  Forall2 R1 l1 l2 -> Forall2 R2 l2 l3 -> Forall2 R3 l1 l3.
Proof.
  intros H H12. revert l3. induction H12 as [|x y l1 l2 Hxy _ IH]; intros l3 H23.
  - inversion H23. constructor.
  - inversion H23 as [|? z ? l3' Hyz Hrest]. subst. constructor; [eauto|now apply IH].
Qed.

Lemma fill_missing_rows cols d :
  Forall2 (fun i o : Z * row =>
             o.1 = i.1
             /\ forall k, row_get k o.2
                          = if bool_decide (k ∈ cols) && negb (has_column k d)
                            then Some (Str EmptyString) else row_get k i.2)
    d (fill_missing cols d).
Proof.
  revert d. induction cols as [|c cs IH]; intros d.
  - apply Forall_Forall2_diag, Forall_forall. intros ir _. split; [reflexivity|].
    intros k. rewrite bool_decide_eq_false_2; [reflexivity|]. apply not_elem_of_nil.
  - unfold fill_missing. cbn [List.fold_left]. fold (fill_missing cs (fill_column c d)).
    eapply Forall2_compose; [|apply fill_column_rows|apply IH].
    intros i m o [Hm1 Hm] [Ho1 Ho]. split; [congruence|]. intros k.
    rewrite Ho, Hm, has_column_fill_column.
    destruct (String.eqb_spec k c) as [->|Hne].
    + rewrite andb_false_r. cbn [andb].
      rewrite bool_decide_eq_true_2 by apply list_elem_of_here. reflexivity.
    + cbn [andb]. destruct (bool_decide (k ∈ cs)) eqn:Ek.
      * apply bool_decide_eq_true in Ek.
        rewrite bool_decide_eq_true_2 by (now apply list_elem_of_further). reflexivity.
      * apply bool_decide_eq_false in Ek. rewrite bool_decide_eq_false_2; [reflexivity|].
        intros H. apply elem_of_cons in H as [H|H]; [contradiction|contradiction].
Qed.

Lemma in_columns_ok w df d c :
  frames w !! df = Some d -> in_columns df c w = Ok (has_column c d, w).
Proof.
  intros Hdf. unfold in_columns. now rewrite (bind_ok _ _ _ _ _ (read_ok w df d Hdf)).
Qed.

Lemma add_missing_ok cols : forall w df d,
  frames w !! df = Some d ->
  add_missing df cols w
  = Ok (tt, World (<[df := fill_missing cols d]> (frames w)) (files w)).
Proof.
  induction cols as [|c cs IH]; intros w df d Hdf.
  - simpl. unfold mret, M_ret. now rewrite world_insert_same.
  - cbn [add_missing].
    rewrite (bind_ok _ _ _ _ _ (in_columns_ok w df d c Hdf)).
    assert (Hstep : when (negb (has_column c d))
                      (Pandas.set_column_const df c (Str EmptyString)) w
                    = Ok (tt, World (<[df := fill_column c d]> (frames w)) (files w))).
    { unfold when, fill_column. destruct (has_column c d); cbn [negb].
      - unfold mret, M_ret. now rewrite world_insert_same.
      - apply set_column_const_ok, Hdf. }
    rewrite (bind_ok _ _ _ _ _ Hstep).
    rewrite (IH _ df (fill_column c d)); cbn [frames files].
    + now rewrite list_insert_insert_eq.
    + now apply (store_lookup_insert _ _ d).
Qed.

Lemma has_column_fill_missing k cols d :
  has_column k (fill_missing cols d) = bool_decide (k ∈ cols) || has_column k d.
Proof.
  revert d. induction cols as [|c cs IH]; intros d.
  - rewrite bool_decide_eq_false_2 by apply not_elem_of_nil. reflexivity.
  - unfold fill_missing. cbn [List.fold_left]. fold (fill_missing cs (fill_column c d)).
    rewrite IH, has_column_fill_column.
    destruct (String.eqb_spec k c) as [->|Hne].
    + rewrite orb_true_r. now rewrite bool_decide_eq_true_2 by apply list_elem_of_here.
    + destruct (bool_decide (k ∈ cs)) eqn:Ek.
      * apply bool_decide_eq_true in Ek.
        now rewrite bool_decide_eq_true_2 by (now apply list_elem_of_further).
      * apply bool_decide_eq_false in Ek. rewrite bool_decide_eq_false_2; [reflexivity|].
        intros H. apply elem_of_cons in H as [H|H]; contradiction.
Qed.

Lemma filled_rows (D : DataFrame) (cols : list string) (l l' : DataFrame) :
  Forall (fun i : Z * row => forall k, has_column k D = true ->
            row_get k i.2 = Some (dict_get k i.2)) l ->
  Forall2 (fun i o : Z * row =>
             o.1 = i.1
             /\ forall k, row_get k o.2
                          = if bool_decide (k ∈ cols) && negb (has_column k D)
                            then Some (Str EmptyString) else row_get k i.2) l l' ->
  Forall2 (fun i o : Z * row =>
             o.1 = i.1
             /\ (forall k, k ∈ cols -> row_get k o.2 = Some (filled k D i))
             /\ (forall k, k ∉ cols -> row_get k o.2 = row_get k i.2)) l l'.
Proof.
  intros Hd H. induction H as [|i o l l' [Ho1 Ho] _ IH]; [constructor|].
  apply Forall_cons in Hd as [Hi Hd]. constructor; [|now apply IH].
  split; [exact Ho1|]. split.
  - intros k Hk. rewrite Ho, bool_decide_eq_true_2 by exact Hk. cbn [andb].
    unfold filled. destruct (has_column k D) eqn:E; [|reflexivity]. now apply Hi.
  - intros k Hk. rewrite Ho, bool_decide_eq_false_2 by exact Hk. reflexivity.
Qed.

Lemma fill_missing_filled cols d :
  Forall2 (fun i o : Z * row =>
             o.1 = i.1
             /\ (forall k, k ∈ cols -> row_get k o.2 = Some (filled k d i))
             /\ (forall k, k ∉ cols -> row_get k o.2 = row_get k i.2))
    d (fill_missing cols d).
Proof.
  apply filled_rows; [|apply fill_missing_rows].
  apply Forall_forall. intros i Hi k Hk. apply has_column_Forall in Hk.
  rewrite List.Forall_forall in Hk. apply list_elem_of_In in Hi.
  destruct (Hk i Hi) as [v Hv]. unfold dict_get. now rewrite Hv.
Qed.

Lemma set_cells_other k vals d :
  Forall2 (fun i o : Z * row =>
             o.1 = i.1 /\ forall k', k' <> k -> row_get k' o.2 = row_get k' i.2)
    d (Pandas.set_cells k vals d).
Proof.
  revert vals. induction d as [|[i r] d IH]; intros vals; [destruct vals; constructor|].
  destruct vals as [|v vals]; cbn [Pandas.set_cells].
  - apply Forall_Forall2_diag, Forall_forall. intros x _. now split.
  - constructor; [|apply IH]. split; [reflexivity|]. intros k' Hne. simpl.
    now apply row_get_set_ne.
Qed.

Lemma set_cells_values k vals d :
  List.length vals = List.length d ->
  List.map (fun o : Z * row => row_get k o.2) (Pandas.set_cells k vals d)
  = List.map Some vals.
Proof.
  revert vals. induction d as [|[i r] d IH]; intros [|v vals] Hlen;
    try discriminate; [reflexivity|].
  cbn [Pandas.set_cells List.map snd]. rewrite row_get_set_eq. f_equal.
  apply IH. simpl in Hlen. lia.
Qed.

Lemma has_column_set_cells k k' vals d :
  has_column k d = true -> has_column k (Pandas.set_cells k' vals d) = true.
Proof.
  revert vals. induction d as [|[i r] d IH]; intros vals H; [now destruct vals|].
  destruct vals as [|v vals]; [exact H|].
  cbn [Pandas.set_cells]. unfold has_column in *. cbn [List.forallb snd] in *.
  apply andb_true_iff in H as [H1 H2]. apply andb_true_iff. split; [|now apply IH].
  apply bool_decide_eq_true. apply bool_decide_eq_true in H1.
  destruct (String.eqb_spec k k') as [->|Hne].
  - rewrite row_get_set_eq. now eexists.
  - now rewrite row_get_set_ne.
Qed.

Section StandardizeProofs.
Variable to_Int64 : cell -> result cell.

Lemma df_standardize_closed w df d ys :
  frames w !! df = Some d ->
  map_result to_Int64
    (List.map (fun ir : Z * row => dict_get "year" ir.2) (fill_missing standard_columns d))
  = Ok ys ->
  df_standardize to_Int64 df w
  = Ok (List.length (frames w),
        World (<[df := Pandas.set_cells "year" ys (fill_missing standard_columns d)]>
                 (frames w)
               ++ [project_columns standard_columns
                     (Pandas.set_cells "year" ys (fill_missing standard_columns d))])
              (files w)).
Proof.
  intros Hdf Hys. unfold df_standardize.
  rewrite (bind_ok _ _ _ _ _ (add_missing_ok standard_columns w df d Hdf)).
  set (dF := fill_missing standard_columns d) in *.
  assert (Hdf1 : frames (World (<[df := dF]> (frames w)) (files w)) !! df = Some dF)
    by (now apply (store_lookup_insert _ _ d)).
  assert (Hyear : has_column "year" dF = true).
  { unfold dF. rewrite has_column_fill_missing. reflexivity. }
  rewrite (bind_ok _ _ _ _ _ (in_columns_ok _ df dF "year" Hdf1)).
  rewrite Hyear. unfold when.
  assert (Hconv :
    (year ← Pandas.column df "year";
     converted ← lift (map_result to_Int64 year);
     Pandas.set_column df "year" converted)
      (World (<[df := dF]> (frames w)) (files w))
    = Ok (tt, World (<[df := Pandas.set_cells "year" ys dF]> (frames w)) (files w))).
  { rewrite (bind_ok _ _ _ _ _ (column_ok _ df dF Hdf1 _ Hyear)).
    erewrite bind_ok; [|unfold lift; rewrite Hys; reflexivity].
    rewrite (set_column_ok _ df dF Hdf1). cbn [frames files].
    now rewrite list_insert_insert_eq. }
  rewrite (bind_ok _ _ _ _ _ Hconv).
  set (dC := Pandas.set_cells "year" ys dF).
  assert (Hdf2 : frames (World (<[df := dC]> (frames w)) (files w)) !! df = Some dC)
    by (now apply (store_lookup_insert _ _ d)).
  assert (Hcols : List.forallb (fun k => has_column k dC) standard_columns = true).
  { apply forallb_forall. intros k Hk. apply has_column_set_cells.
    unfold dF. rewrite has_column_fill_missing.
    apply list_elem_of_In in Hk. now rewrite bool_decide_eq_true_2. }
  rewrite (bind_ok _ _ _ _ _ (select_ok _ df dC Hdf2 _ Hcols)).
  rewrite (bind_ok _ _ _ _ _ (index_ok _ df dC Hdf2)).
  unfold Pandas.alloc. cbn [frames files]. rewrite length_insert.
  now rewrite combine_map.
Qed.
End StandardizeProofs.

Lemma row_get_project k cols r :
  row_get k (List.map (fun k' => (k', dict_get k' r)) cols)
  = if bool_decide (k ∈ cols) then Some (dict_get k r) else None.
Proof.
  induction cols as [|c cs IH]; [reflexivity|].
  cbn [List.map row_get]. destruct (String.eqb_spec k c) as [->|Hne].
  - now rewrite bool_decide_eq_true_2 by apply list_elem_of_here.
  - rewrite IH. destruct (bool_decide (k ∈ cs)) eqn:Ek.
    + apply bool_decide_eq_true in Ek.
      now rewrite bool_decide_eq_true_2 by (now apply list_elem_of_further).
    + apply bool_decide_eq_false in Ek. rewrite bool_decide_eq_false_2; [reflexivity|].
      intros H. apply elem_of_cons in H as [H|H]; contradiction.
Qed.

Lemma Forall2_map_eq {A B C} (f : A -> C) (g : B -> C) (l : list A) (l' : list B) :
  Forall2 (fun a b => g b = f a) l l' -> List.map g l' = List.map f l.
Proof. induction 1 as [|a b l l' H _ IH]; simpl; [reflexivity|]. now rewrite H, IH. Qed.

Lemma year_standard : "year"%string ∈ standard_columns.
Proof. apply (bool_decide_unpack _). vm_compute. exact I. Qed.

Lemma fill_missing_year d :
  List.map (fun ir : Z * row => dict_get "year" ir.2) (fill_missing standard_columns d)
  = List.map (filled "year" d) d.
Proof.
  apply Forall2_map_eq.
  eapply Forall2_impl; [apply (fill_missing_filled standard_columns d)|].
  intros i o (_ & Hin & _). unfold dict_get. rewrite Hin; [reflexivity|].
  apply year_standard.
Qed.

Lemma some_dict_get k (l : DataFrame) (ys : list cell) :
  List.map (fun o : Z * row => row_get k o.2) l = List.map Some ys ->
  List.map (fun o : Z * row => Some (dict_get k o.2)) l = List.map Some ys.
Proof.
  revert ys. induction l as [|o l IH]; intros [|y ys] H; try discriminate; [reflexivity|].
  simpl in *. injection H as Ho Hl. unfold dict_get at 1. rewrite Ho. simpl.
  f_equal. now apply IH.
Qed.

Section StandardizeTheorems.
Variable to_Int64 : cell -> result cell.

(** The frame the caller passed, as [df_standardize] leaves it. *)
Lemma standardized_caller_rows d ys :
  List.length ys = List.length d ->
  Forall2 (fun i o : Z * row =>
             o.1 = i.1
             /\ (forall c, c ∈ standard_columns -> c <> "year"%string ->
                   row_get c o.2 = Some (filled c d i))
             /\ (forall c, c ∉ standard_columns -> row_get c o.2 = row_get c i.2))
    d (Pandas.set_cells "year" ys (fill_missing standard_columns d))
  /\ List.map (fun o : Z * row => row_get "year" o.2)
       (Pandas.set_cells "year" ys (fill_missing standard_columns d))
     = List.map Some ys.
Proof.
  intros Hlen. split.
  - eapply Forall2_compose;
      [|apply (fill_missing_filled standard_columns d)|apply set_cells_other].
    intros i m o (Hm1 & Hin & Hout) [Ho1 Ho]. split; [congruence|]. split.
    + intros c Hc Hne. rewrite Ho by exact Hne. now apply Hin.
    + intros c Hc. rewrite Ho; [now apply Hout|].
      intros ->. apply Hc, year_standard.
  - apply set_cells_values. rewrite Hlen.
    pose proof (Forall2_length _ _ _ (fill_missing_filled standard_columns d)) as H.
    exact H.
Qed.

(** X20: When the year conversion succeeds, df_standardize returns a new
    frame with the input's index labels whose rows have exactly the 15
    standard columns in the standard order; a standard column other than
    year holds the input's value, or the empty string where the input
    lacks the column; the year column holds the converted years; the
    file system is not touched. *)
Theorem df_standardize_output w df d ys :
  frames w !! df = Some d ->
  map_result to_Int64 (List.map (filled "year" d) d) = Ok ys ->
  exists out w' d',
    df_standardize to_Int64 df w = Ok (out, w')
    /\ frames w !! out = None
    /\ frames w' !! out = Some d'
    /\ files w' = files w
    /\ List.map fst d' = List.map fst d
    /\ Forall (fun o : Z * row => List.map fst o.2 = standard_columns) d'
    /\ List.map (fun o : Z * row => row_get "year" o.2) d' = List.map Some ys
    /\ Forall2 (fun i o : Z * row =>
                  forall c, c ∈ standard_columns -> c <> "year"%string ->
                    row_get c o.2 = Some (filled c d i)) d d'.
Proof.
  intros Hdf Hys.
  pose proof (map_result_length _ _ _ Hys) as Hlen. rewrite List.length_map in Hlen.
  rewrite <- fill_missing_year in Hys.
  destruct (standardized_caller_rows d ys Hlen) as [Hrows Hyear].
  eexists _, _, _. split; [apply (df_standardize_closed to_Int64 w df d ys Hdf Hys)|].
  cbn [frames files]. split; [apply store_lookup_fresh|].
  split.
  { rewrite <- (length_insert (frames w) df
                  (Pandas.set_cells "year" ys (fill_missing standard_columns d))).
    apply store_lookup_last. }
  split; [reflexivity|].
  set (dC := Pandas.set_cells "year" ys (fill_missing standard_columns d)) in *.
  split.
  { unfold project_columns. rewrite List.map_map. cbn [fst].
    apply Forall2_map_eq. eapply Forall2_impl; [exact Hrows|].
    now intros i o [H _]. }
  split.
  { unfold project_columns. apply Forall_forall. intros o Ho.
    apply list_elem_of_fmap in Ho as [ir [-> _]]. cbn [snd].
    rewrite List.map_map. cbn [fst]. apply List.map_id. }
  split.
  { unfold project_columns. rewrite List.map_map. cbn [snd].
    rewrite <- (some_dict_get "year" dC ys Hyear). apply List.map_ext. intros ir.
    rewrite row_get_project.
    now rewrite bool_decide_eq_true_2 by apply year_standard. }
  unfold project_columns. apply Forall2_fmap_r.
  eapply Forall2_impl; [exact Hrows|].
  intros i o (_ & Hin & _) c Hc Hne. cbn [snd].
  rewrite row_get_project, bool_decide_eq_true_2 by exact Hc.
  unfold dict_get. now rewrite (Hin c Hc Hne).
Qed.

(** X21: df_standardize modifies the frame it is given in place: after
    the call the caller's frame has the missing standard columns added,
    filled with empty strings, and its year column replaced by the
    converted years; its other columns are unchanged. *)
Theorem df_standardize_changes_caller_frame w df d ys :
  frames w !! df = Some d ->
  map_result to_Int64 (List.map (filled "year" d) d) = Ok ys ->
  exists out w' d',
    df_standardize to_Int64 df w = Ok (out, w')
    /\ frames w' !! df = Some d'
    /\ List.map (fun o : Z * row => row_get "year" o.2) d' = List.map Some ys
    /\ Forall2 (fun i o : Z * row =>
                  o.1 = i.1
                  /\ (forall c, c ∈ standard_columns -> c <> "year"%string ->
                        row_get c o.2 = Some (filled c d i))
                  /\ (forall c, c ∉ standard_columns -> row_get c o.2 = row_get c i.2))
         d d'.
Proof.
  intros Hdf Hys.
  pose proof (map_result_length _ _ _ Hys) as Hlen. rewrite List.length_map in Hlen.
  rewrite <- fill_missing_year in Hys.
  destruct (standardized_caller_rows d ys Hlen) as [Hrows Hyear].
  eexists _, _, _. split; [apply (df_standardize_closed to_Int64 w df d ys Hdf Hys)|].
  cbn [frames]. split; [|split; [exact Hyear|exact Hrows]].
  apply lookup_app_l_Some. now apply (store_lookup_insert _ _ d).
Qed.
End StandardizeTheorems.

Lemma df_standardize_output_example :
  exists out w' d',
    df_standardize integer_year 0%nat (World [raw_results] ∅) = Ok (out, w')
    /\ frames (World [raw_results] ∅) !! out = None
    /\ frames w' !! out = Some d'
    /\ files w' = files (World [raw_results] ∅)
    /\ List.map fst d' = List.map fst raw_results
    /\ Forall (fun o : Z * row => List.map fst o.2 = standard_columns) d'
    /\ List.map (fun o : Z * row => row_get "year" o.2) d' = List.map Some [Null; Null]
    /\ Forall2 (fun i o : Z * row =>
                  forall c, c ∈ standard_columns -> c <> "year"%string ->
                    row_get c o.2 = Some (filled c raw_results i)) raw_results d'.
Proof.
  apply (df_standardize_output integer_year (World [raw_results] ∅) 0%nat raw_results);
    reflexivity.
Defined.

Lemma df_standardize_changes_caller_frame_example :
  exists out w' d',
    df_standardize integer_year 0%nat (World [raw_results] ∅) = Ok (out, w')
    /\ frames w' !! 0%nat = Some d'
    /\ List.map (fun o : Z * row => row_get "year" o.2) d' = List.map Some [Null; Null]
    /\ Forall2 (fun i o : Z * row =>
                  o.1 = i.1
                  /\ (forall c, c ∈ standard_columns -> c <> "year"%string ->
                        row_get c o.2 = Some (filled c raw_results i))
                  /\ (forall c, c ∉ standard_columns -> row_get c o.2 = row_get c i.2))
         raw_results d'.
Proof.
  apply (df_standardize_changes_caller_frame integer_year (World [raw_results] ∅) 0%nat
           raw_results); reflexivity.
Defined.
